(** * Smart Vehicle IDS: the telemetry / detection / aggregation core of app.py

    A shallow embedding of [src/app.py] and the properties its specification
    states about it.

    Conventions of the embedding.
    - Python [int] is [Z]; [len] and the Counter counts are [nat].
    - Python [float] is IEEE 754 binary64.  A float is held as the rational
      [Q] that is its exact value, and every operation rounds its exact
      result to the nearest binary64 value, ties to even ([Binary64.round]):
      a literal such as [0.35] is [Py.float 0.35], the double nearest to
      35/100; [random.random()] is [k / 2^53] for a raw 53-bit draw [k];
      [random.uniform(a, b)] is [a + (b - a) * random()] with each of the
      three operations rounded; [round(x, 2)] is the decimal with two places
      nearest to the exact value of [x], ties to even, read back as a double.
      Comparisons of floats are comparisons of their values.  Infinities and
      NaN are not modelled: every float app.py computes lies in [0, 1].
    - Python [str] is [string]; dictionaries with a fixed shape are records,
      dictionaries used as maps ([ecu_health], the three [Counter]s) are
      [gmap string _].
    - The [random] module and the wall clock are explicit sources threaded
      through a state monad [M]: every [random.*] call consumes the next raw
      draw, every [datetime.utcnow()] the next clock reading.
    - The log file is the list of what each append left in it: a whole
      line, or the first characters of one when the write failed part-way.
      How an append ends is given by the disk, an oracle of the world.
    - The module-level variables [FORCE_ATTACK], [ANALYTICS], [LAST_SNAPSHOT]
      are the record [Globals], passed in and returned. *)

From Stdlib Require Import ZArith QArith Qround Qpower String Ascii List Lia Lqa.
From Stdlib Require DecimalString HexadecimalString Floats.
From stdpp Require Import gmap strings list fin_maps.

Local Open Scope string_scope.
Local Open Scope list_scope.

(** ** IEEE 754 binary64, the floats of Python *)

Module Binary64.

(** Nearest integer, ties to even. *)
Definition nearest_even (q : Q) : Z :=
  let f := Qfloor q in
  match Qcompare (q - inject_Z f) (1 # 2) with
  | Lt => f
  | Gt => (f + 1)%Z
  | Eq => if Z.even f then f else (f + 1)%Z
  end.

Definition pow2 (e : Z) : Q := (2 ^ e)%Q.

(** For [q > 0], the [e] with [2^e <= q < 2^(e+1)]. *)
Definition ilog2 (q : Q) : Z :=
  let a := (Z.log2 (Qnum q) - Z.log2 (Zpos (Qden q)))%Z in
  if Qle_bool (pow2 a) q then a else (a - 1)%Z.

(** For [q > 0], the exponent of the unit in the last place of the binary64
    values around [q]: 53 significant bits, and [2^-1074] below the normal
    range. *)
Definition expo (q : Q) : Z := Z.max (ilog2 q - 52) (-1074).

(** The multiple of [2^e] nearest to [q], ties to the even multiple. *)
Definition to_grid (e : Z) (q : Q) : Q :=
  inject_Z (nearest_even (q / pow2 e)) * pow2 e.

(** The binary64 value nearest to [q], ties to even, in lowest terms. *)
Definition round (q : Q) : Q :=
  match Qcompare q 0 with
  | Eq => 0
  | Gt => Qred (to_grid (expo q) q)
  | Lt => Qred (- to_grid (expo (- q)) (- q))
  end.

(** [x + y], [x - y] and [x * y] on floats. *)
Definition add (x y : Q) : Q := round (x + y).
Definition sub (x y : Q) : Q := round (x - y).
Definition mul (x y : Q) : Q := round (x * y).

End Binary64.

(** The binary64 arithmetic of the machine, to check [Binary64] against. *)
Module Hardware.
Import PrimFloat.
#[local] Set Warnings "-inexact-float".

(** The exact value of a finite machine float, in lowest terms. *)
Definition value (f : float) : option Q :=
  match FloatOps.Prim2SF f with
  | SpecFloat.S754_zero _ => Some 0%Q
  | SpecFloat.S754_finite sign m e =>
      Some (Qred ((if sign then -1 else 1) * inject_Z (Z.pos m)
                  * Binary64.pow2 e))
  | _ => None
  end.

(** Whether the machine float [f] has the value [q]. *)
Definition agrees (f : float) (q : Q) : bool :=
  match value f with
  | Some v => Qeq_bool v q
  | None => false
  end.

(** The decimal literals of app.py, as the machine reads them, each with the
    decimal it is written as. *)
Definition literals : list (float * Q) :=
  [ (0.03, 0.03%Q); (0.1, 0.1%Q); (0.2, 0.2%Q); (0.25, 0.25%Q);
    (0.3, 0.3%Q); (0.35, 0.35%Q); (0.5, 0.5%Q); (0.7, 0.7%Q);
    (0.8, 0.8%Q); (0.85, 0.85%Q); (1.0, 1.0%Q) ]%float.

(** [n / 100]: the float the decimal with the digits of [n] and two places
    is read as, for [0 <= n]. *)
Definition hundredth (n : Z) : float :=
  (of_uint63 (Uint63.of_Z n) / 100)%float.

(** [random.random()] of a raw draw: 53 bits over [2^53]. *)
Definition unit_of (r : N) : float :=
  (of_uint63 (Uint63.of_Z (Z.of_N (r mod 9007199254740992)))
   / of_uint63 (Uint63.of_Z 9007199254740992))%float.

(** [a + (b - a) * random()] and [random() * c]. *)
Definition uniform_of (a b : float) (r : N) : float :=
  (a + (b - a) * unit_of r)%float.
Definition scaled (c : float) (r : N) : float := (unit_of r * c)%float.

(** The float expressions of app.py at the raw draw [r]: the four calls of
    [random.uniform] and the base anomaly. *)
Definition expressions (r : N) : list float :=
  [ uniform_of 0.8 1.0 r; uniform_of 0.3 0.7 r; uniform_of 0.85 1.0 r;
    uniform_of 0.2 0.5 r; scaled 0.2 r ]%float.

End Hardware.

(** ** Python built-ins used by app.py *)

Module Py.

(** [str(n)] for an [int]. *)
Definition str (z : Z) : string :=
  DecimalString.NilEmpty.string_of_int (Z.to_int z).

(** [sep.join(parts)]. *)
Definition join (sep : string) (parts : list string) : string :=
  String.concat sep parts.

(** The hexadecimal digits of a natural number, lower case, no prefix. *)
Definition hex_digits (n : N) : string :=
  HexadecimalString.NilEmpty.string_of_uint (N.to_hex_uint n).

(** [hex(n)]. *)
Definition hex (z : Z) : string :=
  if (z <? 0)%Z then "-0x" +:+ hex_digits (Z.to_N (- z))
  else "0x" +:+ hex_digits (Z.to_N z).

Definition upper_ascii (c : ascii) : ascii :=
  let n := nat_of_ascii c in
  if ((97 <=? n) && (n <=? 122))%nat then ascii_of_nat (n - 32) else c.

Fixpoint upper (s : string) : string :=
  match s with
  | EmptyString => EmptyString
  | String c rest => String (upper_ascii c) (upper rest)
  end.

(** [f"{n:02X}"] for a non-negative [n]. *)
Definition format_02X (z : Z) : string :=
  let h := upper (hex_digits (Z.to_N z)) in
  if (String.length h <? 2)%nat then "0" +:+ h else h.

(** [f"{n:02d}"], as [strftime] pads its fields. *)
Definition format_02d (n : nat) : string :=
  let d := str (Z.of_nat n) in
  if (String.length d <? 2)%nat then "0" +:+ d else d.

(** The float a decimal literal, or a decimal text, denotes. *)
Definition float (q : Q) : Q := Binary64.round q.

(** [x < y] on floats. *)
Definition Qltb (x y : Q) : bool := negb (Qle_bool y x).

(** [round(x, 2)] on a float: the exact value of [x] is rounded to the
    nearest decimal with two places, ties to even, and that decimal is read
    back as a float. *)
Definition round2 (x : Q) : Q := float (Binary64.nearest_even (x * 100) # 100).

End Py.

(** ** Data model: the dictionaries app.py builds *)

Module Packet.
Record t := mk {
  timestamp : string;
  id : string;
  ecu : string;
  dlc : Z;
  data : string;
  anomaly : bool;
}.
End Packet.

Module Alert.
Record t := mk {
  level : string;
  source : string;
  message : string;
  attack_type : string;
  attacker_ip : string;
}.
End Alert.

Module Cell.
Record t := mk {
  name : string;
  status : string;
}.
End Cell.

Module Snapshot.
Record t := mk {
  speed : Z;
  brake_status : string;
  ecu_health : gmap string Q;
  can_anomaly_score : Q;
  attack_active : bool;
  heatmap : list Cell.t;
  security_alerts : list Alert.t;
  can_packets : list Packet.t;
  forced_attack : bool;
  timestamp : string;
}.
End Snapshot.

Module Event.
Record t := mk {
  timestamp : string;
  total_alerts : nat;
  critical_alerts : nat;
  attack_active : bool;
}.
End Event.

Module Analytics.
Record t := mk {
  attack_counts_by_ecu : gmap string nat;
  attack_counts_by_type : gmap string nat;
  attack_counts_by_attacker : gmap string nat;
  events_timeline : list Event.t;
}.
End Analytics.

(** [collections.Counter]: a missing key reads as 0. *)
Module Counter.
Definition get (c : gmap string nat) (k : string) : nat :=
  default 0%nat (c !! k).

(** [c[k] += 1]. *)
Definition incr (k : string) (c : gmap string nat) : gmap string nat :=
  <[k := S (get c k)]> c.
End Counter.

(** ** Global state *)

Definition ECU_NAMES : list string :=
  [ "Engine ECU";
    "Brake ECU";
    "Steering ECU";
    "Infotainment";
    "Telematics";
    "ADAS ECU" ].

Definition ATTACK_TYPES : list string :=
  [ "Spoofing";
    "Replay";
    "DoS";
    "Fuzzing";
    "Sensor Tampering" ].

Record Globals := mkGlobals {
  FORCE_ATTACK : bool;
  ANALYTICS : Analytics.t;
  LAST_SNAPSHOT : option Snapshot.t;
}.

(** The module-level initial values. *)
Definition ANALYTICS0 : Analytics.t :=
  {| Analytics.attack_counts_by_ecu := ∅;
     Analytics.attack_counts_by_type := ∅;
     Analytics.attack_counts_by_attacker := ∅;
     Analytics.events_timeline := [] |}.

Definition Globals0 : Globals :=
  {| FORCE_ATTACK := false; ANALYTICS := ANALYTICS0; LAST_SNAPSHOT := None |}.

(** ** The outside world: randomness, the clock, the log file *)

Record DateTime := mkDateTime {
  year : nat; month : nat; day : nat;
  hour : nat; minute : nat; second : nat;
}.

(** [dt.strftime("%H:%M:%S")]. *)
Definition strftime_HMS (dt : DateTime) : string :=
  Py.format_02d (hour dt) +:+ ":" +:+ Py.format_02d (minute dt) +:+ ":"
  +:+ Py.format_02d (second dt).

(** [dt.strftime("%Y-%m-%d %H:%M:%S")]. *)
Definition strftime_Ymd_HMS (dt : DateTime) : string :=
  Py.str (Z.of_nat (year dt)) +:+ "-" +:+ Py.format_02d (month dt) +:+ "-"
  +:+ Py.format_02d (day dt) +:+ " " +:+ strftime_HMS dt.

(** What one [open(LOG_FILE, "a")] / [f.write(line)] leaves on disk: the
    whole line; nothing, when the open or the write fails before a byte gets
    through; or the first [kept] characters only, when the write fails
    part-way. *)
Inductive Append := Written | Refused | Cut (kept : nat).

(** What the log file holds for one append. *)
Inductive LogLine :=
| Whole (data : Snapshot.t)                 (* the line of [data] *)
| Truncated (kept : nat) (data : Snapshot.t) (* its first [kept] characters *).

Record Sys := mkSys {
  draws : nat -> N;          (* the raw output of the random generator *)
  drawn : nat;               (* how many draws were consumed *)
  utc : nat -> DateTime;     (* successive readings of the clock *)
  reads : nat;               (* how many readings were taken *)
  disk_append : nat -> Append; (* how the n-th append to the log ends *)
  writes : nat;              (* how many appends were attempted *)
  LOG_FILE : list LogLine    (* what the appends left in the file, in order *)
}.

(** Computations over [Sys]. *)
Definition M (A : Type) : Type := Sys -> A * Sys.

#[global] Instance M_ret : MRet M := fun A a s => (a, s).
#[global] Instance M_bind : MBind M :=
  fun A B f m s => let '(a, s') := m s in f a s'.

Definition next_draw : M N := fun s =>
  (draws s (drawn s),
   {| draws := draws s; drawn := S (drawn s); utc := utc s; reads := reads s;
      disk_append := disk_append s; writes := writes s; LOG_FILE := LOG_FILE s |}).

(** [datetime.utcnow()]. *)
Definition utcnow : M DateTime := fun s =>
  (utc s (reads s),
   {| draws := draws s; drawn := drawn s; utc := utc s; reads := S (reads s);
      disk_append := disk_append s; writes := writes s; LOG_FILE := LOG_FILE s |}).

(** [m] run [n] times, results in order: a generator expression over
    [range(n)]. *)
Fixpoint times {A} (n : nat) (m : M A) : M (list A) :=
  match n with
  | O => mret []
  | S n' => x ← m; xs ← times n' m; mret (x :: xs)
  end.

Module Random.

(** The value [random.random()] makes of a raw draw: in [0, 1). *)
Definition unit_of (r : N) : Q :=
  Z.of_N (r mod 9007199254740992) # 9007199254740992.

(** [random.random()]. *)
Definition random : M Q := r ← next_draw; mret (unit_of r).

(** The value [random.uniform(a, b)] makes of a raw draw:
    [a + (b - a) * self.random()] in float arithmetic. *)
Definition uniform_of (a b : Q) (r : N) : Q :=
  Binary64.add a (Binary64.mul (Binary64.sub b a) (unit_of r)).

(** [random.uniform(a, b)]. *)
Definition uniform (a b : Q) : M Q := r ← next_draw; mret (uniform_of a b r).

(** [random.randint(a, b)], for [a <= b]. *)
Definition randint (a b : Z) : M Z :=
  r ← next_draw; mret (a + Z.of_N r mod (b - a + 1))%Z.

(** [random.choice(seq)], for a non-empty [seq]. *)
Definition choice (seq : list string) : M string :=
  r ← next_draw;
  mret (nth (N.to_nat (r mod N.of_nat (length seq))) seq "").

End Random.

(** ** Helpers *)

Definition random_ip : M string :=
  octets ← times 4 (n ← Random.randint 1 254; mret (Py.str n));
  mret (Py.join "." octets).

(** What an append of the line of [data] adds to the file. *)
Definition appended (outcome : Append) (data : Snapshot.t) : list LogLine :=
  match outcome with
  | Written => [Whole data]
  | Refused => []
  | Cut kept => [Truncated kept data]
  end.

(** The append to [LOG_FILE].  Whatever fails is swallowed by the bare
    [except]: the call returns normally, and the file keeps what reached it
    before the failure. *)
Definition log_telemetry (data : Snapshot.t) : M unit := fun s =>
  (tt,
   {| draws := draws s; drawn := drawn s; utc := utc s; reads := reads s;
      disk_append := disk_append s; writes := S (writes s);
      LOG_FILE := LOG_FILE s ++ appended (disk_append s (writes s)) data |}).

Fixpoint can_packet_loop (n : nat) (attack_hint : bool)
    (packets : list Packet.t) : M (list Packet.t) :=
  match n with
  | O => mret packets
  | S n' =>
      ecu ← Random.choice ECU_NAMES;
      can_id ← (i ← Random.randint 256 2047; mret (Py.hex i));
      data_hex ← (bytes ← times 8 (b ← Random.randint 0 255;
                                   mret (Py.format_02X b));
                  mret (Py.join " " bytes));
      let anomaly_prob :=
        if attack_hint then Py.float 0.35 else Py.float 0.03 in
      now ← utcnow;
      r ← Random.random;
      can_packet_loop n' attack_hint
        (packets ++ [ {| Packet.timestamp := strftime_HMS now;
                         Packet.id := can_id;
                         Packet.ecu := ecu;
                         Packet.dlc := 8;
                         Packet.data := data_hex;
                         Packet.anomaly := Py.Qltb r anomaly_prob |} ])
  end.

Definition generate_can_packets (attack_hint : bool) : M (list Packet.t) :=
  can_packet_loop 15 attack_hint [].

(** ** The rule engine *)

Definition evaluate_rules (snapshot : Snapshot.t)
    (prev_snapshot : option Snapshot.t) (can_packets : list Packet.t)
    : M (bool * list Alert.t) :=
  let alerts : list Alert.t := [] in
  let rule_attack := false in
  (* ----- CAN Anomaly Rule ----- *)
  let anomaly_frames := List.filter Packet.anomaly can_packets in
  '(rule_attack, alerts) ←
    (if (8 <=? length anomaly_frames)%nat then
       ip ← random_ip;
       mret (true,
             alerts ++ [ {| Alert.level := "HIGH";
                            Alert.source := "Telematics";
                            Alert.message :=
                              Py.str (Z.of_nat (length anomaly_frames))
                              +:+ " anomalous CAN frames detected";
                            Alert.attack_type := "DoS/Fuzzing";
                            Alert.attacker_ip := ip |} ])
     else mret (rule_attack, alerts));
  (* ----- Physics Rule ----- *)
  let speed := Snapshot.speed snapshot in
  '(rule_attack, alerts) ←
    match prev_snapshot with
    | Some prev =>
        let delta := Z.abs (speed - Snapshot.speed prev) in
        if (60 <? delta)%Z then
          ip ← random_ip;
          mret (true,
                alerts ++ [ {| Alert.level := "HIGH";
                               Alert.source := "Engine ECU";
                               Alert.message :=
                                 "Implausible speed jump Δv=" +:+ Py.str delta
                                 +:+ " km/h";
                               Alert.attack_type := "Physical Implausibility";
                               Alert.attacker_ip := ip |} ])
        else mret (rule_attack, alerts)
    | None => mret (rule_attack, alerts)
    end;
  (* ----- Brake Rule ----- *)
  '(rule_attack, alerts) ←
    (if String.eqb (Snapshot.brake_status snapshot) "ON" && (120 <? speed)%Z
     then
       ip ← random_ip;
       mret (true,
             alerts ++ [ {| Alert.level := "CRITICAL";
                            Alert.source := "Brake ECU";
                            Alert.message :=
                              "Brake engaged at " +:+ Py.str speed +:+ " km/h";
                            Alert.attack_type := "Safety Violation";
                            Alert.attacker_ip := ip |} ])
     else mret (rule_attack, alerts));
  mret (rule_attack, alerts).

(** ** The analytics aggregator *)

(** One iteration of [for a in alerts] over the three counters. *)
Definition count_alert
    (c : gmap string nat * gmap string nat * gmap string nat) (a : Alert.t)
    : gmap string nat * gmap string nat * gmap string nat :=
  let '(by_ecu, by_type, by_attacker) := c in
  let by_ecu :=
    if decide (Alert.source a ∈ ECU_NAMES)
    then Counter.incr (Alert.source a) by_ecu else by_ecu in
  let by_type := Counter.incr (Alert.attack_type a) by_type in
  let by_attacker := Counter.incr (Alert.attacker_ip a) by_attacker in
  (by_ecu, by_type, by_attacker).

Definition update_analytics (alerts : list Alert.t) (attack_active : bool)
    (A : Analytics.t) : M Analytics.t :=
  now ← utcnow;
  let timeline :=
    Analytics.events_timeline A
    ++ [ {| Event.timestamp := strftime_HMS now;
            Event.total_alerts := length alerts;
            Event.critical_alerts :=
              length (List.filter
                        (fun a => bool_decide
                                    (Alert.level a ∈ ["HIGH"; "CRITICAL"]))
                        alerts);
            Event.attack_active := attack_active |} ] in
  let timeline :=
    if (200 <? length timeline)%nat then drop 1 timeline (* pop(0) *)
    else timeline in
  let '(by_ecu, by_type, by_attacker) :=
    fold_left count_alert alerts
      (Analytics.attack_counts_by_ecu A,
       Analytics.attack_counts_by_type A,
       Analytics.attack_counts_by_attacker A) in
  mret {| Analytics.attack_counts_by_ecu := by_ecu;
          Analytics.attack_counts_by_type := by_type;
          Analytics.attack_counts_by_attacker := by_attacker;
          Analytics.events_timeline := timeline |}.

(** ** The telemetry generator *)

(** [{e: round(random.uniform(0.8, 1.0), 2) for e in names}], accumulated
    into [d]. *)
Fixpoint health_comprehension (names : list string) (d : gmap string Q)
    : M (gmap string Q) :=
  match names with
  | [] => mret d
  | e :: rest =>
      u ← Random.uniform (Py.float 0.8) (Py.float 1.0);
      health_comprehension rest (<[e := Py.round2 u]> d)
  end.

(** The loop run when a rule fired: the three named units go to "warning"
    and their health is drawn again. *)
Fixpoint warning_loop (cells : list Cell.t) (health : gmap string Q)
    : M (list Cell.t * gmap string Q) :=
  match cells with
  | [] => mret ([], health)
  | c :: rest =>
      '(c, health) ←
        (if decide (Cell.name c ∈ ["Engine ECU"; "Brake ECU"; "Telematics"])
         then
           u ← Random.uniform (Py.float 0.3) (Py.float 0.7);
           mret ({| Cell.name := Cell.name c; Cell.status := "warning" |},
                 <[Cell.name c := Py.round2 u]> health)
         else mret (c, health));
      '(rest, health) ← warning_loop rest health;
      mret (c :: rest, health)
  end.

(** The loop run in forced-attack mode: every unit goes to "compromised"
    and its health is drawn again. *)
Fixpoint compromised_loop (cells : list Cell.t) (health : gmap string Q)
    : M (list Cell.t * gmap string Q) :=
  match cells with
  | [] => mret ([], health)
  | c :: rest =>
      u ← Random.uniform (Py.float 0.2) (Py.float 0.5);
      let c := {| Cell.name := Cell.name c; Cell.status := "compromised" |} in
      let health := <[Cell.name c := Py.round2 u]> health in
      '(rest, health) ← compromised_loop rest health;
      mret (c :: rest, health)
  end.

Definition generate_telemetry (g : Globals) : M (Snapshot.t * Globals) :=
  speed ← Random.randint 0 140;
  brake_status ← (r ← Random.random;
                  mret (if Py.Qltb r (Py.float 0.25) then "ON" else "OFF"));
  ecu_health ← health_comprehension ECU_NAMES ∅;
  base_anomaly ← (r ← Random.random; mret (Binary64.mul r (Py.float 0.2)));
  let can_anomaly_score := base_anomaly in
  attack_hint ← (if FORCE_ATTACK g then mret true
                 else r ← Random.random; mret (Py.Qltb r (Py.float 0.1)));
  can_packets ← generate_can_packets attack_hint;
  now ← utcnow;
  let snapshot :=
    {| Snapshot.speed := speed;
       Snapshot.brake_status := brake_status;
       Snapshot.ecu_health := ecu_health;
       Snapshot.can_anomaly_score := Py.round2 can_anomaly_score;
       Snapshot.attack_active := false;
       Snapshot.heatmap :=
         map (fun e => {| Cell.name := e; Cell.status := "ok" |}) ECU_NAMES;
       Snapshot.security_alerts := [];
       Snapshot.can_packets := can_packets;
       Snapshot.forced_attack := FORCE_ATTACK g;
       Snapshot.timestamp := strftime_Ymd_HMS now |} in
  (* Apply real IDS rules *)
  '(rule_attack, rule_alerts) ←
    evaluate_rules snapshot (LAST_SNAPSHOT g) can_packets;
  let security_alerts := Snapshot.security_alerts snapshot ++ rule_alerts in
  '(attack_active, heatmap, ecu_health) ←
    (if (rule_attack : bool) then
       '(heatmap, ecu_health) ←
         warning_loop (Snapshot.heatmap snapshot)
                      (Snapshot.ecu_health snapshot);
       mret (true, heatmap, ecu_health)
     else mret (Snapshot.attack_active snapshot, Snapshot.heatmap snapshot,
                Snapshot.ecu_health snapshot));
  (* Forced Attack mode *)
  '(attack_active, can_anomaly_score, heatmap, ecu_health) ←
    (if FORCE_ATTACK g then
       score ← Random.uniform (Py.float 0.85) (Py.float 1.0);
       '(heatmap, ecu_health) ← compromised_loop heatmap ecu_health;
       mret (true, Py.round2 score, heatmap, ecu_health)
     else mret (attack_active, Snapshot.can_anomaly_score snapshot, heatmap,
                ecu_health));
  let snapshot :=
    {| Snapshot.speed := Snapshot.speed snapshot;
       Snapshot.brake_status := Snapshot.brake_status snapshot;
       Snapshot.ecu_health := ecu_health;
       Snapshot.can_anomaly_score := can_anomaly_score;
       Snapshot.attack_active := attack_active;
       Snapshot.heatmap := heatmap;
       Snapshot.security_alerts := security_alerts;
       Snapshot.can_packets := Snapshot.can_packets snapshot;
       Snapshot.forced_attack := Snapshot.forced_attack snapshot;
       Snapshot.timestamp := Snapshot.timestamp snapshot |} in
  analytics ← update_analytics (Snapshot.security_alerts snapshot)
                               (Snapshot.attack_active snapshot) (ANALYTICS g);
  log_telemetry snapshot;;
  mret (snapshot,
        {| FORCE_ATTACK := FORCE_ATTACK g;
           ANALYTICS := analytics;
           LAST_SNAPSHOT := Some snapshot |}).

(** ** The force-attack endpoint *)

(** A JSON document as [request.json] returns it.  A dict is the list of its
    items, keys distinct. *)
#[local] Unset Elimination Schemes.
Inductive JSON :=
| JNull
| JBool (b : bool)
| JInt (z : Z)
| JFloat (q : Q)
| JStr (s : string)
| JList (l : list JSON)
| JDict (items : list (string * JSON)).
#[local] Set Elimination Schemes.

(** What a handler does: return a value with the new globals, or raise. *)
Inductive Outcome (A : Type) :=
| Returned (a : A) (g : Globals)
| Raised (exn : string).
Arguments Returned {A} a g.
Arguments Raised {A} exn.

(** [d.get(key)] on a dict: the value, or [None]. *)
Fixpoint dict_get (items : list (string * JSON)) (key : string) : JSON :=
  match items with
  | [] => JNull
  | (k, v) :: rest => if String.eqb k key then v else dict_get rest key
  end.

(** [v == "on"]: only the string "on" compares equal. *)
Definition eq_str (v : JSON) (s : string) : bool :=
  match v with
  | JStr s' => String.eqb s' s
  | _ => false
  end.

(** [force_attack], on the document [request.json] evaluates to. [.get] is
    a method of dicts only; on any other value the attribute lookup raises. *)
Definition force_attack (request_json : JSON) (g : Globals) : Outcome JSON :=
  match request_json with
  | JDict items =>
      let g := {| FORCE_ATTACK := eq_str (dict_get items "mode") "on";
                  ANALYTICS := ANALYTICS g;
                  LAST_SNAPSHOT := LAST_SNAPSHOT g |} in
      Returned (JDict [("forced_attack", JBool (FORCE_ATTACK g))]) g
  | JList _ => Raised "AttributeError: 'list' object has no attribute 'get'"
  | JStr _ => Raised "AttributeError: 'str' object has no attribute 'get'"
  | JInt _ => Raised "AttributeError: 'int' object has no attribute 'get'"
  | JFloat _ => Raised "AttributeError: 'float' object has no attribute 'get'"
  | JBool _ => Raised "AttributeError: 'bool' object has no attribute 'get'"
  | JNull => Raised "AttributeError: 'NoneType' object has no attribute 'get'"
  end.

(** ** Driving the aggregator over several ticks *)

(** [update_analytics] called once per tick, in order, on each tick's alerts
    and verdict. *)
Fixpoint record_ticks (ticks : list (list Alert.t * bool)) (A : Analytics.t)
    : M Analytics.t :=
  match ticks with
  | [] => mret A
  | (alerts, attack_active) :: rest =>
      A ← update_analytics alerts attack_active A;
      record_ticks rest A
  end.

(** ** Measures and sample states used to state the properties *)

(** How often [k] is the [key] of an alert of the list. *)
Definition occurrences (key : Alert.t → string) (alerts : list Alert.t)
    (k : string) : nat :=
  length (List.filter (fun a => String.eqb (key a) k) alerts).

(** The entry [update_analytics] appends for a tick, at clock reading [now]. *)
Definition tick_event (tick : list Alert.t * bool) (now : DateTime) : Event.t :=
  {| Event.timestamp := strftime_HMS now;
     Event.total_alerts := length tick.1;
     Event.critical_alerts :=
       length (List.filter
                 (fun a => bool_decide (Alert.level a ∈ ["HIGH"; "CRITICAL"]))
                 tick.1);
     Event.attack_active := tick.2 |}.

(** The entries appended for successive ticks, the first one at reading [i]. *)
Fixpoint tick_events (ticks : list (list Alert.t * bool))
    (clock : nat → DateTime) (i : nat) : list Event.t :=
  match ticks with
  | [] => []
  | tick :: rest => tick_event tick (clock i) :: tick_events rest clock (S i)
  end.

(** The alerts counted in the by-ECU ranking: those whose source is a unit. *)
Definition ecu_alerts (alerts : list Alert.t) : list Alert.t :=
  List.filter (fun a => bool_decide (Alert.source a ∈ ECU_NAMES)) alerts.

(** The names the rule-triggered loop degrades. *)
Definition degraded_names : list string :=
  ["Engine ECU"; "Brake ECU"; "Telematics"].

(** A sample outside world: raw draws from a linear congruence, a clock
    that ticks once a second, a disk that accepts every write. *)
Definition sample_sys : Sys :=
  {| draws := fun n => (N.of_nat n * 6364136223846793005
                        + 1442695040888963407)%N;
     drawn := 0;
     utc := fun n => {| year := 2024; month := 1; day := 2; hour := 3;
                        minute := 4; second := n mod 60 |};
     reads := 0;
     disk_append := fun _ => Written;
     writes := 0;
     LOG_FILE := [] |}.

(** A snapshot with the given speed and brake status and nothing else. *)
Definition sample_snapshot (speed : Z) (brake_status : string) : Snapshot.t :=
  {| Snapshot.speed := speed;
     Snapshot.brake_status := brake_status;
     Snapshot.ecu_health := ∅;
     Snapshot.can_anomaly_score := 0;
     Snapshot.attack_active := false;
     Snapshot.heatmap := [];
     Snapshot.security_alerts := [];
     Snapshot.can_packets := [];
     Snapshot.forced_attack := false;
     Snapshot.timestamp := "" |}.

(** A batch of 15 frames, the first [n] of them anomalous. *)
Definition sample_packets (n : nat) : list Packet.t :=
  map (fun i => {| Packet.timestamp := "03:04:05";
                   Packet.id := "0x100";
                   Packet.ecu := "Telematics";
                   Packet.dlc := 8;
                   Packet.data := "00 00 00 00 00 00 00 00";
                   Packet.anomaly := (i <? n)%nat |})
      (seq 0 15).

(** The globals and the outside world after one tick from the initial
    state. *)
Definition after_one_tick : Globals * Sys :=
  ((generate_telemetry Globals0 sample_sys).1.2,
   (generate_telemetry Globals0 sample_sys).2).

(** The initial globals with the switch turned on. *)
Definition Globals_forced : Globals :=
  {| FORCE_ATTACK := true; ANALYTICS := ANALYTICS0; LAST_SNAPSHOT := None |}.

(** The globals after one tick from the initial state, the switch turned on
    after it. *)
Definition forced_after_one_tick : Globals :=
  {| FORCE_ATTACK := true;
     ANALYTICS := ANALYTICS after_one_tick.1;
     LAST_SNAPSHOT := LAST_SNAPSHOT after_one_tick.1 |}.

(** [x] is the float with two decimal places [n / 100] for some [n] from
    [lo] to [hi]: one of the floats Python writes, in [repr] and in JSON, as
    the decimals lo/100, ..., hi/100.  (The exact value of such a float can
    lie a rounding error off the decimal: the float 0.85 is just below
    85/100.) *)
Definition two_places (lo hi : Z) (x : Q) : Prop :=
  ∃ n : Z, (lo ≤ n ≤ hi)%Z ∧ x = Py.float (n # 100).

(** The float expressions of app.py at the raw draw [r], in the model. *)
Definition expressions (r : N) : list Q :=
  [ Random.uniform_of (Py.float 0.8) (Py.float 1.0) r;
    Random.uniform_of (Py.float 0.3) (Py.float 0.7) r;
    Random.uniform_of (Py.float 0.85) (Py.float 1.0) r;
    Random.uniform_of (Py.float 0.2) (Py.float 0.5) r;
    Binary64.mul (Random.unit_of r) (Py.float 0.2) ].

(** Raw draws to compare the model and the machine at: the least and the
    greatest, those that make [random()] 1/8 and 1/2, the two around the
    float 0.35, and the first 200 of the sample world. *)
Definition probe_draws : list N :=
  [0; 9007199254740991; 1125899906842624; 4503599627370496;
   3152519739159346; 3152519739159347]%N
  ++ map (fun n => (N.of_nat n * 6364136223846793005
                    + 1442695040888963407)%N) (seq 0 200).

(** A world in which [random.random()] always returns the float 0.35. *)
Definition sample_sys_at_threshold : Sys :=
  {| draws := fun _ => 3152519739159347%N;
     drawn := 0;
     utc := fun n => {| year := 2024; month := 1; day := 2; hour := 3;
                        minute := 4; second := n mod 60 |};
     reads := 0;
     disk_append := fun _ => Written;
     writes := 0;
     LOG_FILE := [] |}.

(** ** Measures used to state how the code composes *)

(** What the generators read of the outside world: the random source and
    the clock. *)
Definition sources (s : Sys) : (nat → N) * nat * (nat → DateTime) * nat :=
  (draws s, drawn s, utc s, reads s).

(** The log file and the disk under it. *)
Definition disk (s : Sys) : (nat → Append) * nat * list LogLine :=
  (disk_append s, writes s, LOG_FILE s).

(** [m] never looks at the disk: from two worlds with the same sources it
    returns the same value and leaves the same sources. *)
Definition blind {A} (m : M A) : Prop :=
  ∀ s s', sources s = sources s' →
          (m s).1 = (m s').1 ∧ sources (m s).2 = sources (m s').2.

(** [m] never writes: it leaves the disk and the log as they were. *)
Definition quiet {A} (m : M A) : Prop :=
  ∀ s, disk (m s).2 = disk s.

(** [m] attempts exactly one append to the log, of [record a] for the value
    [a] it returns. *)
Definition logs_once {A} (m : M A) (record : A → Snapshot.t) : Prop :=
  ∀ s, disk (m s).2
       = (disk_append s, S (writes s),
          LOG_FILE s ++ appended (disk_append s (writes s)) (record (m s).1)).

(** [m] reads the clock exactly [r] times, and only moves forward in the
    random source. *)
Definition clocked {A} (r : nat) (m : M A) : Prop :=
  ∀ s, ∃ d, sources (m s).2
            = (draws s, (drawn s + d)%nat, utc s, (reads s + r)%nat).

(** The world after [d] more draws and [r] more clock readings. *)
Definition advance (d r : nat) (s : Sys) : Sys :=
  {| draws := draws s; drawn := d + drawn s; utc := utc s;
     reads := r + reads s; disk_append := disk_append s; writes := writes s;
     LOG_FILE := LOG_FILE s |}.

(** The frame one pass of the loop of [generate_can_packets] builds in the
    world [s]: the unit from the first draw, the identifier from the second,
    the eight bytes from the next eight, the time stamp from the clock, the
    anomaly flag from the eleventh draw. *)
Definition frame_drawn (attack_hint : bool) (s : Sys) : Packet.t :=
  {| Packet.timestamp := strftime_HMS (utc s (reads s));
     Packet.id :=
       Py.hex (256 + Z.of_N (draws s (1 + drawn s)) mod (2047 - 256 + 1));
     Packet.ecu :=
       nth (N.to_nat (draws s (drawn s) mod N.of_nat (length ECU_NAMES)))
           ECU_NAMES "";
     Packet.dlc := 8;
     Packet.data :=
       Py.join " "
         (map (fun i => Py.format_02X
                          (0 + Z.of_N (draws s (i + drawn s)) mod (255 - 0 + 1)))
              (seq 2 8));
     Packet.anomaly :=
       Py.Qltb (Random.unit_of (draws s (10 + drawn s)))
               (if attack_hint then Py.float 0.35 else Py.float 0.03) |}.

(** A frame as [generate_can_packets] builds them: length code 8, a known
    unit, an 11-bit identifier from 0x100 in [hex] form, eight bytes in
    two-digit upper-case hexadecimal separated by spaces. *)
Definition well_formed_frame (p : Packet.t) : Prop :=
  Packet.dlc p = 8%Z
  ∧ Packet.ecu p ∈ ECU_NAMES
  ∧ (∃ i, (256 ≤ i ≤ 2047)%Z ∧ Packet.id p = Py.hex i)
  ∧ (∃ bytes, length bytes = 8%nat
              ∧ Forall (fun b => (0 ≤ b ≤ 255)%Z) bytes
              ∧ Packet.data p = Py.join " " (map Py.format_02X bytes))
  ∧ String.length (Packet.data p) = 23%nat.

(** Two frames that differ at most in the anomaly flag, the second flagged
    whenever the first is. *)
Definition at_least_as_anomalous (p q : Packet.t) : Prop :=
  Packet.timestamp p = Packet.timestamp q
  ∧ Packet.id p = Packet.id q
  ∧ Packet.ecu p = Packet.ecu q
  ∧ Packet.dlc p = Packet.dlc q
  ∧ Packet.data p = Packet.data q
  ∧ (Packet.anomaly p = true → Packet.anomaly q = true).

(** The heatmap status a tick gives a unit: "compromised" in forced-attack
    mode, else "warning" for the three degraded units when a rule fired,
    else "ok". *)
Definition tick_status (forced rule_fired : bool) (name : string) : string :=
  if forced then "compromised"
  else if rule_fired && bool_decide (name ∈ degraded_names) then "warning"
  else "ok".

(** The interval the health of that unit is drawn from on such a tick. *)
Definition tick_health_range (forced rule_fired : bool) (name : string)
    : Q * Q :=
  if forced then (Py.float 0.2, Py.float 0.5)
  else if rule_fired && bool_decide (name ∈ degraded_names)
       then (Py.float 0.3, Py.float 0.7)
  else (Py.float 0.8, Py.float 1.0).

(** The same interval in hundredths. *)
Definition tick_health_places (forced rule_fired : bool) (name : string)
    : Z * Z :=
  if forced then (20, 50)%Z
  else if rule_fired && bool_decide (name ∈ degraded_names) then (30, 70)%Z
  else (80, 100)%Z.

(** Whether a list of alerts holds any. *)
Definition any_alert (alerts : list Alert.t) : bool :=
  match alerts with
  | [] => false
  | _ :: _ => true
  end.

(** [n] successive requests for telemetry, each a call of
    [generate_telemetry] on the globals the one before left. *)
Fixpoint run_ticks (n : nat) (g : Globals) : M (list Snapshot.t * Globals) :=
  match n with
  | O => mret ([], g)
  | S n' =>
      '(snapshot, g) ← generate_telemetry g;
      '(rest, g) ← run_ticks n' g;
      mret (snapshot :: rest, g)
  end.

(** A dotted quad of decimal octets, each between 1 and 254. *)
Definition is_ip (ip : string) : Prop :=
  ∃ a b c d : Z,
    (1 ≤ a ≤ 254)%Z ∧ (1 ≤ b ≤ 254)%Z ∧ (1 ≤ c ≤ 254)%Z ∧ (1 ≤ d ≤ 254)%Z
    ∧ ip = Py.str a +:+ "." +:+ Py.str b +:+ "." +:+ Py.str c +:+ "."
           +:+ Py.str d.

(** Every value [m] can return satisfies [P]. *)
Definition yields {A} (P : A → Prop) (m : M A) : Prop :=
  ∀ s, P (m s).1.

(** The sample world with a disk that refuses every write. *)
Definition sample_sys_disk_full : Sys :=
  {| draws := draws sample_sys;
     drawn := drawn sample_sys;
     utc := utc sample_sys;
     reads := reads sample_sys;
     disk_append := fun _ => Refused;
     writes := 7;
     LOG_FILE := [] |}.

(** The sample world with a disk on which the first write fails after 10
    characters and the later ones succeed. *)
Definition sample_sys_disk_cut : Sys :=
  {| draws := draws sample_sys;
     drawn := drawn sample_sys;
     utc := utc sample_sys;
     reads := reads sample_sys;
     disk_append := fun n => match n with O => Cut 10 | S _ => Written end;
     writes := 0;
     LOG_FILE := [] |}.

(** A snapshot with the speed and brake status of [sample_snapshot] and
    every other field different. *)
Definition sample_snapshot_busy (speed : Z) (brake_status : string)
    : Snapshot.t :=
  {| Snapshot.speed := speed;
     Snapshot.brake_status := brake_status;
     Snapshot.ecu_health := {[ "Engine ECU" := Py.float 0.31 ]};
     Snapshot.can_anomaly_score := Py.float 0.97;
     Snapshot.attack_active := true;
     Snapshot.heatmap :=
       [ {| Cell.name := "Engine ECU"; Cell.status := "warning" |} ];
     Snapshot.security_alerts := [];
     Snapshot.can_packets := sample_packets 3;
     Snapshot.forced_attack := true;
     Snapshot.timestamp := "2024-01-02 03:04:05" |}.

(** The frames of [sample_packets] attributed to another unit, with another
    payload. *)
Definition sample_packets_other (n : nat) : list Packet.t :=
  map (fun p => {| Packet.timestamp := "23:59:59";
                   Packet.id := "0x7ff";
                   Packet.ecu := "ADAS ECU";
                   Packet.dlc := 8;
                   Packet.data := "FF FF FF FF FF FF FF FF";
                   Packet.anomaly := Packet.anomaly p |})
      (sample_packets n).

(** * Properties *)

(** Runs the next monadic step of the goal and names its result. *)
Ltac run_step :=
  match goal with
  | |- context [let '(_, _) := ?m ?s in _] =>
      let E := fresh "E" in destruct (m s) as [? ?] eqn:E
  end.

Ltac unfold_M := cbv beta delta [mbind M_bind mret M_ret].

(** ** The rule engine, rule by rule *)

(** [evaluate_rules] yields, in the fixed order CAN, physics, brake, one alert
    for each rule whose condition holds, and the flag tells whether any did. *)
Lemma evaluate_rules_spec snapshot prev_snapshot can_packets s :
  let n := length (List.filter Packet.anomaly can_packets) in
  let speed := Snapshot.speed snapshot in
  let delta prev := Z.abs (speed - Snapshot.speed prev) in
  let can := (8 <=? n)%nat in
  let physics :=
    match prev_snapshot with
    | Some prev => (60 <? delta prev)%Z
    | None => false
    end in
  let brake :=
    String.eqb (Snapshot.brake_status snapshot) "ON" && (120 <? speed)%Z in
  ∃ ip1 ip2 ip3 s',
    evaluate_rules snapshot prev_snapshot can_packets s =
      ((can || physics || brake,
        (if can then
           [ {| Alert.level := "HIGH";
                Alert.source := "Telematics";
                Alert.message :=
                  Py.str (Z.of_nat n) +:+ " anomalous CAN frames detected";
                Alert.attack_type := "DoS/Fuzzing";
                Alert.attacker_ip := ip1 |} ]
         else [])
        ++ match prev_snapshot with
           | Some prev =>
               if (60 <? delta prev)%Z then
                 [ {| Alert.level := "HIGH";
                      Alert.source := "Engine ECU";
                      Alert.message :=
                        "Implausible speed jump Δv=" +:+ Py.str (delta prev)
                        +:+ " km/h";
                      Alert.attack_type := "Physical Implausibility";
                      Alert.attacker_ip := ip2 |} ]
               else []
           | None => []
           end
        ++ (if brake then
              [ {| Alert.level := "CRITICAL";
                   Alert.source := "Brake ECU";
                   Alert.message :=
                     "Brake engaged at " +:+ Py.str speed +:+ " km/h";
                   Alert.attack_type := "Safety Violation";
                   Alert.attacker_ip := ip3 |} ]
            else [])),
       s').
Proof.
  intros n speed delta can physics brake.
  unfold evaluate_rules. unfold_M.
  fold n speed. fold can brake.
  destruct (random_ip s) as [ip1 s1] eqn:E1.
  destruct can.
  - rewrite E1.
    destruct prev_snapshot as [prev|]; cbn [physics].
    + fold (delta prev).
      destruct (random_ip s1) as [ip2 s2] eqn:E2.
      destruct (60 <? delta prev)%Z.
      * rewrite E2.
        destruct (random_ip s2) as [ip3 s3] eqn:E3.
        destruct brake; [rewrite E3|]; by eexists ip1, ip2, ip3, _.
      * destruct brake; [rewrite E2|]; by eexists ip1, ip2, ip2, _.
    + destruct (random_ip s1) as [ip3 s3] eqn:E3.
      destruct brake; [rewrite E3|]; by eexists ip1, ip1, ip3, _.
  - destruct prev_snapshot as [prev|]; cbn [physics].
    + fold (delta prev).
      destruct (60 <? delta prev)%Z.
      * rewrite E1.
        destruct (random_ip s1) as [ip3 s3] eqn:E3.
        destruct brake; [rewrite E3|]; by eexists ip1, ip1, ip3, _.
      * destruct brake; [rewrite E1|]; by eexists ip1, ip1, ip1, _.
    + destruct brake; [rewrite E1|]; by eexists ip1, ip1, ip1, _.
Qed.

(** A filter keeps nothing of a list none of whose elements passes it. *)
Lemma filter_none {A} (f : A → bool) (l : list A) :
  (∀ a, In a l → f a = false) → List.filter f l = [].
Proof.
  induction l as [|a l IH]; intros Hl; [done|]. cbn [List.filter].
  rewrite (Hl a (or_introl eq_refl)). apply IH. intros b Hb. apply Hl. by right.
Qed.

(** Splits the alerts of [evaluate_rules] into the parts the three rules
    wrote, and empties the parts of the rules a filter does not select. *)
Ltac rule_parts snapshot prev_snapshot can_packets s :=
  let ip1 := fresh "ip1" in
  let ip2 := fresh "ip2" in
  let ip3 := fresh "ip3" in
  let s' := fresh "s'" in
  destruct (evaluate_rules_spec snapshot prev_snapshot can_packets s)
    as (ip1 & ip2 & ip3 & s' & ->);
  cbn [fst snd]; rewrite !List.filter_app.

Ltac no_such_alert :=
  apply filter_none; intros ? ?;
  repeat match goal with
    | H : In _ (match ?x with Some _ => _ | None => _ end) |- _ => destruct x
    | H : In _ (if ?b then _ else _) |- _ => destruct b
    | H : In _ [] |- _ => destruct H
    | H : In _ [_] |- _ => destruct H as [<-|[]]
    end; reflexivity.

(** C2. Whatever the batch of frames passed to [evaluate_rules] (in
    particular a batch of 15), with [n] the number of frames whose anomaly
    flag is set: when [n >= 8] the alerts attributed to Telematics or typed
    "DoS/Fuzzing" are exactly one alert, of level HIGH, source Telematics,
    attack type "DoS/Fuzzing", whose message starts with the decimal [n];
    when [n <= 7] there is no such alert. *)
Theorem can_anomaly_rule_fires_iff_8_frames
    (snapshot : Snapshot.t) (prev_snapshot : option Snapshot.t)
    (can_packets : list Packet.t) (s : Sys) :
  let n := length (List.filter Packet.anomaly can_packets) in
  let alerts := (evaluate_rules snapshot prev_snapshot can_packets s).1.2 in
  let raised :=
    List.filter
      (fun a => String.eqb (Alert.source a) "Telematics"
                || String.eqb (Alert.attack_type a) "DoS/Fuzzing") alerts in
  ((8 ≤ n)%nat →
     ∃ ip, raised =
       [ {| Alert.level := "HIGH";
            Alert.source := "Telematics";
            Alert.message :=
              Py.str (Z.of_nat n) +:+ " anomalous CAN frames detected";
            Alert.attack_type := "DoS/Fuzzing";
            Alert.attacker_ip := ip |} ])
  ∧ ((n ≤ 7)%nat → raised = []).
Proof.
  intros n alerts raised. subst alerts raised.
  rule_parts snapshot prev_snapshot can_packets s. fold n.
  match goal with
  | |- context [List.filter ?f (match prev_snapshot with _ => _ end)] =>
      replace (List.filter f (match prev_snapshot with
                              | Some prev => _ | None => _ end))
        with (@nil Alert.t) by (symmetry; no_such_alert)
  end.
  match goal with
  | |- context [List.filter ?f (if _ && _ then ?l else [])] =>
      replace (List.filter f (if _ && _ then l else []))
        with (@nil Alert.t) by (symmetry; no_such_alert)
  end.
  rewrite !app_nil_r.
  split; intros Hn.
  - apply Nat.leb_le in Hn. rewrite Hn. by exists ip1.
  - assert (Hf : (8 <=? n)%nat = false) by (apply Nat.leb_gt; lia).
    by rewrite Hf.
Qed.

(** C5. With a previous snapshot [prev] and [delta = |speed - prev.speed|]:
    when [delta > 60] the alerts attributed to Engine ECU or typed
    "Physical Implausibility" are exactly one alert, of level HIGH, source
    Engine ECU, that attack type, whose message reports [delta]; when
    [delta <= 60] there is none.  Without a previous snapshot there is none,
    whatever the speed. *)
Theorem physics_rule_fires_iff_delta_above_60
    (snapshot : Snapshot.t) (prev_snapshot : option Snapshot.t)
    (can_packets : list Packet.t) (s : Sys) :
  let alerts := (evaluate_rules snapshot prev_snapshot can_packets s).1.2 in
  let raised :=
    List.filter
      (fun a => String.eqb (Alert.source a) "Engine ECU"
                || String.eqb (Alert.attack_type a) "Physical Implausibility")
      alerts in
  (∀ prev, prev_snapshot = Some prev →
     let delta := Z.abs (Snapshot.speed snapshot - Snapshot.speed prev) in
     ((60 < delta)%Z →
        ∃ ip, raised =
          [ {| Alert.level := "HIGH";
               Alert.source := "Engine ECU";
               Alert.message :=
                 "Implausible speed jump Δv=" +:+ Py.str delta +:+ " km/h";
               Alert.attack_type := "Physical Implausibility";
               Alert.attacker_ip := ip |} ])
     ∧ ((delta ≤ 60)%Z → raised = []))
  ∧ (prev_snapshot = None → raised = []).
Proof.
  intros alerts raised. subst alerts raised.
  rule_parts snapshot prev_snapshot can_packets s.
  set (f := fun a : Alert.t => _ || _).
  replace (List.filter f (if (8 <=? _)%nat then _ else []))
    with (@nil Alert.t) by (symmetry; subst f; no_such_alert).
  replace (List.filter f (if _ && _ then _ else []))
    with (@nil Alert.t) by (symmetry; subst f; no_such_alert).
  rewrite app_nil_l, app_nil_r.
  split.
  - intros prev ->. split; intros Hd.
    + apply Z.ltb_lt in Hd. rewrite Hd. by exists ip2.
    + apply Z.ltb_ge in Hd. by rewrite Hd.
  - by intros ->.
Qed.

(** C6. When the brake status is "ON" and the speed is above 120, the alerts
    attributed to Brake ECU or typed "Safety Violation" are exactly one
    alert, of level CRITICAL, source Brake ECU, that attack type; otherwise
    there is none.  In particular, with the brake on, speed 120 raises none
    and speed 121 raises it. *)
Theorem brake_rule_fires_iff_on_and_above_120
    (snapshot : Snapshot.t) (prev_snapshot : option Snapshot.t)
    (can_packets : list Packet.t) (s : Sys) :
  let alerts := (evaluate_rules snapshot prev_snapshot can_packets s).1.2 in
  let raised :=
    List.filter
      (fun a => String.eqb (Alert.source a) "Brake ECU"
                || String.eqb (Alert.attack_type a) "Safety Violation")
      alerts in
  let fires :=
    Snapshot.brake_status snapshot = "ON" ∧ (120 < Snapshot.speed snapshot)%Z in
  let alert ip :=
    {| Alert.level := "CRITICAL";
       Alert.source := "Brake ECU";
       Alert.message :=
         "Brake engaged at " +:+ Py.str (Snapshot.speed snapshot) +:+ " km/h";
       Alert.attack_type := "Safety Violation";
       Alert.attacker_ip := ip |} in
  (fires → ∃ ip, raised = [alert ip])
  ∧ (¬ fires → raised = [])
  ∧ (Snapshot.brake_status snapshot = "ON" →
     Snapshot.speed snapshot = 120%Z → raised = [])
  ∧ (Snapshot.brake_status snapshot = "ON" →
     Snapshot.speed snapshot = 121%Z → ∃ ip, raised = [alert ip]).
Proof.
  intros alerts raised fires alert. subst alerts raised.
  rule_parts snapshot prev_snapshot can_packets s.
  set (f := fun a : Alert.t => _ || _).
  replace (List.filter f (if (8 <=? _)%nat then _ else []))
    with (@nil Alert.t) by (symmetry; subst f; no_such_alert).
  replace (List.filter f (match prev_snapshot with
                          | Some prev => _ | None => _ end))
    with (@nil Alert.t) by (symmetry; subst f; no_such_alert).
  cbn [app].
  assert (Hyes : fires → ∃ ip,
            List.filter f (if String.eqb (Snapshot.brake_status snapshot) "ON"
                              && (120 <? Snapshot.speed snapshot)%Z
                           then [alert ip3] else []) = [alert ip]).
  { intros [Hb Hs]. apply String.eqb_eq in Hb. apply Z.ltb_lt in Hs.
    rewrite Hb, Hs. by exists ip3. }
  assert (Hno : ¬ fires →
            List.filter f (if String.eqb (Snapshot.brake_status snapshot) "ON"
                              && (120 <? Snapshot.speed snapshot)%Z
                           then [alert ip3] else []) = []).
  { intros Hn. destruct (String.eqb_spec (Snapshot.brake_status snapshot) "ON")
      as [Hb|Hb]; [|done].
    destruct (Z.ltb_spec 120 (Snapshot.speed snapshot)) as [Hs|Hs]; [|done].
    destruct Hn. by split. }
  repeat split.
  - exact Hyes.
  - exact Hno.
  - intros Hb Hs. apply Hno. unfold fires. lia.
  - intros Hb Hs. apply Hyes. unfold fires. split; [done|lia].
Qed.

(** ** The analytics aggregator *)

Lemma Counter_get_incr k c x :
  Counter.get (Counter.incr k c) x =
  if String.eqb k x then S (Counter.get c x) else Counter.get c x.
Proof.
  unfold Counter.incr, Counter.get at 1.
  destruct (String.eqb_spec k x) as [->|Hne].
  - by rewrite lookup_insert_eq.
  - by rewrite lookup_insert_ne.
Qed.

Lemma Counter_get_empty k : Counter.get ∅ k = 0%nat.
Proof. unfold Counter.get. by rewrite lookup_empty. Qed.

(** A counter fed the keys of the alerts that pass [p] gains, at each key,
    the number of such alerts with that key. *)
Lemma fold_incr_get (p : Alert.t → bool) (key : Alert.t → string) alerts c x :
  Counter.get
    (fold_left (fun c a => if p a then Counter.incr (key a) c else c) alerts c)
    x
  = (Counter.get c x
     + length (List.filter (fun a => p a && String.eqb (key a) x) alerts))%nat.
Proof.
  revert c. induction alerts as [|a alerts IH]; intros c; cbn [fold_left].
  - cbn. lia.
  - rewrite IH. cbn [List.filter]. destruct (p a); cbn [andb].
    + rewrite Counter_get_incr. destruct (String.eqb (key a) x); cbn; lia.
    + lia.
Qed.

(** The loop of [update_analytics] works on the three counters separately. *)
Lemma fold_count_alert alerts by_ecu by_type by_attacker :
  fold_left count_alert alerts (by_ecu, by_type, by_attacker) =
  (fold_left (fun c a => if bool_decide (Alert.source a ∈ ECU_NAMES)
                         then Counter.incr (Alert.source a) c else c)
             alerts by_ecu,
   fold_left (fun c a => Counter.incr (Alert.attack_type a) c) alerts by_type,
   fold_left (fun c a => Counter.incr (Alert.attacker_ip a) c)
             alerts by_attacker).
Proof.
  revert by_ecu by_type by_attacker.
  induction alerts as [|a alerts IH]; intros; [done|].
  cbn [fold_left]. unfold count_alert at 2. rewrite <- IH.
  by destruct (decide _) as [H|H];
    [rewrite (bool_decide_eq_true_2 _ H)|rewrite (bool_decide_eq_false_2 _ H)].
Qed.

(** What one call of [update_analytics] leaves: the timeline with the tick's
    entry appended and, beyond 200 entries, its head dropped; each counter
    raised by the occurrences of its keys; the clock read once. *)
Lemma update_analytics_spec alerts attack_active A s :
  let A' := (update_analytics alerts attack_active A s).1 in
  let s' := (update_analytics alerts attack_active A s).2 in
  let timeline :=
    Analytics.events_timeline A
    ++ [tick_event (alerts, attack_active) (utc s (reads s))] in
  Analytics.events_timeline A' =
    (if (200 <? length timeline)%nat then drop 1 timeline else timeline)
  ∧ (∀ k, Counter.get (Analytics.attack_counts_by_ecu A') k =
          (Counter.get (Analytics.attack_counts_by_ecu A) k
           + length (List.filter
                       (fun a => bool_decide (Alert.source a ∈ ECU_NAMES)
                                 && String.eqb (Alert.source a) k) alerts))%nat)
  ∧ (∀ k, Counter.get (Analytics.attack_counts_by_type A') k =
          (Counter.get (Analytics.attack_counts_by_type A) k
           + occurrences Alert.attack_type alerts k)%nat)
  ∧ (∀ k, Counter.get (Analytics.attack_counts_by_attacker A') k =
          (Counter.get (Analytics.attack_counts_by_attacker A) k
           + occurrences Alert.attacker_ip alerts k)%nat)
  ∧ utc s' = utc s ∧ reads s' = S (reads s).
Proof.
  unfold update_analytics. unfold_M. unfold utcnow.
  rewrite fold_count_alert. cbn [fst snd utc reads].
  split; [done|].
  split; [intros k;
          exact (fold_incr_get
                   (fun a => bool_decide (Alert.source a ∈ ECU_NAMES))
                   Alert.source alerts _ k)|].
  split; [intros k; exact (fold_incr_get (fun _ => true) _ alerts _ k)|].
  split; [intros k; exact (fold_incr_get (fun _ => true) _ alerts _ k)|done].
Qed.

(** Counting is additive over the concatenation of alert lists. *)
Lemma occurrences_app key l1 l2 k :
  occurrences key (l1 ++ l2) k
  = (occurrences key l1 k + occurrences key l2 k)%nat.
Proof. unfold occurrences. by rewrite List.filter_app, length_app. Qed.

Lemma occurrences_ecu_alerts alerts k :
  occurrences Alert.source (ecu_alerts alerts) k
  = length (List.filter
              (fun a => bool_decide (Alert.source a ∈ ECU_NAMES)
                        && String.eqb (Alert.source a) k) alerts).
Proof.
  unfold occurrences, ecu_alerts.
  induction alerts as [|a alerts IH]; [done|]. cbn [List.filter].
  destruct (bool_decide _); cbn [andb List.filter];
    [destruct (String.eqb _ _); cbn [length]|]; by rewrite IH.
Qed.

(** The counters after a run of ticks: each key gains its occurrences in the
    alerts of all the ticks. *)
Lemma record_ticks_counters ticks A s k :
  let A' := (record_ticks ticks A s).1 in
  let alerts := flat_map fst ticks in
  Counter.get (Analytics.attack_counts_by_ecu A') k
  = (Counter.get (Analytics.attack_counts_by_ecu A) k
     + occurrences Alert.source (ecu_alerts alerts) k)%nat
  ∧ Counter.get (Analytics.attack_counts_by_type A') k
    = (Counter.get (Analytics.attack_counts_by_type A) k
       + occurrences Alert.attack_type alerts k)%nat
  ∧ Counter.get (Analytics.attack_counts_by_attacker A') k
    = (Counter.get (Analytics.attack_counts_by_attacker A) k
       + occurrences Alert.attacker_ip alerts k)%nat.
Proof.
  revert A s. induction ticks as [|[alerts aa] ticks IH]; intros A s.
  - cbn. unfold occurrences. cbn. lia.
  - cbn [record_ticks flat_map fst]. unfold_M.
    destruct (update_analytics_spec alerts aa A s)
      as (_ & Hecu & Htype & Hip & _).
    destruct (update_analytics alerts aa A s) as [A1 s1]. cbn [fst] in *.
    destruct (IH A1 s1) as (IH1 & IH2 & IH3). cbn zeta.
    rewrite IH1, IH2, IH3, Hecu, Htype, Hip.
    unfold ecu_alerts. rewrite List.filter_app. fold (ecu_alerts alerts).
    fold (ecu_alerts (flat_map fst ticks)).
    rewrite !occurrences_app, (occurrences_ecu_alerts alerts).
    repeat split; lia.
Qed.

(** Keeping the last 200 entries after each append is keeping the last 200
    of everything appended. *)
Lemma keep_last_200 {A} (X R : list A) :
  let j := (length X - 200)%nat in
  let Y := drop j X ++ R in
  drop (length Y - 200) Y = drop (length (X ++ R) - 200) (X ++ R).
Proof.
  intros j Y. subst Y.
  assert (Hj : (j ≤ length X)%nat) by (subst j; lia).
  rewrite <- (drop_app_le X R j Hj), drop_drop, length_drop. f_equal.
  rewrite length_app in *. subst j. lia.
Qed.

(** The timeline after a run of ticks that starts within capacity: the last
    200 of the old entries followed by the new ones, in insertion order. *)
Lemma record_ticks_timeline ticks A s :
  (length (Analytics.events_timeline A) ≤ 200)%nat →
  let all :=
    Analytics.events_timeline A ++ tick_events ticks (utc s) (reads s) in
  Analytics.events_timeline (record_ticks ticks A s).1
  = drop (length all - 200) all.
Proof.
  revert A s. induction ticks as [|[alerts aa] ticks IH]; intros A s HA.
  - cbn. rewrite app_nil_r.
    by replace (_ - 200)%nat with 0%nat by lia.
  - cbn [record_ticks tick_events]. unfold_M.
    destruct (update_analytics_spec alerts aa A s)
      as (Ht & _ & _ & _ & Hutc & Hreads).
    destruct (update_analytics alerts aa A s) as [A1 s1]. cbn [fst snd] in *.
    set (e := tick_event (alerts, aa) (utc s (reads s))) in *.
    assert (Ht' : Analytics.events_timeline A1
                  = drop (length (Analytics.events_timeline A ++ [e]) - 200)
                         (Analytics.events_timeline A ++ [e])).
    { rewrite Ht, length_app. cbn [length].
      destruct (Nat.ltb_spec 200 (length (Analytics.events_timeline A) + 1)).
      - by replace (_ - 200)%nat with 1%nat by lia.
      - by replace (_ - 200)%nat with 0%nat by lia. }
    specialize (IH A1 s1). rewrite Hutc, Hreads in IH. cbn zeta in *.
    rewrite IH.
    + rewrite Ht'.
      rewrite (keep_last_200 (Analytics.events_timeline A ++ [e])).
      by rewrite <- app_assoc.
    + rewrite Ht', length_drop, length_app. cbn [length]. lia.
Qed.

(** ** The telemetry generator, phase by phase *)

(** One tick, unrolled: the draws of the fresh snapshot, the verdict of the
    rules on it, the loop run when a rule fired, the loop and the score drawn
    in forced-attack mode, and the snapshot and globals that result. *)
Ltac tick_facts :=
  repeat match goal with
    | |- _ ∧ _ => split
    | |- (_, _) = (_, _) => reflexivity
    | |- _ = (_, _) => eassumption
    | |- let _ := _ in _ => cbn zeta
    end;
  cbn [orb Snapshot.brake_status].

Lemma generate_telemetry_spec g s :
  ∃ speed s1 r2 s2 health0 s3 r4 s4 pkts now s6 rule_attack rule_alerts s7
    heatmap1 health1 s8 score s8' heatmap2 health2 s9 s10,
    Random.randint 0 140 s = (speed, s1)
    ∧ Random.random s1 = (r2, s2)
    ∧ health_comprehension ECU_NAMES ∅ s2 = (health0, s3)
    ∧ Random.random s3 = (r4, s4)
    ∧ let heatmap0 :=
        map (fun e => {| Cell.name := e; Cell.status := "ok" |}) ECU_NAMES in
      let snapshot0 :=
        {| Snapshot.speed := speed;
           Snapshot.brake_status :=
             if Py.Qltb r2 (Py.float 0.25) then "ON" else "OFF";
           Snapshot.ecu_health := health0;
           Snapshot.can_anomaly_score :=
             Py.round2 (Binary64.mul r4 (Py.float 0.2));
           Snapshot.attack_active := false;
           Snapshot.heatmap := heatmap0;
           Snapshot.security_alerts := [];
           Snapshot.can_packets := pkts;
           Snapshot.forced_attack := FORCE_ATTACK g;
           Snapshot.timestamp := strftime_Ymd_HMS now |} in
      evaluate_rules snapshot0 (LAST_SNAPSHOT g) pkts s6
        = ((rule_attack, rule_alerts), s7)
      ∧ (if rule_attack
         then warning_loop heatmap0 health0 s7 = ((heatmap1, health1), s8)
         else (heatmap1, health1, s8) = (heatmap0, health0, s7))
      ∧ (if FORCE_ATTACK g
         then Random.uniform (Py.float 0.85) (Py.float 1.0) s8 = (score, s8')
              ∧ compromised_loop heatmap1 health1 s8'
                = ((heatmap2, health2), s9)
         else (heatmap2, health2, s9) = (heatmap1, health1, s8))
      ∧ let snapshot :=
          {| Snapshot.speed := speed;
             Snapshot.brake_status := Snapshot.brake_status snapshot0;
             Snapshot.ecu_health := health2;
             Snapshot.can_anomaly_score :=
               if FORCE_ATTACK g then Py.round2 score
               else Py.round2 (Binary64.mul r4 (Py.float 0.2));
             Snapshot.attack_active := rule_attack || FORCE_ATTACK g;
             Snapshot.heatmap := heatmap2;
             Snapshot.security_alerts := rule_alerts;
             Snapshot.can_packets := pkts;
             Snapshot.forced_attack := FORCE_ATTACK g;
             Snapshot.timestamp := strftime_Ymd_HMS now |} in
        generate_telemetry g s =
          ((snapshot,
            {| FORCE_ATTACK := FORCE_ATTACK g;
               ANALYTICS :=
                 (update_analytics rule_alerts (rule_attack || FORCE_ATTACK g)
                    (ANALYTICS g) s9).1;
               LAST_SNAPSHOT := Some snapshot |}),
           s10).
Proof.
  pose (heatmap0 :=
          map (fun e => {| Cell.name := e; Cell.status := "ok" |}) ECU_NAMES).
  unfold generate_telemetry. unfold_M.
  destruct (Random.randint 0 140 s) as [speed s1] eqn:E1.
  destruct (Random.random s1) as [r2 s2] eqn:E2.
  destruct (health_comprehension ECU_NAMES ∅ s2) as [health0 s3] eqn:E3.
  destruct (Random.random s3) as [r4 s4] eqn:E4.
  destruct (FORCE_ATTACK g) eqn:HF; cbn beta.
  - destruct (generate_can_packets true s4) as [pkts s5'] eqn:E6.
    destruct (utcnow s5') as [now s6] eqn:E7.
    destruct (evaluate_rules _ (LAST_SNAPSHOT g) pkts s6)
      as [[rule_attack rule_alerts] s7] eqn:E8.
    cbn [Snapshot.heatmap Snapshot.ecu_health Snapshot.attack_active
         Snapshot.security_alerts Snapshot.can_anomaly_score Snapshot.speed
         Snapshot.brake_status Snapshot.can_packets Snapshot.forced_attack
         Snapshot.timestamp app].
    destruct rule_attack.
    + destruct (warning_loop _ health0 s7) as [[heatmap1 health1] s8] eqn:E9.
      destruct (Random.uniform (Py.float 0.85) (Py.float 1.0) s8)
        as [score s8'] eqn:E10.
      destruct (compromised_loop heatmap1 health1 s8')
        as [[heatmap2 health2] s9] eqn:E11.
      destruct (update_analytics rule_alerts true (ANALYTICS g) s9)
        as [A' s10] eqn:E12.
      destruct (log_telemetry _ s10) as [[] s11].
      exists speed, s1, r2, s2, health0, s3, r4, s4, pkts, now, s6, true,
        rule_alerts, s7, heatmap1, health1, s8, score, s8', heatmap2, health2,
        s9, s11. tick_facts. by rewrite E12.
    + destruct (Random.uniform (Py.float 0.85) (Py.float 1.0) s7)
        as [score s8'] eqn:E10.
      destruct (compromised_loop _ health0 s8')
        as [[heatmap2 health2] s9] eqn:E11.
      destruct (update_analytics rule_alerts true (ANALYTICS g) s9)
        as [A' s10] eqn:E12.
      destruct (log_telemetry _ s10) as [[] s11].
      exists speed, s1, r2, s2, health0, s3, r4, s4, pkts, now, s6, false,
        rule_alerts, s7, heatmap0, health0, s7, score, s8', heatmap2, health2,
        s9, s11. tick_facts. by rewrite E12.
  - destruct (Random.random s4) as [r5 s5] eqn:E5.
    destruct (generate_can_packets _ s5) as [pkts s5'] eqn:E6.
    destruct (utcnow s5') as [now s6] eqn:E7.
    destruct (evaluate_rules _ (LAST_SNAPSHOT g) pkts s6)
      as [[rule_attack rule_alerts] s7] eqn:E8.
    cbn [Snapshot.heatmap Snapshot.ecu_health Snapshot.attack_active
         Snapshot.security_alerts Snapshot.can_anomaly_score Snapshot.speed
         Snapshot.brake_status Snapshot.can_packets Snapshot.forced_attack
         Snapshot.timestamp app].
    destruct rule_attack.
    + destruct (warning_loop _ health0 s7) as [[heatmap1 health1] s8] eqn:E9.
      destruct (update_analytics rule_alerts true (ANALYTICS g) s8)
        as [A' s10] eqn:E12.
      destruct (log_telemetry _ s10) as [[] s11].
      exists speed, s1, r2, s2, health0, s3, r4, s4, pkts, now, s6, true,
        rule_alerts, s7, heatmap1, health1, s8, 0%Q, s8, heatmap1, health1, s8,
        s11. tick_facts. by rewrite E12.
    + destruct (update_analytics rule_alerts false (ANALYTICS g) s7)
        as [A' s10] eqn:E12.
      destruct (log_telemetry _ s10) as [[] s11].
      exists speed, s1, r2, s2, health0, s3, r4, s4, pkts, now, s6, false,
        rule_alerts, s7, heatmap0, health0, s7, 0%Q, s7, heatmap0, health0, s7,
        s11. tick_facts. by rewrite E12.
Qed.

(** ** Floats: rounding to binary64 keeps the order *)

Section Floats.
Local Open Scope Q_scope.

Lemma nearest_even_mono x y :
  x <= y -> (Binary64.nearest_even x <= Binary64.nearest_even y)%Z.
Proof.
  intros Hxy. unfold Binary64.nearest_even.
  pose proof (Qfloor_resp_le _ _ Hxy) as Hf.
  pose proof (Qfloor_le x) as Hx1. pose proof (Qlt_floor x) as Hx2.
  pose proof (Qfloor_le y) as Hy1. pose proof (Qlt_floor y) as Hy2.
  destruct (Z.eq_dec (Qfloor x) (Qfloor y)) as [E|N].
  - rewrite E in *.
    destruct (Qcompare_spec (x - inject_Z (Qfloor y)) (1 # 2)),
             (Qcompare_spec (y - inject_Z (Qfloor y)) (1 # 2));
      try destruct (Z.even _); try lia; lra.
  - assert (Qfloor x + 1 <= Qfloor y)%Z by lia.
    destruct (Qcompare _ _), (Qcompare _ _);
      try destruct (Z.even (Qfloor x)); try destruct (Z.even (Qfloor y)); lia.
Qed.

Lemma nearest_even_Z z : Binary64.nearest_even (inject_Z z) = z.
Proof.
  unfold Binary64.nearest_even. rewrite Qfloor_Z.
  destruct (Qcompare_spec (inject_Z z - inject_Z z) (1 # 2)) as [H|H|H]; try lra.
  reflexivity.
Qed.

Lemma pow2_pos e : 0 < Binary64.pow2 e.
Proof. apply Qpower_0_lt. reflexivity. Qed.

Lemma pow2_add a b : Binary64.pow2 (a + b) == Binary64.pow2 a * Binary64.pow2 b.
Proof. apply Qpower_plus. discriminate. Qed.

Lemma pow2_le a b : (a <= b)%Z -> Binary64.pow2 a <= Binary64.pow2 b.
Proof. intros. apply Qpower_le_compat_l; [assumption|]. discriminate. Qed.

Lemma pow2_lt_inv a b : Binary64.pow2 a < Binary64.pow2 b -> (a < b)%Z.
Proof. intros. apply (Qpower_lt_compat_l_inv 2); [assumption|reflexivity]. Qed.

Lemma pow2_Z k : (0 <= k)%Z -> Binary64.pow2 k == inject_Z (2 ^ k).
Proof.
  intros. unfold Binary64.pow2. rewrite Zpower_Qpower by assumption.
  reflexivity.
Qed.

Lemma inject_pow2_pos k : (0 <= k)%Z -> 0 < inject_Z (2 ^ k).
Proof.
  intros Hk. change 0 with (inject_Z 0). rewrite <- Zlt_Qlt.
  apply Z.pow_pos_nonneg; lia.
Qed.

Lemma ilog2_spec q :
  0 < q ->
  Binary64.pow2 (Binary64.ilog2 q) <= q
  /\ q < Binary64.pow2 (Binary64.ilog2 q + 1).
Proof.
  intros Hq. destruct q as [n d]. unfold Binary64.ilog2. cbn [Qnum Qden].
  assert (Hn : (0 < n)%Z) by (unfold Qlt in Hq; cbn in Hq; lia).
  destruct (Z.log2_spec n Hn) as [Hn1 Hn2].
  destruct (Z.log2_spec (Z.pos d) (Pos2Z.is_pos d)) as [Hd1 Hd2].
  pose proof (Z.log2_nonneg n) as Ln. pose proof (Z.log2_nonneg (Z.pos d)) as Ld.
  set (ln := Z.log2 n) in *. set (ld := Z.log2 (Z.pos d)) in *.
  rewrite <- Z.add_1_r in Hn2, Hd2.
  assert (P1 : (0 < 2 ^ ld)%Z) by (apply Z.pow_pos_nonneg; lia).
  assert (P2 : (0 < 2 ^ ln)%Z) by (apply Z.pow_pos_nonneg; lia).
  assert (Hq' : n # d == inject_Z n / inject_Z (Z.pos d))
    by (rewrite Qmake_Qdiv; reflexivity).
  assert (Hdpos : 0 < inject_Z (Z.pos d)) by (unfold Qlt; cbn; lia).
  assert (Up : n # d < Binary64.pow2 (ln - ld + 1)).
  { replace (ln - ld + 1)%Z with ((ln + 1) + - ld)%Z by lia.
    rewrite pow2_add. unfold Binary64.pow2 at 2. rewrite Qpower_opp.
    fold (Binary64.pow2 ld). rewrite !pow2_Z by lia. rewrite Hq'.
    assert (0 < inject_Z (2 ^ ld)) by (apply inject_pow2_pos; lia).
    apply Qlt_shift_div_r; [assumption|].
    unfold Qdiv. rewrite <- Qmult_assoc, (Qmult_comm (/ _)), Qmult_assoc.
    apply Qlt_shift_div_l; [assumption|].
    rewrite <- !inject_Z_mult. rewrite <- Zlt_Qlt.
    generalize dependent (2 ^ ld)%Z. generalize dependent (2 ^ (ln + 1))%Z.
    intros; nia. }
  assert (Lo : Binary64.pow2 (ln - ld - 1) <= n # d).
  { replace (ln - ld - 1)%Z with (ln + - (ld + 1))%Z by lia.
    rewrite pow2_add. unfold Binary64.pow2 at 2. rewrite Qpower_opp.
    fold (Binary64.pow2 (ld + 1)). rewrite !pow2_Z by lia. rewrite Hq'.
    assert (0 < inject_Z (2 ^ (ld + 1))) by (apply inject_pow2_pos; lia).
    apply Qle_shift_div_l; [assumption|].
    unfold Qdiv. rewrite <- Qmult_assoc, (Qmult_comm (/ _)), Qmult_assoc.
    apply Qle_shift_div_r; [assumption|].
    rewrite <- !inject_Z_mult. rewrite <- Zle_Qle.
    generalize dependent (2 ^ ln)%Z. generalize dependent (2 ^ (ld + 1))%Z.
    intros; nia. }
  destruct (Qle_bool (Binary64.pow2 (ln - ld)) (n # d)) eqn:E.
  - apply Qle_bool_iff in E. split; assumption.
  - assert (~ Binary64.pow2 (ln - ld) <= n # d)
      by (rewrite <- Qle_bool_iff; congruence).
    split; [assumption|]. replace (ln - ld - 1 + 1)%Z with (ln - ld)%Z by lia.
    apply Qnot_le_lt. assumption.
Qed.

Lemma expo_upper q : 0 < q -> q < Binary64.pow2 (Binary64.expo q + 53).
Proof.
  intros Hq. destruct (ilog2_spec q Hq) as [_ H].
  eapply Qlt_le_trans; [exact H|]. apply pow2_le. unfold Binary64.expo. lia.
Qed.

Lemma expo_lower q :
  0 < q -> (-1074 < Binary64.expo q)%Z -> Binary64.pow2 (Binary64.expo q + 52) <= q.
Proof.
  intros Hq He. destruct (ilog2_spec q Hq) as [H _].
  eapply Qle_trans; [|exact H]. apply pow2_le. unfold Binary64.expo in *. lia.
Qed.

Lemma expo_mono x y :
  0 < x -> x <= y -> (Binary64.expo x <= Binary64.expo y)%Z.
Proof.
  intros Hx Hxy.
  destruct (Z_le_gt_dec (Binary64.expo x) (Binary64.expo y)) as [|Hgt];
    [assumption|].
  exfalso.
  assert (Hy : 0 < y) by lra.
  assert (He : (-1074 < Binary64.expo x)%Z) by (unfold Binary64.expo in *; lia).
  pose proof (expo_lower x Hx He) as H1. pose proof (expo_upper y Hy) as H2.
  assert (H3 : Binary64.pow2 (Binary64.expo x + 52)
               < Binary64.pow2 (Binary64.expo y + 53)) by lra.
  apply pow2_lt_inv in H3. lia.
Qed.

Lemma to_grid_mono e x y : x <= y -> Binary64.to_grid e x <= Binary64.to_grid e y.
Proof.
  intros Hxy. unfold Binary64.to_grid. pose proof (pow2_pos e) as Hp.
  apply Qmult_le_compat_r; [|lra]. rewrite <- Zle_Qle. apply nearest_even_mono.
  unfold Qdiv. apply Qmult_le_compat_r; [assumption|].
  apply Qlt_le_weak, Qinv_lt_0_compat, Hp.
Qed.

Lemma to_grid_fix e j :
  Binary64.to_grid e (inject_Z j * Binary64.pow2 e)
  == inject_Z j * Binary64.pow2 e.
Proof.
  unfold Binary64.to_grid. pose proof (pow2_pos e) as Hp.
  assert (E : inject_Z j * Binary64.pow2 e / Binary64.pow2 e == inject_Z j)
    by (field; lra).
  assert (E' : Binary64.nearest_even
                 (inject_Z j * Binary64.pow2 e / Binary64.pow2 e) = j).
  { rewrite <- (nearest_even_Z j) at 2.
    apply Z.le_antisymm; apply nearest_even_mono; lra. }
  rewrite E'. reflexivity.
Qed.

Lemma to_grid_pow2 e k :
  (0 <= k)%Z ->
  Binary64.to_grid e (Binary64.pow2 (e + k)) == Binary64.pow2 (e + k).
Proof.
  intros Hk.
  assert (E : Binary64.pow2 (e + k) == inject_Z (2 ^ k) * Binary64.pow2 e)
    by (rewrite pow2_add, (pow2_Z k) by assumption; ring).
  pose proof (to_grid_fix e (2 ^ k)) as F.
  set (p := inject_Z (2 ^ k) * Binary64.pow2 e) in *.
  apply Qle_antisym.
  - eapply Qle_trans; [apply (to_grid_mono e _ p); lra|]. lra.
  - eapply Qle_trans; [|apply (to_grid_mono e p); lra]. lra.
Qed.

Lemma round_pos q : 0 < q -> Binary64.round q == Binary64.to_grid (Binary64.expo q) q.
Proof.
  intros Hq. unfold Binary64.round.
  destruct (Qcompare_spec q 0) as [H|H|H]; try lra. apply Qred_correct.
Qed.

Lemma round_0 q : q == 0 -> Binary64.round q = 0.
Proof.
  intros Hq. unfold Binary64.round.
  destruct (Qcompare_spec q 0) as [H|H|H]; try lra. reflexivity.
Qed.

Lemma to_grid_0 e : Binary64.to_grid e 0 == 0.
Proof.
  unfold Binary64.to_grid. pose proof (pow2_pos e) as Hp.
  assert (E : Binary64.nearest_even (0 / Binary64.pow2 e) = 0%Z).
  { rewrite <- (nearest_even_Z 0) at 2.
    assert (0 / Binary64.pow2 e == inject_Z 0) by (field; lra).
    apply Z.le_antisymm; apply nearest_even_mono; lra. }
  rewrite E. ring.
Qed.

Lemma round_nonneg q : 0 <= q -> 0 <= Binary64.round q.
Proof.
  intros Hq. destruct (Qlt_le_dec 0 q) as [Hpos|].
  - rewrite (round_pos q Hpos).
    pose proof (to_grid_0 (Binary64.expo q)) as Z0.
    rewrite <- Z0. apply to_grid_mono. assumption.
  - rewrite round_0 by lra. lra.
Qed.

Lemma round_mono x y : 0 <= x -> x <= y -> Binary64.round x <= Binary64.round y.
Proof.
  intros Hx Hxy. destruct (Qlt_le_dec 0 x) as [Hpos|Hz].
  - assert (Hy : 0 < y) by lra.
    rewrite (round_pos x Hpos), (round_pos y Hy).
    pose proof (expo_mono x y Hpos Hxy) as He.
    destruct (Z.eq_dec (Binary64.expo x) (Binary64.expo y)) as [E|N].
    + rewrite E. apply to_grid_mono. assumption.
    + assert (Hlt : (Binary64.expo x + 1 <= Binary64.expo y)%Z) by lia.
      assert (Hmin : (-1074 < Binary64.expo y)%Z) by (unfold Binary64.expo in *; lia).
      pose proof (expo_upper x Hpos) as Ux. pose proof (expo_lower y Hy Hmin) as Ly.
      pose proof (to_grid_pow2 (Binary64.expo x) 53 ltac:(lia)) as Fx.
      pose proof (to_grid_pow2 (Binary64.expo y) 52 ltac:(lia)) as Fy.
      pose proof (to_grid_mono (Binary64.expo x) _ _ (Qlt_le_weak _ _ Ux)) as Mx.
      pose proof (to_grid_mono (Binary64.expo y) _ _ Ly) as My.
      pose proof (pow2_le (Binary64.expo x + 53) (Binary64.expo y + 52)
                    ltac:(lia)) as P.
      lra.
  - rewrite (round_0 x) by lra. apply round_nonneg. lra.
Qed.

Lemma add_mono a x y :
  0 <= a -> 0 <= x -> x <= y -> Binary64.add a x <= Binary64.add a y.
Proof. intros Ha Hx Hxy. apply round_mono; lra. Qed.

Lemma mul_mono_r c x y :
  0 <= c -> 0 <= x -> x <= y -> Binary64.mul c x <= Binary64.mul c y.
Proof. intros Hc Hx Hxy. apply round_mono; nra. Qed.

Lemma mul_mono_l c x y :
  0 <= c -> 0 <= x -> x <= y -> Binary64.mul x c <= Binary64.mul y c.
Proof. intros Hc Hx Hxy. apply round_mono; nra. Qed.

(** [random.random()] lies between its least and its greatest value. *)
Lemma unit_of_bounds r : 0 <= Random.unit_of r /\ Random.unit_of r < 1.
Proof.
  unfold Random.unit_of, Qle, Qlt. cbn [Qnum Qden].
  assert (H : (r mod 9007199254740992 < 9007199254740992)%N)
    by (apply N.mod_lt; discriminate).
  revert H. generalize (r mod 9007199254740992)%N. intros m Hm. lia.
Qed.

Lemma unit_of_range r :
  0 <= Random.unit_of r
  /\ Random.unit_of r <= Random.unit_of 9007199254740991.
Proof.
  unfold Random.unit_of, Qle. cbn [Qnum Qden].
  assert (H : (r mod 9007199254740992 < 9007199254740992)%N)
    by (apply N.mod_lt; discriminate).
  revert H. generalize (r mod 9007199254740992)%N. intros m Hm.
  change (9007199254740991 mod 9007199254740992)%N with 9007199254740991%N.
  lia.
Qed.

(** [random.uniform(a, b)] lies between the values it takes at the least and
    at the greatest draw. *)
Lemma uniform_of_range a b r :
  0 <= a -> 0 <= Binary64.sub b a ->
  0 <= Random.uniform_of a b 0
  /\ Random.uniform_of a b 0 <= Random.uniform_of a b r
  /\ Random.uniform_of a b r <= Random.uniform_of a b 9007199254740991.
Proof.
  intros Ha Hc. unfold Random.uniform_of.
  destruct (unit_of_range r) as [H0 H1].
  assert (Z0 : Random.unit_of 0 == 0) by reflexivity.
  assert (Hm : 0 <= Binary64.mul (Binary64.sub b a) (Random.unit_of 0)).
  { apply round_nonneg. rewrite Z0. lra. }
  split; [|split].
  - apply round_nonneg. lra.
  - apply add_mono; [assumption..|]. apply mul_mono_r; [assumption|lra|lra].
  - apply add_mono; [assumption| |].
    + apply round_nonneg. nra.
    + apply mul_mono_r; assumption.
Qed.

(** [round(x, 2)] keeps the order. *)
Lemma round2_mono x y : 0 <= x -> x <= y -> Py.round2 x <= Py.round2 y.
Proof.
  intros Hx Hxy. unfold Py.round2, Py.float.
  assert (H0 : (0 <= Binary64.nearest_even (x * 100))%Z).
  { rewrite <- (nearest_even_Z 0). apply nearest_even_mono.
    change (inject_Z 0) with 0. lra. }
  assert (H1 : (Binary64.nearest_even (x * 100)
                <= Binary64.nearest_even (y * 100))%Z)
    by (apply nearest_even_mono; lra).
  apply round_mono; unfold Qle; cbn [Qnum Qden]; lia.
Qed.

(** [round(x, 2)] of a value between two others is a float with two places
    between theirs. *)
Lemma round2_places x y z :
  0 <= x -> x <= y -> y <= z ->
  two_places (Binary64.nearest_even (x * 100))
             (Binary64.nearest_even (z * 100)) (Py.round2 y).
Proof.
  intros Hx Hxy Hyz. exists (Binary64.nearest_even (y * 100)).
  split; [|reflexivity]. split; apply nearest_even_mono; lra.
Qed.

Lemma two_places_weaken lo hi lo' hi' x :
  (lo' <= lo)%Z -> (hi <= hi')%Z -> two_places lo hi x -> two_places lo' hi' x.
Proof. intros Hlo Hhi (n & Hn & ->). exists n. split; [lia|reflexivity]. Qed.

(** A rounded uniform draw lies between any two floats that bracket its
    values at the least and at the greatest draw, and has two places. *)
Lemma round2_uniform_bounds (a b lo hi : Q) (n m : Z) r :
  Qle_bool 0 a && Qle_bool 0 (Binary64.sub b a)
  && Qle_bool lo (Py.round2 (Random.uniform_of a b 0))
  && Qle_bool (Py.round2 (Random.uniform_of a b 9007199254740991)) hi
  && (n <=? Binary64.nearest_even (Random.uniform_of a b 0 * 100))%Z
  && (Binary64.nearest_even (Random.uniform_of a b 9007199254740991 * 100)
      <=? m)%Z
  = true ->
  lo <= Py.round2 (Random.uniform_of a b r)
  /\ Py.round2 (Random.uniform_of a b r) <= hi
  /\ two_places n m (Py.round2 (Random.uniform_of a b r)).
Proof.
  rewrite !andb_true_iff, !Qle_bool_iff, !Z.leb_le.
  intros [[[[[Ha Hc] Hlo] Hhi] Hn] Hm].
  destruct (uniform_of_range a b r Ha Hc) as (H0 & H1 & H2).
  pose proof (round2_mono _ _ H0 H1) as M1.
  assert (H3 : 0 <= Random.uniform_of a b r) by lra.
  pose proof (round2_mono _ _ H3 H2) as M2.
  split; [lra|]. split; [lra|].
  apply (two_places_weaken _ _ _ _ _ Hn Hm).
  apply round2_places; assumption.
Qed.

(** The same for a rounded draw scaled by a float. *)
Lemma round2_scaled_bounds (c lo hi : Q) (n m : Z) r :
  Qle_bool 0 c
  && Qle_bool lo (Py.round2 (Binary64.mul (Random.unit_of 0) c))
  && Qle_bool (Py.round2 (Binary64.mul (Random.unit_of 9007199254740991) c)) hi
  && (n <=? Binary64.nearest_even
              (Binary64.mul (Random.unit_of 0) c * 100))%Z
  && (Binary64.nearest_even
        (Binary64.mul (Random.unit_of 9007199254740991) c * 100) <=? m)%Z
  = true ->
  lo <= Py.round2 (Binary64.mul (Random.unit_of r) c)
  /\ Py.round2 (Binary64.mul (Random.unit_of r) c) <= hi
  /\ two_places n m (Py.round2 (Binary64.mul (Random.unit_of r) c)).
Proof.
  rewrite !andb_true_iff, !Qle_bool_iff, !Z.leb_le.
  intros [[[[Hc Hlo] Hhi] Hn] Hm].
  destruct (unit_of_range r) as [H0 H1].
  assert (Z0 : Random.unit_of 0 == 0) by reflexivity.
  assert (Hm0 : 0 <= Binary64.mul (Random.unit_of 0) c).
  { apply round_nonneg. rewrite Z0. lra. }
  assert (Hm1 : Binary64.mul (Random.unit_of 0) c
                <= Binary64.mul (Random.unit_of r) c)
    by (apply mul_mono_l; [assumption|lra|lra]).
  assert (Hm2 : Binary64.mul (Random.unit_of r) c
                <= Binary64.mul (Random.unit_of 9007199254740991) c)
    by (apply mul_mono_l; assumption).
  pose proof (round2_mono _ _ Hm0 Hm1) as M1.
  assert (H2 : 0 <= Binary64.mul (Random.unit_of r) c) by lra.
  pose proof (round2_mono _ _ H2 Hm2) as M2.
  split; [lra|]. split; [lra|].
  apply (two_places_weaken _ _ _ _ _ Hn Hm).
  apply round2_places; assumption.
Qed.

End Floats.

(** From here on the rounding function is used through the lemmas above and
    evaluated on closed terms only. *)
Opaque Binary64.round.

(** A rounded [random.uniform(a, b)] lies between the floats [a] and [b];
    the side conditions are closed and are evaluated. *)
Tactic Notation "uniform_bounds" constr(n) constr(m) :=
  match goal with
  | |- context [Py.round2 (Random.uniform_of ?a ?b ?r)] =>
      let H1 := fresh in
      let H2 := fresh in
      let H3 := fresh in
      destruct (round2_uniform_bounds a b a b n m r) as (H1 & H2 & H3);
      [vm_compute; reflexivity
      |first [exact H1 | exact H2 | exact H3 | exact (conj H1 H2)
             |exact (conj H1 (conj H2 H3))]]
  end.

(** ** The loops of the generator *)

Lemma uniform_run a b s :
  ∃ s', Random.uniform a b s = (Random.uniform_of a b (draws s (drawn s)), s').
Proof. by eexists. Qed.

(** The dictionary comprehension gives every listed name a health in
    [0.8, 1.0] and leaves the other keys as they were. *)
Lemma health_comprehension_spec names d s k :
  let h := (health_comprehension names d s).1 in
  (k ∈ names → ∃ v, h !! k = Some v
                    ∧ (Py.float 0.8 <= v)%Q ∧ (v <= Py.float 1.0)%Q
                    ∧ two_places 80 100 v)
  ∧ (k ∉ names → h !! k = d !! k).
Proof.
  revert d s. induction names as [|e rest IH]; intros d s; cbn zeta.
  - split; [by intros ?%elem_of_nil|done].
  - cbn [health_comprehension]. unfold_M.
    destruct (uniform_run (Py.float 0.8) (Py.float 1.0) s) as [s1 ->].
    destruct (IH (<[e:=Py.round2 (Random.uniform_of (Py.float 0.8) (Py.float 1.0)
                                    (draws s (drawn s)))]> d)
                 s1) as [IHin IHout].
    split.
    + intros Hk. destruct (decide (k ∈ rest)) as [Hr|Hr]; [by apply IHin|].
      apply elem_of_cons in Hk as [->|Hk]; [|done].
      rewrite (IHout Hr), lookup_insert_eq. eexists. split; [done|].
      uniform_bounds 80%Z 100%Z.
    + intros Hk. apply not_elem_of_cons in Hk as [Hne Hr].
      by rewrite (IHout Hr), lookup_insert_ne.
Qed.

(** The loop run when a rule fired: a cell with one of the three names goes
    to "warning", every other cell is kept, and the health of any key that is
    not one of the three names, or names no cell, is kept. *)
Lemma warning_loop_spec cells health s :
  let cells' := (warning_loop cells health s).1.1 in
  let health' := (warning_loop cells health s).1.2 in
  cells' =
    map (fun c => if decide (Cell.name c ∈ degraded_names)
                  then {| Cell.name := Cell.name c; Cell.status := "warning" |}
                  else c) cells
  ∧ ∀ k, k ∉ degraded_names ∨ k ∉ map Cell.name cells →
         health' !! k = health !! k.
Proof.
  revert health s. induction cells as [|c rest IH]; intros health s; cbn zeta.
  - by split.
  - cbn [warning_loop]. unfold_M. fold degraded_names.
    destruct (decide (Cell.name c ∈ degraded_names)) as [Hc|Hc].
    + destruct (uniform_run (Py.float 0.3) (Py.float 0.7) s) as [s1 ->].
      specialize (IH (<[Cell.name c:=
                        Py.round2 (Random.uniform_of (Py.float 0.3) (Py.float 0.7)
                                     (draws s (drawn s)))]> health) s1).
      destruct (warning_loop rest _ s1) as [[rest' health'] s2].
      cbn [fst snd map] in *. destruct IH as [-> IH].
      split; [by rewrite decide_True|].
      intros k Hk. rewrite IH.
      * apply lookup_insert_ne. intros <-.
        destruct Hk as [Hk|Hk]; [done|]. apply Hk, elem_of_cons. by left.
      * destruct Hk as [Hk|Hk]; [by left|right].
        intros Hin. apply Hk, elem_of_cons. by right.
    + specialize (IH health s).
      destruct (warning_loop rest health s) as [[rest' health'] s2].
      cbn [fst snd map] in *. destruct IH as [-> IH].
      split; [by rewrite decide_False|].
      intros k Hk. apply IH.
      destruct Hk as [Hk|Hk]; [by left|right].
      intros Hin. apply Hk, elem_of_cons. by right.
Qed.

(** The loop of forced-attack mode: every cell goes to "compromised", every
    key that names a cell gets a health in [0.2, 0.5], the others keep
    theirs. *)
Lemma compromised_loop_spec cells health s :
  let cells' := (compromised_loop cells health s).1.1 in
  let health' := (compromised_loop cells health s).1.2 in
  cells' =
    map (fun c => {| Cell.name := Cell.name c; Cell.status := "compromised" |})
        cells
  ∧ ∀ k, (k ∈ map Cell.name cells →
            ∃ v, health' !! k = Some v
                 ∧ (Py.float 0.2 <= v)%Q ∧ (v <= Py.float 0.5)%Q
                 ∧ two_places 20 50 v)
         ∧ (k ∉ map Cell.name cells → health' !! k = health !! k).
Proof.
  revert health s. induction cells as [|c rest IH]; intros health s; cbn zeta.
  - split; [done|]. intros k. split; [by intros ?%elem_of_nil|done].
  - cbn [compromised_loop]. unfold_M. cbn [Cell.name].
    destruct (uniform_run (Py.float 0.2) (Py.float 0.5) s) as [s1 ->].
    specialize (IH (<[Cell.name c:=
                      Py.round2 (Random.uniform_of (Py.float 0.2) (Py.float 0.5)
                                   (draws s (drawn s)))]> health) s1).
    destruct (compromised_loop rest _ s1) as [[rest' health'] s2].
    cbn [fst snd map] in *. destruct IH as [-> IH]. split; [done|].
    intros k. destruct (IH k) as [IHin IHout]. split.
    + intros Hk.
      destruct (decide (k ∈ map Cell.name rest)) as [Hr|Hr]; [by apply IHin|].
      apply elem_of_cons in Hk as [->|Hk]; [|done].
      rewrite (IHout Hr), lookup_insert_eq. eexists. split; [done|].
      uniform_bounds 20%Z 50%Z.
    + intros Hk. apply not_elem_of_cons in Hk as [Hne Hr].
      by rewrite (IHout Hr), lookup_insert_ne.
Qed.

(** ** The verdict of a tick *)

(** C1. The snapshot a tick returns has [attack_active] true exactly when one
    of the three rules fired on it (at least 8 anomalous frames; a previous
    snapshot whose speed differs by more than 60; brake "ON" above 120) or
    [FORCE_ATTACK] was on when the tick was generated; equivalently, exactly
    when the rules raised an alert or the snapshot's own [forced_attack] flag,
    which copies the switch, is set. *)
Theorem attack_active_iff_rule_fired_or_forced (g : Globals) (s : Sys) :
  let snapshot := (generate_telemetry g s).1.1 in
  let can_fired :=
    (8 ≤ length (List.filter Packet.anomaly (Snapshot.can_packets snapshot)))%nat in
  let physics_fired :=
    ∃ prev, LAST_SNAPSHOT g = Some prev
            ∧ (60 < Z.abs (Snapshot.speed snapshot - Snapshot.speed prev))%Z in
  let brake_fired :=
    Snapshot.brake_status snapshot = "ON"
    ∧ (120 < Snapshot.speed snapshot)%Z in
  (Snapshot.attack_active snapshot = true
   ↔ can_fired ∨ physics_fired ∨ brake_fired ∨ FORCE_ATTACK g = true)
  ∧ (Snapshot.attack_active snapshot = true
     ↔ Snapshot.security_alerts snapshot ≠ []
       ∨ Snapshot.forced_attack snapshot = true)
  ∧ Snapshot.forced_attack snapshot = FORCE_ATTACK g.
Proof.
  destruct (generate_telemetry_spec g s)
    as (speed & s1 & r2 & s2 & health0 & s3 & r4 & s4 & pkts & now & s6
        & rule_attack & rule_alerts & s7 & heatmap1 & health1 & s8 & score
        & s8' & heatmap2 & health2 & s9 & s10 & _ & _ & _ & _ & H).
  cbn zeta in H. destruct H as (Hrules & _ & _ & ->).
  cbn [fst snd Snapshot.attack_active Snapshot.can_packets Snapshot.speed
       Snapshot.brake_status Snapshot.security_alerts Snapshot.forced_attack].
  match type of Hrules with
  | evaluate_rules ?snapshot0 _ _ _ = _ =>
      destruct (evaluate_rules_spec snapshot0 (LAST_SNAPSHOT g) pkts s6)
        as (ip1 & ip2 & ip3 & s' & Hspec)
  end.
  rewrite Hrules in Hspec. cbn zeta in Hspec.
  cbn [Snapshot.speed Snapshot.brake_status] in Hspec.
  pose proof (f_equal (fun x => x.1.1) Hspec) as Hattack.
  pose proof (f_equal (fun x => x.1.2) Hspec) as Halerts.
  cbv beta in Hattack, Halerts. cbn [fst snd] in Hattack, Halerts.
  subst rule_attack rule_alerts. clear Hspec Hrules.
  set (n := length (List.filter Packet.anomaly pkts)).
  set (brake := if Py.Qltb r2 (Py.float 0.25) then "ON" else "OFF").
  assert (Hcan : (8 <=? n)%nat = true ↔ (8 ≤ n)%nat) by apply Nat.leb_le.
  assert (Hphys :
            match LAST_SNAPSHOT g with
            | Some prev => (60 <? Z.abs (speed - Snapshot.speed prev))%Z
            | None => false
            end = true
            ↔ ∃ prev, LAST_SNAPSHOT g = Some prev
                      ∧ (60 < Z.abs (speed - Snapshot.speed prev))%Z).
  { destruct (LAST_SNAPSHOT g) as [prev|].
    - rewrite Z.ltb_lt. split; [by exists prev|]. by intros (p & [= ->] & Hp).
    - split; [done|]. by intros (p & Hp & _). }
  assert (Hbrake : String.eqb brake "ON" && (120 <? speed)%Z = true
                   ↔ brake = "ON" ∧ (120 < speed)%Z)
    by (by rewrite andb_true_iff, String.eqb_eq, Z.ltb_lt).
  split; [|split; [|done]].
  - rewrite !orb_true_iff, Hcan, Hphys, Hbrake. tauto.
  - rewrite !orb_true_iff.
    destruct (LAST_SNAPSHOT g) as [prev|];
      [destruct (60 <? _)%Z|];
      destruct (8 <=? n)%nat, (String.eqb brake "ON" && (120 <? speed)%Z);
      cbn [app]; clear; intuition congruence.
Qed.

(** The rule-triggered loop renames no cell. *)
Lemma warning_names cells :
  map Cell.name
    (map (fun c => if decide (Cell.name c ∈ degraded_names)
                   then {| Cell.name := Cell.name c; Cell.status := "warning" |}
                   else c) cells)
  = map Cell.name cells.
Proof.
  induction cells as [|c rest IH]; [done|]. cbn [map]. rewrite IH.
  by destruct (decide _).
Qed.

Lemma heatmap0_names :
  map Cell.name
    (map (fun e => {| Cell.name := e; Cell.status := "ok" |}) ECU_NAMES)
  = ECU_NAMES.
Proof. reflexivity. Qed.

(** ** Forced-attack mode *)

(** C4. A tick generated while [FORCE_ATTACK] is on returns a snapshot with
    [attack_active] true, one heatmap entry per unit, each "compromised", a
    CAN anomaly score in [0.85, 1.0] and, for every unit (the only keys of
    [ecu_health]), a health in [0.2, 0.5]: whether or not a rule fired, so also
    where the rule-triggered loop had set "warning" and a health in
    [0.3, 0.7] just before.  The ranges are those of the floats the code
    computes: the score [s] satisfies [0.85 <= s <= 1.0] as Python compares
    floats, and is one of the floats written 0.85, 0.86, ..., 1.0; likewise
    every health with 0.2 and 0.5. *)
Theorem forced_attack_overrides (g : Globals) (s : Sys) :
  FORCE_ATTACK g = true →
  let snapshot := (generate_telemetry g s).1.1 in
  Snapshot.attack_active snapshot = true
  ∧ map Cell.name (Snapshot.heatmap snapshot) = ECU_NAMES
  ∧ Forall (fun c => Cell.status c = "compromised") (Snapshot.heatmap snapshot)
  ∧ (Py.float 0.85 <= Snapshot.can_anomaly_score snapshot)%Q
  ∧ (Snapshot.can_anomaly_score snapshot <= Py.float 1.0)%Q
  ∧ two_places 85 100 (Snapshot.can_anomaly_score snapshot)
  ∧ (∀ name, name ∈ ECU_NAMES →
       ∃ h, Snapshot.ecu_health snapshot !! name = Some h
            ∧ (Py.float 0.2 <= h)%Q ∧ (h <= Py.float 0.5)%Q
            ∧ two_places 20 50 h)
  ∧ (∀ name, name ∉ ECU_NAMES → Snapshot.ecu_health snapshot !! name = None).
Proof.
  intros HF.
  destruct (generate_telemetry_spec g s)
    as (speed & s1 & r2 & s2 & health0 & s3 & r4 & s4 & pkts & now & s6
        & rule_attack & rule_alerts & s7 & heatmap1 & health1 & s8 & score
        & s8' & heatmap2 & health2 & s9 & s10 & _ & _ & Hhealth0 & _ & H).
  cbn zeta in H. destruct H as (_ & Hwarn & Hforce & ->).
  rewrite HF in *. destruct Hforce as [Hscore Hloop].
  cbn [fst snd Snapshot.attack_active Snapshot.heatmap Snapshot.ecu_health
       Snapshot.can_anomaly_score].
  (* the cells and the health before the forced-attack loop *)
  assert (Hnames1 : map Cell.name heatmap1 = ECU_NAMES).
  { destruct rule_attack.
    - pose proof (warning_loop_spec
                    (map (fun e => {| Cell.name := e; Cell.status := "ok" |})
                         ECU_NAMES) health0 s7) as Hw.
      rewrite Hwarn in Hw. cbn [fst snd] in Hw. destruct Hw as [-> _].
      by rewrite warning_names.
    - by injection Hwarn as -> _ _. }
  assert (Hout1 : ∀ k, k ∉ ECU_NAMES → health1 !! k = None).
  { intros k Hk.
    pose proof (health_comprehension_spec ECU_NAMES ∅ s2 k) as Hc.
    rewrite Hhealth0 in Hc. cbn [fst] in Hc. destruct Hc as [_ Hc].
    destruct rule_attack.
    - pose proof (warning_loop_spec
                    (map (fun e => {| Cell.name := e; Cell.status := "ok" |})
                         ECU_NAMES) health0 s7) as Hw.
      rewrite Hwarn in Hw. cbn [fst snd] in Hw. destruct Hw as [_ Hw].
      rewrite Hw; [by rewrite Hc|]. right. by rewrite heatmap0_names.
    - injection Hwarn as _ -> _. by rewrite Hc. }
  pose proof (compromised_loop_spec heatmap1 health1 s8') as Hl.
  rewrite Hloop in Hl. cbn [fst snd] in Hl. destruct Hl as [-> Hl].
  destruct (uniform_run (Py.float 0.85) (Py.float 1.0) s8) as [s8'' Hu].
  rewrite Hu in Hscore. apply pair_equal_spec in Hscore as [<- _].
  split; [apply orb_true_r|].
  split; [|split; [|split; [|split; [|split; [|split]]]]].
  - rewrite <- Hnames1. clear. induction heatmap1 as [|c l IH]; [done|].
    cbn [map Cell.name]. by rewrite IH.
  - clear. induction heatmap1 as [|c l IH]; constructor; done.
  - uniform_bounds 85%Z 100%Z.
  - uniform_bounds 85%Z 100%Z.
  - uniform_bounds 85%Z 100%Z.
  - intros name Hname. apply Hl. by rewrite Hnames1.
  - intros name Hname. destruct (Hl name) as [_ Hkeep].
    rewrite Hkeep; [by apply Hout1|by rewrite Hnames1].
Qed.

(** ** Ticks without forced attack *)

(** The three units the rule-triggered loop passes over. *)
Lemma spared_names name :
  name ∈ ["Steering ECU"; "Infotainment"; "ADAS ECU"] →
  name ∈ ECU_NAMES ∧ name ∉ degraded_names.
Proof.
  unfold ECU_NAMES, degraded_names.
  rewrite !elem_of_cons, !elem_of_nil.
  intros [->|[->|[->|[]]]]; (split; [tauto|]); intros [H|[H|[H|[]]]];
    discriminate H.
Qed.

(** C9. A tick generated while [FORCE_ATTACK] is off, whether or not a rule
    fired, returns a snapshot whose CAN anomaly score is the rounded base
    draw, in [0, 0.2], and in which Steering ECU, Infotainment and ADAS ECU
    have heatmap status "ok" and the health first sampled for them, in
    [0.8, 1.0].  The base draw is the float product [random() * 0.2], and the
    ranges are those of the floats the code computes: bounds as Python
    compares floats, values among the floats written 0.0, 0.01, ..., 0.2 and
    0.8, 0.81, ..., 1.0. *)
Theorem unforced_tick_spares_three_units (g : Globals) (s : Sys) :
  FORCE_ATTACK g = false →
  let snapshot := (generate_telemetry g s).1.1 in
  let s2 := (Random.random (Random.randint 0 140 s).2).2 in
  let sampled := (health_comprehension ECU_NAMES ∅ s2).1 in
  let s3 := (health_comprehension ECU_NAMES ∅ s2).2 in
  let base_anomaly := Binary64.mul (Random.random s3).1 (Py.float 0.2) in
  Snapshot.can_anomaly_score snapshot = Py.round2 base_anomaly
  ∧ (0 <= Snapshot.can_anomaly_score snapshot)%Q
  ∧ (Snapshot.can_anomaly_score snapshot <= Py.float 0.2)%Q
  ∧ two_places 0 20 (Snapshot.can_anomaly_score snapshot)
  ∧ map Cell.name (Snapshot.heatmap snapshot) = ECU_NAMES
  ∧ ∀ name, name ∈ ["Steering ECU"; "Infotainment"; "ADAS ECU"] →
      (∀ c, c ∈ Snapshot.heatmap snapshot → Cell.name c = name →
            Cell.status c = "ok")
      ∧ Snapshot.ecu_health snapshot !! name = sampled !! name
      ∧ ∃ h, Snapshot.ecu_health snapshot !! name = Some h
             ∧ (Py.float 0.8 <= h)%Q ∧ (h <= Py.float 1.0)%Q
             ∧ two_places 80 100 h.
Proof.
  intros HF.
  destruct (generate_telemetry_spec g s)
    as (speed & s1 & r2 & s2 & health0 & s3 & r4 & s4 & pkts & now & s6
        & rule_attack & rule_alerts & s7 & heatmap1 & health1 & s8 & score
        & s8' & heatmap2 & health2 & s9 & s10 & E1 & E2 & E3 & E4 & H).
  cbn zeta in H. destruct H as (_ & Hwarn & Hforce & ->).
  rewrite HF in *. injection Hforce as -> -> _.
  rewrite E1. cbn [snd]. rewrite E2. cbn [snd]. rewrite E3. cbn [fst snd].
  rewrite E4.
  cbn [fst snd Snapshot.heatmap Snapshot.ecu_health
       Snapshot.can_anomaly_score].
  (* what the loop of a fired rule leaves of the fresh cells and health *)
  set (heatmap0 :=
         map (fun e => {| Cell.name := e; Cell.status := "ok" |}) ECU_NAMES)
    in *.
  assert (Hcells : heatmap1 = heatmap0
                   ∨ heatmap1 =
                       map (fun c => if decide (Cell.name c ∈ degraded_names)
                                     then {| Cell.name := Cell.name c;
                                             Cell.status := "warning" |}
                                     else c) heatmap0).
  { destruct rule_attack.
    - pose proof (warning_loop_spec heatmap0 health0 s7) as Hw.
      rewrite Hwarn in Hw. right. apply Hw.
    - injection Hwarn as -> _ _. by left. }
  assert (Hkeep : ∀ k, k ∉ degraded_names → health1 !! k = health0 !! k).
  { intros k Hk. destruct rule_attack.
    - pose proof (warning_loop_spec heatmap0 health0 s7) as Hw.
      rewrite Hwarn in Hw. apply Hw. by left.
    - by injection Hwarn as _ -> _. }
  assert (Hr4 : r4 = Random.unit_of (draws s3 (drawn s3))).
  { unfold Random.random in E4. revert E4. unfold_M. unfold next_draw.
    intros [= <- _]. reflexivity. }
  split; [done|].
  destruct (round2_scaled_bounds (Py.float 0.2) 0 (Py.float 0.2) 0 20
              (draws s3 (drawn s3))) as (Hlo & Hhi & Hpl);
    [vm_compute; reflexivity|].
  rewrite <- Hr4 in Hlo, Hhi, Hpl.
  split; [exact Hlo|]. split; [exact Hhi|]. split; [exact Hpl|].
  split.
  { destruct Hcells as [->| ->]; [done|]. by rewrite warning_names. }
  intros name Hname. destruct (spared_names name Hname) as [Hecu Hspared].
  split; [|split].
  - intros c Hc <-. destruct Hcells as [->| ->].
    + apply list_elem_of_fmap in Hc as (e & -> & _). done.
    + apply list_elem_of_fmap in Hc as (c0 & -> & Hc0).
      destruct (decide (Cell.name c0 ∈ degraded_names)) as [Hd|Hd].
      * by destruct Hspared.
      * apply list_elem_of_fmap in Hc0 as (e & -> & _). done.
  - by apply Hkeep.
  - rewrite (Hkeep name Hspared).
    pose proof (health_comprehension_spec ECU_NAMES ∅ s2 name) as Hc.
    rewrite E3 in Hc. by apply Hc.
Qed.

(** ** The aggregator over the process lifetime *)

(** The analytics a tick leaves are those of one [update_analytics] call on
    the snapshot's alerts and verdict. *)
Lemma generate_telemetry_analytics g s :
  let snapshot := (generate_telemetry g s).1.1 in
  ∃ s9, ANALYTICS (generate_telemetry g s).1.2
        = (update_analytics (Snapshot.security_alerts snapshot)
             (Snapshot.attack_active snapshot) (ANALYTICS g) s9).1.
Proof.
  destruct (generate_telemetry_spec g s)
    as (speed & s1 & r2 & s2 & health0 & s3 & r4 & s4 & pkts & now & s6
        & rule_attack & rule_alerts & s7 & heatmap1 & health1 & s8 & score
        & s8' & heatmap2 & health2 & s9 & s10 & _ & _ & _ & _ & H).
  cbn zeta in H. destruct H as (_ & _ & _ & ->). by exists s9.
Qed.

(** The alerts a tick stores are those of one [evaluate_rules] call. *)
Lemma generate_telemetry_alerts g s :
  ∃ snapshot0 pkts s6,
    Snapshot.security_alerts (generate_telemetry g s).1.1
    = (evaluate_rules snapshot0 (LAST_SNAPSHOT g) pkts s6).1.2.
Proof.
  destruct (generate_telemetry_spec g s)
    as (speed & s1 & r2 & s2 & health0 & s3 & r4 & s4 & pkts & now & s6
        & rule_attack & rule_alerts & s7 & heatmap1 & health1 & s8 & score
        & s8' & heatmap2 & health2 & s9 & s10 & _ & _ & _ & _ & H).
  cbn zeta in H. destruct H as (Hrules & _ & _ & ->).
  eexists _, pkts, s6. by rewrite Hrules.
Qed.

(** C3. One call of [update_analytics] appends exactly one entry, the
    tick's; when the timeline held 200 entries that append makes it exceed
    200 and exactly the entry at index 0 is dropped, otherwise none is.  So a
    timeline within 200 entries stays within 200, also across a whole tick,
    and after any run of ticks from the initial state the timeline is the
    last 200 of the entries appended, in the order they were appended. *)
Theorem timeline_capped_at_200_fifo :
  (∀ (alerts : list Alert.t) (attack_active : bool) (A : Analytics.t) (s : Sys),
     let old := Analytics.events_timeline A in
     let new :=
       Analytics.events_timeline
         (update_analytics alerts attack_active A s).1 in
     let entry := tick_event (alerts, attack_active) (utc s (reads s)) in
     ((length old < 200)%nat → new = old ++ [entry])
     ∧ ((200 ≤ length old)%nat → new = drop 1 old ++ [entry])
     ∧ ((length old ≤ 200)%nat → (length new ≤ 200)%nat))
  ∧ (∀ (g : Globals) (s : Sys),
       (length (Analytics.events_timeline (ANALYTICS g)) ≤ 200)%nat →
       (length (Analytics.events_timeline
                  (ANALYTICS (generate_telemetry g s).1.2)) ≤ 200)%nat)
  ∧ (∀ (ticks : list (list Alert.t * bool)) (s : Sys),
       let new :=
         Analytics.events_timeline (record_ticks ticks ANALYTICS0 s).1 in
       let entries := tick_events ticks (utc s) (reads s) in
       (length new ≤ 200)%nat
       ∧ new = drop (length entries - 200) entries).
Proof.
  assert (Hstep : ∀ alerts attack_active A s,
    let old := Analytics.events_timeline A in
    let new :=
      Analytics.events_timeline
        (update_analytics alerts attack_active A s).1 in
    let entry := tick_event (alerts, attack_active) (utc s (reads s)) in
    ((length old < 200)%nat → new = old ++ [entry])
    ∧ ((200 ≤ length old)%nat → new = drop 1 old ++ [entry])
    ∧ ((length old ≤ 200)%nat → (length new ≤ 200)%nat)).
  { intros alerts aa A s old new entry. subst new.
    destruct (update_analytics_spec alerts aa A s) as (-> & _).
    fold old entry. rewrite length_app. cbn [length].
    destruct (Nat.ltb_spec 200 (length old + 1)) as [Hfull|Hroom].
    - split; [lia|]. split.
      + intros _. destruct old; [cbn in Hfull; lia|done].
      + intros Hold. rewrite length_drop, length_app. cbn [length]. lia.
    - split; [done|]. split; [lia|]. rewrite length_app. cbn [length]. lia. }
  split; [exact Hstep|]. split.
  - intros g s Hg. destruct (generate_telemetry_analytics g s) as [s9 ->].
    by apply Hstep.
  - intros ticks s new entries. subst new.
    rewrite (record_ticks_timeline ticks ANALYTICS0 s); [|cbn; lia].
    cbn [ANALYTICS0 Analytics.events_timeline app]. fold entries.
    split; [|done]. rewrite length_drop. lia.
Qed.

(** C8. No call of [update_analytics], and so no tick, lowers the count of
    any key in any of the three ranking counters; and from the initial
    state, recording a sequence of ticks twice over leaves every key of every
    counter at exactly twice the count that recording it once leaves. *)
Theorem ranking_counters_monotone_and_doubling :
  (∀ (alerts : list Alert.t) (attack_active : bool) (A : Analytics.t)
     (s : Sys) (k : string),
     let A' := (update_analytics alerts attack_active A s).1 in
     (Counter.get (Analytics.attack_counts_by_ecu A) k
      ≤ Counter.get (Analytics.attack_counts_by_ecu A') k)%nat
     ∧ (Counter.get (Analytics.attack_counts_by_type A) k
        ≤ Counter.get (Analytics.attack_counts_by_type A') k)%nat
     ∧ (Counter.get (Analytics.attack_counts_by_attacker A) k
        ≤ Counter.get (Analytics.attack_counts_by_attacker A') k)%nat)
  ∧ (∀ (g : Globals) (s : Sys) (k : string),
       let A := ANALYTICS g in
       let A' := ANALYTICS (generate_telemetry g s).1.2 in
       (Counter.get (Analytics.attack_counts_by_ecu A) k
        ≤ Counter.get (Analytics.attack_counts_by_ecu A') k)%nat
       ∧ (Counter.get (Analytics.attack_counts_by_type A) k
          ≤ Counter.get (Analytics.attack_counts_by_type A') k)%nat
       ∧ (Counter.get (Analytics.attack_counts_by_attacker A) k
          ≤ Counter.get (Analytics.attack_counts_by_attacker A') k)%nat)
  ∧ (∀ (ticks : list (list Alert.t * bool)) (s s' : Sys) (k : string),
       let once := (record_ticks ticks ANALYTICS0 s).1 in
       let twice := (record_ticks (ticks ++ ticks) ANALYTICS0 s').1 in
       Counter.get (Analytics.attack_counts_by_ecu twice) k
       = (2 * Counter.get (Analytics.attack_counts_by_ecu once) k)%nat
       ∧ Counter.get (Analytics.attack_counts_by_type twice) k
         = (2 * Counter.get (Analytics.attack_counts_by_type once) k)%nat
       ∧ Counter.get (Analytics.attack_counts_by_attacker twice) k
         = (2 * Counter.get (Analytics.attack_counts_by_attacker once) k)%nat).
Proof.
  assert (Hstep : ∀ alerts attack_active A s k,
    let A' := (update_analytics alerts attack_active A s).1 in
    (Counter.get (Analytics.attack_counts_by_ecu A) k
     ≤ Counter.get (Analytics.attack_counts_by_ecu A') k)%nat
    ∧ (Counter.get (Analytics.attack_counts_by_type A) k
       ≤ Counter.get (Analytics.attack_counts_by_type A') k)%nat
    ∧ (Counter.get (Analytics.attack_counts_by_attacker A) k
       ≤ Counter.get (Analytics.attack_counts_by_attacker A') k)%nat).
  { intros alerts aa A s k.
    destruct (update_analytics_spec alerts aa A s)
      as (_ & Hecu & Htype & Hip & _).
    cbn zeta. rewrite Hecu, Htype, Hip. lia. }
  split; [exact Hstep|]. split.
  - intros g s k. cbn zeta.
    destruct (generate_telemetry_analytics g s) as [s9 ->]. apply Hstep.
  - intros ticks s s' k.
    destruct (record_ticks_counters ticks ANALYTICS0 s k) as (O1 & O2 & O3).
    destruct (record_ticks_counters (ticks ++ ticks) ANALYTICS0 s' k)
      as (T1 & T2 & T3).
    cbn zeta. rewrite O1, O2, O3, T1, T2, T3.
    rewrite flat_map_app. unfold ecu_alerts. rewrite List.filter_app.
    rewrite !occurrences_app.
    cbn [ANALYTICS0 Analytics.attack_counts_by_ecu
         Analytics.attack_counts_by_type Analytics.attack_counts_by_attacker].
    rewrite Counter_get_empty. repeat split; lia.
Qed.

(** When every alert is attributed to a unit, the guard of the by-ECU
    counter passes for all of them. *)
Lemma guard_always_passes alerts k :
  Forall (fun a => Alert.source a ∈ ECU_NAMES) alerts →
  length (List.filter
            (fun a => bool_decide (Alert.source a ∈ ECU_NAMES)
                      && String.eqb (Alert.source a) k) alerts)
  = occurrences Alert.source alerts k.
Proof.
  unfold occurrences. induction 1 as [|a alerts Ha _ IH]; [done|].
  cbn [List.filter]. rewrite (bool_decide_eq_true_2 _ Ha). cbn [andb].
  destruct (String.eqb _ _); cbn [length]; by rewrite IH.
Qed.

Lemma rule_alert_sources snapshot prev_snapshot can_packets s :
  Forall (fun a => Alert.source a ∈ ["Telematics"; "Engine ECU"; "Brake ECU"]
                   ∧ Alert.source a ∈ ECU_NAMES)
         (evaluate_rules snapshot prev_snapshot can_packets s).1.2.
Proof.
  destruct (evaluate_rules_spec snapshot prev_snapshot can_packets s)
    as (ip1 & ip2 & ip3 & s' & ->).
  cbn [fst snd]. rewrite !Forall_app. unfold ECU_NAMES.
  split; [|split].
  - destruct (_ <=? _)%nat; constructor; [|done]. cbn [Alert.source].
    rewrite !elem_of_cons. tauto.
  - destruct prev_snapshot as [prev|]; [|done].
    destruct (_ <? _)%Z; constructor; [|done]. cbn [Alert.source].
    rewrite !elem_of_cons. tauto.
  - destruct (_ && _); constructor; [|done]. cbn [Alert.source].
    rewrite !elem_of_cons. tauto.
Qed.

(** C10. Every alert [evaluate_rules] produces has source "Telematics",
    "Engine ECU" or "Brake ECU", each a member of [ECU_NAMES]; so
    [update_analytics] raises the by-ECU count of every key by exactly the
    number of alerts with that source, none skipped, and so does every
    tick for the alerts of its snapshot. *)
Theorem every_rule_alert_counts_for_an_ecu :
  (∀ (snapshot : Snapshot.t) (prev_snapshot : option Snapshot.t)
     (can_packets : list Packet.t) (s : Sys),
     let alerts := (evaluate_rules snapshot prev_snapshot can_packets s).1.2 in
     Forall (fun a =>
               Alert.source a ∈ ["Telematics"; "Engine ECU"; "Brake ECU"]
               ∧ Alert.source a ∈ ECU_NAMES) alerts
     ∧ ∀ (attack_active : bool) (A : Analytics.t) (s' : Sys) (k : string),
         Counter.get
           (Analytics.attack_counts_by_ecu
              (update_analytics alerts attack_active A s').1) k
         = (Counter.get (Analytics.attack_counts_by_ecu A) k
            + occurrences Alert.source alerts k)%nat)
  ∧ (∀ (g : Globals) (s : Sys) (k : string),
       let snapshot := (generate_telemetry g s).1.1 in
       let A' := ANALYTICS (generate_telemetry g s).1.2 in
       Forall (fun a => Alert.source a ∈ ECU_NAMES)
              (Snapshot.security_alerts snapshot)
       ∧ Counter.get (Analytics.attack_counts_by_ecu A') k
         = (Counter.get (Analytics.attack_counts_by_ecu (ANALYTICS g)) k
            + occurrences Alert.source (Snapshot.security_alerts snapshot) k)%nat).
Proof.
  assert (Hcount : ∀ alerts aa A s' k,
            Forall (fun a => Alert.source a ∈ ECU_NAMES) alerts →
            Counter.get
              (Analytics.attack_counts_by_ecu
                 (update_analytics alerts aa A s').1) k
            = (Counter.get (Analytics.attack_counts_by_ecu A) k
               + occurrences Alert.source alerts k)%nat).
  { intros alerts aa A s' k Hall.
    destruct (update_analytics_spec alerts aa A s') as (_ & -> & _).
    by rewrite guard_always_passes. }
  split.
  - intros snapshot prev_snapshot can_packets s alerts.
    pose proof (rule_alert_sources snapshot prev_snapshot can_packets s) as Hs.
    fold alerts in Hs. split; [done|].
    intros aa A s' k. apply Hcount.
    eapply Forall_impl; [exact Hs|]. by intros a [_ Ha].
  - intros g s k snapshot A'. subst snapshot A'.
    destruct (generate_telemetry_analytics g s) as [s9 ->].
    destruct (generate_telemetry_alerts g s) as (snapshot0 & pkts & s6 & ->).
    assert (Hall : Forall (fun a => Alert.source a ∈ ECU_NAMES)
                     (evaluate_rules snapshot0 (LAST_SNAPSHOT g) pkts s6).1.2).
    { eapply Forall_impl; [apply rule_alert_sources|]. by intros a [_ Ha]. }
    split; [done|]. by apply Hcount.
Qed.

(** ** The force-attack endpoint *)

(** C7, as the handler has it. For every request whose JSON body is an
    object, the switch is set to whether its "mode" is the string "on" and
    that state is returned: any other "mode", or none, turns it off, and
    nothing is raised. *)
Theorem force_attack_object_body (items : list (string * JSON)) (g : Globals) :
  let on := eq_str (dict_get items "mode") "on" in
  force_attack (JDict items) g
  = Returned (JDict [("forced_attack", JBool on)])
             {| FORCE_ATTACK := on;
                ANALYTICS := ANALYTICS g;
                LAST_SNAPSHOT := LAST_SNAPSHOT g |}
  ∧ (on = true ↔ dict_get items "mode" = JStr "on")
  ∧ (dict_get items "mode" ≠ JStr "on" → on = false).
Proof.
  assert (Hon : eq_str (dict_get items "mode") "on" = true
                ↔ dict_get items "mode" = JStr "on").
  { destruct (dict_get items "mode") as [| | | |v| |]; cbn [eq_str];
      try (split; [discriminate|discriminate]).
    rewrite String.eqb_eq. split; [by intros ->|by intros [= ->]]. }
  split; [reflexivity|]. split; [exact Hon|].
  intros Hne. apply not_true_is_false. by rewrite Hon.
Qed.

(** C7 as stated fails: the empty array is valid JSON and no on/off
    indicator, yet with it as the body the handler raises, returns no state,
    and a switch that was on is not turned off. *)
Lemma force_attack_raises_on_array :
  force_attack (JList []) Globals_forced
  = Raised "AttributeError: 'list' object has no attribute 'get'"
  ∧ ¬ ∃ response g',
        force_attack (JList []) Globals_forced = Returned response g'
        ∧ FORCE_ATTACK g' = false.
Proof. split; [reflexivity|]. by intros (response & g' & [=] & _). Qed.

(** ** The properties at sample inputs *)

(** Eight anomalous frames of 15 raise the CAN alert, seven do not. *)
Example can_rule_at_8_and_7 :
  map Alert.message
      (evaluate_rules (sample_snapshot 50 "OFF") None (sample_packets 8)
                      sample_sys).1.2
  = ["8 anomalous CAN frames detected"]
  ∧ (evaluate_rules (sample_snapshot 50 "OFF") None (sample_packets 7)
                    sample_sys).1
    = (false, []).
Proof. split; vm_compute; reflexivity. Qed.

(** From 30 to 140 the physics rule fires and reports 110; from 30 to 50,
    or with no previous snapshot, it does not. *)
Example physics_rule_30_to_140 :
  map Alert.message
      (evaluate_rules (sample_snapshot 140 "OFF")
                      (Some (sample_snapshot 30 "OFF")) (sample_packets 0)
                      sample_sys).1.2
  = ["Implausible speed jump Δv=110 km/h"]
  ∧ (evaluate_rules (sample_snapshot 50 "OFF")
                    (Some (sample_snapshot 30 "OFF")) (sample_packets 0)
                    sample_sys).1
    = (false, [])
  ∧ (evaluate_rules (sample_snapshot 140 "OFF") None (sample_packets 0)
                    sample_sys).1
    = (false, []).
Proof. repeat split; vm_compute; reflexivity. Qed.

(** With the brake on, 121 raises the CRITICAL alert and 120 none. *)
Example brake_rule_at_121_and_120 :
  map (fun a => (Alert.level a, Alert.source a, Alert.message a))
      (evaluate_rules (sample_snapshot 121 "ON") None (sample_packets 0)
                      sample_sys).1.2
  = [("CRITICAL", "Brake ECU", "Brake engaged at 121 km/h")]
  ∧ (evaluate_rules (sample_snapshot 120 "ON") None (sample_packets 0)
                    sample_sys).1
    = (false, []).
Proof. split; vm_compute; reflexivity. Qed.

(** A forced tick on which no rule fires is still an attack, all units
    compromised. *)
Example forced_tick_without_alerts :
  let snapshot := (generate_telemetry Globals_forced sample_sys).1.1 in
  Snapshot.security_alerts snapshot = []
  ∧ Snapshot.attack_active snapshot = true
  ∧ map Cell.status (Snapshot.heatmap snapshot)
    = ["compromised"; "compromised"; "compromised"; "compromised";
       "compromised"; "compromised"].
Proof. repeat split; vm_compute; reflexivity. Qed.

(** A forced tick on which a rule fires: the second tick of the sample run,
    with the switch turned on after the first, jumps from 106 to 31 km/h.
    The alert is raised, and the loop of forced-attack mode overwrites what
    the loop of the fired rule had set: no unit is left at "warning", and
    the health of Engine ECU, Brake ECU and Telematics is drawn again. *)
Example forced_tick_with_alert :
  let snapshot :=
    (generate_telemetry forced_after_one_tick after_one_tick.2).1.1 in
  map Alert.message (Snapshot.security_alerts snapshot)
  = ["Implausible speed jump Δv=75 km/h"]
  ∧ Snapshot.attack_active snapshot = true
  ∧ map Cell.status (Snapshot.heatmap snapshot)
    = ["compromised"; "compromised"; "compromised"; "compromised";
       "compromised"; "compromised"]
  ∧ Snapshot.can_anomaly_score snapshot = Py.float 0.99
  ∧ map (fun e => Snapshot.ecu_health snapshot !! e) ECU_NAMES
    = map (fun q => Some (Py.float q)) [0.34; 0.21; 0.38; 0.25; 0.41; 0.28]%Q.
Proof. repeat split; vm_compute; reflexivity. Qed.

(** The second tick of the sample run jumps from 106 to 31 km/h: the physics
    rule fires, the three named units go to "warning", the others stay
    "ok". *)
Example second_tick_physics_alert :
  let snapshot :=
    (generate_telemetry after_one_tick.1 after_one_tick.2).1.1 in
  map Alert.message (Snapshot.security_alerts snapshot)
  = ["Implausible speed jump Δv=75 km/h"]
  ∧ Snapshot.attack_active snapshot = true
  ∧ map Cell.status (Snapshot.heatmap snapshot)
    = ["warning"; "warning"; "ok"; "ok"; "warning"; "ok"].
Proof. repeat split; vm_compute; reflexivity. Qed.

(** After 250 recorded ticks the timeline holds 200 entries, the oldest of
    them the 51st appended. *)
Example timeline_after_250_ticks :
  let ticks := repeat ([] : list Alert.t, false) 250 in
  let timeline :=
    Analytics.events_timeline (record_ticks ticks ANALYTICS0 sample_sys).1 in
  length timeline = 200%nat
  ∧ head timeline = Some (tick_event ([], false) (utc sample_sys 50)).
Proof. split; vm_compute; reflexivity. Qed.

(** A body that is an object turns the switch on or off; a missing or
    different "mode" turns it off. *)
Example force_attack_modes :
  force_attack (JDict [("mode", JStr "on")]) Globals0
  = Returned (JDict [("forced_attack", JBool true)]) Globals_forced
  ∧ force_attack (JDict [("mode", JStr "off")]) Globals_forced
    = Returned (JDict [("forced_attack", JBool false)]) Globals0
  ∧ force_attack (JDict [("mode", JInt 1)]) Globals_forced
    = Returned (JDict [("forced_attack", JBool false)]) Globals0
  ∧ force_attack (JDict []) Globals_forced
    = Returned (JDict [("forced_attack", JBool false)]) Globals0.
Proof. repeat split. Qed.

Lemma forced_attack_overrides_witness :
  let snapshot :=
    (generate_telemetry forced_after_one_tick after_one_tick.2).1.1 in
  FORCE_ATTACK forced_after_one_tick = true
  ∧ Snapshot.attack_active snapshot = true
  ∧ map Cell.name (Snapshot.heatmap snapshot) = ECU_NAMES
  ∧ Forall (fun c => Cell.status c = "compromised") (Snapshot.heatmap snapshot)
  ∧ (Py.float 0.85 <= Snapshot.can_anomaly_score snapshot)%Q
  ∧ (Snapshot.can_anomaly_score snapshot <= Py.float 1.0)%Q
  ∧ two_places 85 100 (Snapshot.can_anomaly_score snapshot)
  ∧ (∀ name, name ∈ ECU_NAMES →
       ∃ h, Snapshot.ecu_health snapshot !! name = Some h
            ∧ (Py.float 0.2 <= h)%Q ∧ (h <= Py.float 0.5)%Q
            ∧ two_places 20 50 h)
  ∧ (∀ name, name ∉ ECU_NAMES → Snapshot.ecu_health snapshot !! name = None).
Proof.
  split; [reflexivity|].
  apply (forced_attack_overrides forced_after_one_tick after_one_tick.2).
  reflexivity.
Defined.

Lemma unforced_tick_spares_three_units_witness :
  let g := after_one_tick.1 in
  let s := after_one_tick.2 in
  let snapshot := (generate_telemetry g s).1.1 in
  let s2 := (Random.random (Random.randint 0 140 s).2).2 in
  let sampled := (health_comprehension ECU_NAMES ∅ s2).1 in
  let s3 := (health_comprehension ECU_NAMES ∅ s2).2 in
  let base_anomaly := Binary64.mul (Random.random s3).1 (Py.float 0.2) in
  FORCE_ATTACK g = false
  ∧ Snapshot.can_anomaly_score snapshot = Py.round2 base_anomaly
  ∧ (0 <= Snapshot.can_anomaly_score snapshot)%Q
  ∧ (Snapshot.can_anomaly_score snapshot <= Py.float 0.2)%Q
  ∧ two_places 0 20 (Snapshot.can_anomaly_score snapshot)
  ∧ map Cell.name (Snapshot.heatmap snapshot) = ECU_NAMES
  ∧ ∀ name, name ∈ ["Steering ECU"; "Infotainment"; "ADAS ECU"] →
      (∀ c, c ∈ Snapshot.heatmap snapshot → Cell.name c = name →
            Cell.status c = "ok")
      ∧ Snapshot.ecu_health snapshot !! name = sampled !! name
      ∧ ∃ h, Snapshot.ecu_health snapshot !! name = Some h
             ∧ (Py.float 0.8 <= h)%Q ∧ (h <= Py.float 1.0)%Q
             ∧ two_places 80 100 h.
Proof.
  split; [vm_compute; reflexivity|].
  apply (unforced_tick_spares_three_units after_one_tick.1 after_one_tick.2).
  vm_compute. reflexivity.
Defined.

(** * Further properties of the code *)

(** ** How computations use the outside world *)

Lemma blind_ret {A} (a : A) : blind (mret a).
Proof. by intros s s' H. Qed.

Lemma blind_bind {A B} (m : M A) (k : A → M B) :
  blind m → (∀ a, blind (k a)) → blind (m ≫= k).
Proof.
  intros Hm Hk s s' H. unfold mbind, M_bind.
  destruct (Hm s s' H) as [Ha Hs].
  destruct (m s) as [a s1], (m s') as [a' s1']. cbn [fst snd] in *. subst a'.
  by apply Hk.
Qed.

Lemma blind_next_draw : blind next_draw.
Proof.
  intros s s' H. unfold sources in *. injection H as Hd Hn Hu Hr.
  unfold next_draw. cbn [fst snd draws drawn utc reads]. by rewrite Hd, Hn, Hu, Hr.
Qed.

Lemma blind_utcnow : blind utcnow.
Proof.
  intros s s' H. unfold sources in *. injection H as Hd Hn Hu Hr.
  unfold utcnow. cbn [fst snd draws drawn utc reads]. by rewrite Hd, Hn, Hu, Hr.
Qed.

Lemma blind_log_telemetry data : blind (log_telemetry data).
Proof. intros s s' H. by split. Qed.

Lemma quiet_ret {A} (a : A) : quiet (mret a).
Proof. by intros s. Qed.

Lemma quiet_bind {A B} (m : M A) (k : A → M B) :
  quiet m → (∀ a, quiet (k a)) → quiet (m ≫= k).
Proof.
  intros Hm Hk s. unfold mbind, M_bind.
  specialize (Hm s). destruct (m s) as [a s1]. cbn [snd] in Hm.
  by rewrite Hk.
Qed.

Lemma quiet_next_draw : quiet next_draw.
Proof. by intros s. Qed.

Lemma quiet_utcnow : quiet utcnow.
Proof. by intros s. Qed.

Lemma clocked_ret {A} (a : A) : clocked 0 (mret a).
Proof. intros s. exists 0%nat. unfold sources. cbn. by rewrite !Nat.add_0_r. Qed.

Lemma clocked_bind {A B} r1 r2 (m : M A) (k : A → M B) :
  clocked r1 m → (∀ a, clocked r2 (k a)) → clocked (r1 + r2) (m ≫= k).
Proof.
  intros Hm Hk s. unfold mbind, M_bind.
  destruct (Hm s) as [d1 H1]. destruct (m s) as [a s1]. cbn [snd] in H1.
  destruct (Hk a s1) as [d2 H2]. exists (d1 + d2)%nat. rewrite H2.
  unfold sources in H1. injection H1 as -> -> -> ->.
  by rewrite !Nat.add_assoc.
Qed.

Lemma clocked_bind_0 {A B} (m : M A) (k : A → M B) :
  clocked 0 m → (∀ a, clocked 0 (k a)) → clocked 0 (m ≫= k).
Proof. apply (clocked_bind 0 0). Qed.

Lemma clocked_next_draw : clocked 0 next_draw.
Proof.
  intros s. exists 1%nat. unfold sources. cbn. by rewrite Nat.add_0_r, Nat.add_1_r.
Qed.

Lemma clocked_utcnow : clocked 1 utcnow.
Proof.
  intros s. exists 0%nat. unfold sources. cbn. by rewrite Nat.add_0_r, Nat.add_1_r.
Qed.

(** What a clocked computation leaves of the clock. *)
Lemma clocked_run {A} r (m : M A) s a s' :
  clocked r m → m s = (a, s') → utc s' = utc s ∧ reads s' = (reads s + r)%nat.
Proof.
  intros Hm Hrun. destruct (Hm s) as [d Hd]. rewrite Hrun in Hd.
  by injection Hd as _ _ -> ->.
Qed.

Lemma quiet_run {A} (m : M A) s a s' :
  quiet m → m s = (a, s') → disk s' = disk s.
Proof. intros Hm Hrun. specialize (Hm s). by rewrite Hrun in Hm. Qed.

Lemma logs_once_bind {A B} (m : M A) (k : A → M B) record :
  quiet m → (∀ a, logs_once (k a) record) → logs_once (m ≫= k) record.
Proof.
  intros Hm Hk s. unfold mbind, M_bind.
  specialize (Hm s). destruct (m s) as [a s1]. cbn [snd] in Hm.
  rewrite Hk. unfold disk in Hm. by injection Hm as -> -> ->.
Qed.

Lemma logs_once_log {A} (data : Snapshot.t) (a : A) record :
  record a = data → logs_once (log_telemetry data ≫= λ _, mret a) record.
Proof. intros <- s. reflexivity. Qed.

Lemma clocked_times {A} n (m : M A) : clocked 0 m → clocked 0 (times n m).
Proof.
  intros Hm. induction n; cbn [times]; [apply clocked_ret|].
  apply clocked_bind_0; [done|]. intros a. apply clocked_bind_0; [done|].
  intros l. apply clocked_ret.
Qed.

Lemma blind_times {A} n (m : M A) : blind m → blind (times n m).
Proof.
  intros Hm. induction n; cbn [times]; [apply blind_ret|].
  apply blind_bind; [done|]. intros a. apply blind_bind; [done|].
  intros l. apply blind_ret.
Qed.

Lemma quiet_times {A} n (m : M A) : quiet m → quiet (times n m).
Proof.
  intros Hm. induction n; cbn [times]; [apply quiet_ret|].
  apply quiet_bind; [done|]. intros a. apply quiet_bind; [done|].
  intros l. apply quiet_ret.
Qed.

Create HintDb world discriminated.
#[local] Hint Resolve blind_ret blind_next_draw blind_utcnow blind_log_telemetry
  quiet_ret quiet_next_draw quiet_utcnow clocked_ret clocked_next_draw
  clocked_utcnow : world.

(** Descends a computation built from binds, branches and pattern
    matches on pairs, leaving what the hints do not close. *)
Ltac world_step :=
  match goal with
  | |- blind (_ ≫= _) => apply blind_bind
  | |- quiet (_ ≫= _) => apply quiet_bind
  | |- clocked 0 (_ ≫= _) => apply clocked_bind_0
  | |- logs_once (log_telemetry _ ≫= _) _ => apply logs_once_log; reflexivity
  | |- logs_once (_ ≫= _) _ => apply logs_once_bind
  | |- blind (times _ _) => apply blind_times
  | |- quiet (times _ _) => apply quiet_times
  | |- clocked 0 (times _ _) => apply clocked_times
  | |- ∀ _, _ => intros ?
  | |- blind (let '(_, _) := ?p in _) => destruct p
  | |- quiet (let '(_, _) := ?p in _) => destruct p
  | |- clocked _ (let '(_, _) := ?p in _) => destruct p
  | |- logs_once (let '(_, _) := ?p in _) _ => destruct p
  | |- blind (if ?b then _ else _) => destruct b
  | |- quiet (if ?b then _ else _) => destruct b
  | |- clocked _ (if ?b then _ else _) => destruct b
  | |- logs_once (if ?b then _ else _) _ => destruct b
  | |- blind (match ?o with Some _ => _ | None => _ end) => destruct o
  | |- quiet (match ?o with Some _ => _ | None => _ end) => destruct o
  | |- clocked _ (match ?o with Some _ => _ | None => _ end) => destruct o
  | |- _ => solve [eauto with world]
  end.
Ltac world := cbv zeta; repeat (world_step; cbv beta zeta).

Lemma blind_random : blind Random.random.
Proof. unfold Random.random. world. Qed.
Lemma blind_uniform a b : blind (Random.uniform a b).
Proof. unfold Random.uniform. world. Qed.
Lemma blind_randint a b : blind (Random.randint a b).
Proof. unfold Random.randint. world. Qed.
Lemma blind_choice seq : blind (Random.choice seq).
Proof. unfold Random.choice. world. Qed.
Lemma quiet_random : quiet Random.random.
Proof. unfold Random.random. world. Qed.
Lemma quiet_uniform a b : quiet (Random.uniform a b).
Proof. unfold Random.uniform. world. Qed.
Lemma quiet_randint a b : quiet (Random.randint a b).
Proof. unfold Random.randint. world. Qed.
Lemma quiet_choice seq : quiet (Random.choice seq).
Proof. unfold Random.choice. world. Qed.
Lemma clocked_random : clocked 0 Random.random.
Proof. unfold Random.random. world. Qed.
Lemma clocked_uniform a b : clocked 0 (Random.uniform a b).
Proof. unfold Random.uniform. world. Qed.
Lemma clocked_randint a b : clocked 0 (Random.randint a b).
Proof. unfold Random.randint. world. Qed.
Lemma clocked_choice seq : clocked 0 (Random.choice seq).
Proof. unfold Random.choice. world. Qed.
#[local] Hint Resolve clocked_random clocked_uniform clocked_randint
  clocked_choice : world.
#[local] Hint Resolve blind_random blind_uniform
  blind_randint blind_choice quiet_random quiet_uniform quiet_randint
  quiet_choice : world.

Lemma blind_random_ip : blind random_ip.
Proof. unfold random_ip. world. Qed.
Lemma quiet_random_ip : quiet random_ip.
Proof. unfold random_ip. world. Qed.
Lemma clocked_random_ip : clocked 0 random_ip.
Proof. unfold random_ip. world. Qed.
#[local] Hint Resolve blind_random_ip quiet_random_ip clocked_random_ip : world.

Lemma blind_can_packet_loop n hint packets :
  blind (can_packet_loop n hint packets).
Proof. revert packets. induction n; intros packets; cbn [can_packet_loop]; world. Qed.
Lemma quiet_can_packet_loop n hint packets :
  quiet (can_packet_loop n hint packets).
Proof. revert packets. induction n; intros packets; cbn [can_packet_loop]; world. Qed.

Lemma blind_generate_can_packets hint : blind (generate_can_packets hint).
Proof. unfold generate_can_packets. apply blind_can_packet_loop. Qed.
Lemma quiet_generate_can_packets hint : quiet (generate_can_packets hint).
Proof. unfold generate_can_packets. apply quiet_can_packet_loop. Qed.
#[local] Hint Resolve blind_generate_can_packets quiet_generate_can_packets
  : world.

Lemma blind_evaluate_rules snapshot prev pkts :
  blind (evaluate_rules snapshot prev pkts).
Proof. unfold evaluate_rules. world. Qed.
Lemma quiet_evaluate_rules snapshot prev pkts :
  quiet (evaluate_rules snapshot prev pkts).
Proof. unfold evaluate_rules. world. Qed.

Lemma blind_update_analytics alerts aa A : blind (update_analytics alerts aa A).
Proof. unfold update_analytics. world. Qed.
Lemma quiet_update_analytics alerts aa A : quiet (update_analytics alerts aa A).
Proof. unfold update_analytics. world. Qed.

Lemma blind_health_comprehension names d : blind (health_comprehension names d).
Proof. revert d. induction names; intros d; cbn [health_comprehension]; world. Qed.
Lemma quiet_health_comprehension names d : quiet (health_comprehension names d).
Proof. revert d. induction names; intros d; cbn [health_comprehension]; world. Qed.

Lemma blind_warning_loop cells health : blind (warning_loop cells health).
Proof. revert health. induction cells; intros health; cbn [warning_loop]; world. Qed.
Lemma quiet_warning_loop cells health : quiet (warning_loop cells health).
Proof. revert health. induction cells; intros health; cbn [warning_loop]; world. Qed.

Lemma blind_compromised_loop cells health : blind (compromised_loop cells health).
Proof. revert health. induction cells; intros health; cbn [compromised_loop]; world. Qed.
Lemma quiet_compromised_loop cells health : quiet (compromised_loop cells health).
Proof. revert health. induction cells; intros health; cbn [compromised_loop]; world. Qed.
Lemma clocked_evaluate_rules snapshot prev pkts :
  clocked 0 (evaluate_rules snapshot prev pkts).
Proof. unfold evaluate_rules. world. Qed.
Lemma clocked_health_comprehension names d :
  clocked 0 (health_comprehension names d).
Proof. revert d. induction names; intros d; cbn [health_comprehension]; world. Qed.
Lemma clocked_warning_loop cells health : clocked 0 (warning_loop cells health).
Proof. revert health. induction cells; intros health; cbn [warning_loop]; world. Qed.
Lemma clocked_compromised_loop cells health :
  clocked 0 (compromised_loop cells health).
Proof. revert health. induction cells; intros health; cbn [compromised_loop]; world. Qed.
Lemma clocked_update_analytics alerts aa A :
  clocked 1 (update_analytics alerts aa A).
Proof.
  unfold update_analytics. apply (clocked_bind 1 0); [apply clocked_utcnow|].
  intros now. cbv zeta. destruct (fold_left _ _ _) as [[? ?] ?].
  apply clocked_ret.
Qed.
#[local] Hint Resolve blind_evaluate_rules quiet_evaluate_rules
  blind_update_analytics quiet_update_analytics blind_health_comprehension
  quiet_health_comprehension blind_warning_loop quiet_warning_loop
  blind_compromised_loop quiet_compromised_loop : world.

Lemma blind_generate_telemetry g : blind (generate_telemetry g).
Proof. unfold generate_telemetry. world. Qed.

Lemma logs_once_generate_telemetry g : logs_once (generate_telemetry g) fst.
Proof. unfold generate_telemetry. world. Qed.

(** ** One tick, every step *)

(** One tick with every call it makes, in order, and the world each call
    leaves: the draws of the fresh snapshot, the hint, the frames, the clock
    reading, the rules, the two loops, the aggregator and the log. *)
Lemma generate_telemetry_trace g s :
  ∃ speed s1 r2 s2 health0 s3 r4 s4 hint s5 pkts s5' now s6 rule_attack
    rule_alerts s7 heatmap1 health1 s8 score s8' heatmap2 health2 s9 A' s10,
    Random.randint 0 140 s = (speed, s1)
    ∧ Random.random s1 = (r2, s2)
    ∧ health_comprehension ECU_NAMES ∅ s2 = (health0, s3)
    ∧ Random.random s3 = (r4, s4)
    ∧ (if FORCE_ATTACK g then (hint, s5) = (true, s4)
       else ∃ r5, Random.random s4 = (r5, s5)
                  ∧ hint = Py.Qltb r5 (Py.float 0.1))
    ∧ generate_can_packets hint s5 = (pkts, s5')
    ∧ utcnow s5' = (now, s6)
    ∧ let heatmap0 :=
        map (fun e => {| Cell.name := e; Cell.status := "ok" |}) ECU_NAMES in
      let snapshot0 :=
        {| Snapshot.speed := speed;
           Snapshot.brake_status :=
             if Py.Qltb r2 (Py.float 0.25) then "ON" else "OFF";
           Snapshot.ecu_health := health0;
           Snapshot.can_anomaly_score :=
             Py.round2 (Binary64.mul r4 (Py.float 0.2));
           Snapshot.attack_active := false;
           Snapshot.heatmap := heatmap0;
           Snapshot.security_alerts := [];
           Snapshot.can_packets := pkts;
           Snapshot.forced_attack := FORCE_ATTACK g;
           Snapshot.timestamp := strftime_Ymd_HMS now |} in
      evaluate_rules snapshot0 (LAST_SNAPSHOT g) pkts s6
        = ((rule_attack, rule_alerts), s7)
      ∧ (if rule_attack
         then warning_loop heatmap0 health0 s7 = ((heatmap1, health1), s8)
         else (heatmap1, health1, s8) = (heatmap0, health0, s7))
      ∧ (if FORCE_ATTACK g
         then Random.uniform (Py.float 0.85) (Py.float 1.0) s8 = (score, s8')
              ∧ compromised_loop heatmap1 health1 s8'
                = ((heatmap2, health2), s9)
         else (heatmap2, health2, s9) = (heatmap1, health1, s8))
      ∧ let snapshot :=
          {| Snapshot.speed := speed;
             Snapshot.brake_status := Snapshot.brake_status snapshot0;
             Snapshot.ecu_health := health2;
             Snapshot.can_anomaly_score :=
               if FORCE_ATTACK g then Py.round2 score
               else Py.round2 (Binary64.mul r4 (Py.float 0.2));
             Snapshot.attack_active := rule_attack || FORCE_ATTACK g;
             Snapshot.heatmap := heatmap2;
             Snapshot.security_alerts := rule_alerts;
             Snapshot.can_packets := pkts;
             Snapshot.forced_attack := FORCE_ATTACK g;
             Snapshot.timestamp := strftime_Ymd_HMS now |} in
        update_analytics rule_alerts (rule_attack || FORCE_ATTACK g)
          (ANALYTICS g) s9 = (A', s10)
        ∧ generate_telemetry g s =
            ((snapshot,
              {| FORCE_ATTACK := FORCE_ATTACK g;
                 ANALYTICS := A';
                 LAST_SNAPSHOT := Some snapshot |}),
             (log_telemetry snapshot s10).2).
Proof.
  pose (heatmap0 :=
          map (fun e => {| Cell.name := e; Cell.status := "ok" |}) ECU_NAMES).
  unfold generate_telemetry. unfold_M.
  destruct (Random.randint 0 140 s) as [speed s1] eqn:E1.
  destruct (Random.random s1) as [r2 s2] eqn:E2.
  destruct (health_comprehension ECU_NAMES ∅ s2) as [health0 s3] eqn:E3.
  destruct (Random.random s3) as [r4 s4] eqn:E4.
  destruct (FORCE_ATTACK g) eqn:HF; cbn beta.
  - destruct (generate_can_packets true s4) as [pkts s5'] eqn:E6.
    destruct (utcnow s5') as [now s6] eqn:E7.
    destruct (evaluate_rules _ (LAST_SNAPSHOT g) pkts s6)
      as [[rule_attack rule_alerts] s7] eqn:E8.
    cbn [Snapshot.heatmap Snapshot.ecu_health Snapshot.attack_active
         Snapshot.security_alerts Snapshot.can_anomaly_score Snapshot.speed
         Snapshot.brake_status Snapshot.can_packets Snapshot.forced_attack
         Snapshot.timestamp app].
    destruct rule_attack.
    + destruct (warning_loop _ health0 s7) as [[heatmap1 health1] s8] eqn:E9.
      destruct (Random.uniform (Py.float 0.85) (Py.float 1.0) s8)
        as [score s8'] eqn:E10.
      destruct (compromised_loop heatmap1 health1 s8')
        as [[heatmap2 health2] s9] eqn:E11.
      destruct (update_analytics rule_alerts true (ANALYTICS g) s9)
        as [A' s10] eqn:E12.
      exists speed, s1, r2, s2, health0, s3, r4, s4, true, s4, pkts, s5', now,
        s6, true, rule_alerts, s7, heatmap1, health1, s8, score, s8', heatmap2,
        health2, s9, A', s10. tick_facts. destruct (log_telemetry _ s10) as [[] s11]. reflexivity.
    + destruct (Random.uniform (Py.float 0.85) (Py.float 1.0) s7)
        as [score s8'] eqn:E10.
      destruct (compromised_loop _ health0 s8')
        as [[heatmap2 health2] s9] eqn:E11.
      destruct (update_analytics rule_alerts true (ANALYTICS g) s9)
        as [A' s10] eqn:E12.
      exists speed, s1, r2, s2, health0, s3, r4, s4, true, s4, pkts, s5', now,
        s6, false, rule_alerts, s7, heatmap0, health0, s7, score, s8',
        heatmap2, health2, s9, A', s10. tick_facts. destruct (log_telemetry _ s10) as [[] s11]. reflexivity.
  - destruct (Random.random s4) as [r5 s5] eqn:E5.
    destruct (generate_can_packets _ s5) as [pkts s5'] eqn:E6.
    destruct (utcnow s5') as [now s6] eqn:E7.
    destruct (evaluate_rules _ (LAST_SNAPSHOT g) pkts s6)
      as [[rule_attack rule_alerts] s7] eqn:E8.
    cbn [Snapshot.heatmap Snapshot.ecu_health Snapshot.attack_active
         Snapshot.security_alerts Snapshot.can_anomaly_score Snapshot.speed
         Snapshot.brake_status Snapshot.can_packets Snapshot.forced_attack
         Snapshot.timestamp app].
    destruct rule_attack.
    + destruct (warning_loop _ health0 s7) as [[heatmap1 health1] s8] eqn:E9.
      destruct (update_analytics rule_alerts true (ANALYTICS g) s8)
        as [A' s10] eqn:E12.
      exists speed, s1, r2, s2, health0, s3, r4, s4,
        (Py.Qltb r5 (Py.float 0.1)), s5, pkts,
        s5', now, s6, true, rule_alerts, s7, heatmap1, health1, s8, 0%Q, s8,
        heatmap1, health1, s8, A', s10. tick_facts;
        [exists r5; split; [assumption|reflexivity]
        |destruct (log_telemetry _ s10) as [[] s11]; reflexivity].
    + destruct (update_analytics rule_alerts false (ANALYTICS g) s7)
        as [A' s10] eqn:E12.
      exists speed, s1, r2, s2, health0, s3, r4, s4,
        (Py.Qltb r5 (Py.float 0.1)), s5, pkts,
        s5', now, s6, false, rule_alerts, s7, heatmap0, health0, s7, 0%Q, s7,
        heatmap0, health0, s7, A', s10. tick_facts;
        [exists r5; split; [assumption|reflexivity]
        |destruct (log_telemetry _ s10) as [[] s11]; reflexivity].
Qed.

(** ** Attacker addresses *)

Lemma randint_run a b s :
  Random.randint a b s
  = ((a + Z.of_N (draws s (drawn s)) mod (b - a + 1))%Z,
     {| draws := draws s; drawn := S (drawn s); utc := utc s;
        reads := reads s; disk_append := disk_append s; writes := writes s;
        LOG_FILE := LOG_FILE s |}).
Proof. reflexivity. Qed.

Lemma randint_bounds a b s :
  (a ≤ b)%Z → (a ≤ (Random.randint a b s).1 ≤ b)%Z.
Proof.
  intros Hab. rewrite randint_run. cbn [fst].
  pose proof (Z.mod_pos_bound (Z.of_N (draws s (drawn s))) (b - a + 1)).
  lia.
Qed.

(** What one call of [random_ip] returns and leaves. *)
Lemma random_ip_run s :
  ∃ ip, is_ip ip ∧ random_ip s = (ip, advance 4 0 s).
Proof.
  unfold random_ip. cbn [times]. unfold_M. rewrite !randint_run.
  cbn [fst snd draws drawn utc reads disk_append writes LOG_FILE].
  eexists. split; [|reflexivity].
  set (octet := fun n => (1 + Z.of_N (draws s n) mod (254 - 1 + 1))%Z).
  assert (Ho : ∀ n, (1 ≤ octet n ≤ 254)%Z).
  { intros n. unfold octet.
    pose proof (Z.mod_pos_bound (Z.of_N (draws s n)) (254 - 1 + 1)). lia. }
  exists (octet (drawn s)), (octet (S (drawn s))),
    (octet (S (S (drawn s)))), (octet (S (S (S (drawn s))))).
  repeat (split; [apply Ho|]). reflexivity.
Qed.

(** X1. [random_ip] returns four decimal octets, each between 1 and 254,
    joined by dots; it consumes exactly four draws and touches nothing else
    of the outside world. *)
Theorem random_ip_is_dotted_quad (s : Sys) :
  is_ip (random_ip s).1
  ∧ (random_ip s).2
    = {| draws := draws s; drawn := 4 + drawn s; utc := utc s;
         reads := reads s; disk_append := disk_append s; writes := writes s;
         LOG_FILE := LOG_FILE s |}.
Proof. destruct (random_ip_run s) as (ip & Hip & ->). by split. Qed.

(** ** The frame generator *)

Lemma advance_advance d1 r1 d2 r2 s :
  advance d2 r2 (advance d1 r1 s) = advance (d1 + d2) (r1 + r2) s.
Proof. unfold advance. cbn [draws drawn utc reads disk_append writes LOG_FILE]. f_equal; lia. Qed.

Lemma advance_0 s : advance 0 0 s = s.
Proof. by destruct s. Qed.

(** One pass of the loop: the frame drawn in the current world is appended,
    eleven draws and one clock reading are consumed. *)
Lemma can_packet_loop_pass n attack_hint packets s :
  can_packet_loop (S n) attack_hint packets s
  = can_packet_loop n attack_hint (packets ++ [frame_drawn attack_hint s])
      (advance 11 1 s).
Proof. reflexivity. Qed.

(** The whole loop in closed form. *)
Lemma can_packet_loop_spec n attack_hint packets s :
  can_packet_loop n attack_hint packets s
  = (packets
     ++ map (fun i => frame_drawn attack_hint (advance (11 * i) i s)) (seq 0 n),
     advance (11 * n) n s).
Proof.
  revert packets s. induction n as [|n IH]; intros packets s.
  - cbn [can_packet_loop seq map]. unfold mret, M_ret.
    by rewrite app_nil_r, advance_0.
  - rewrite can_packet_loop_pass, IH. cbn [seq map].
    rewrite <- app_assoc. cbn [app]. rewrite advance_0.
    rewrite <- seq_shift, map_map. f_equal.
    + do 2 f_equal. apply map_ext. intros i. rewrite advance_advance.
      do 2 f_equal; lia.
    + rewrite advance_advance. f_equal; lia.
Qed.

(** The fifteen frames of a call, and the world it leaves. *)
Lemma generate_can_packets_run attack_hint s pkts s' :
  generate_can_packets attack_hint s = (pkts, s') →
  pkts = map (fun i => frame_drawn attack_hint (advance (11 * i) i s))
             (seq 0 15)
  ∧ s' = advance 165 15 s.
Proof.
  unfold generate_can_packets. rewrite can_packet_loop_spec.
  intros [Hp Hs]%pair_equal_spec. by split.
Qed.

Lemma string_length_app (a b : string) :
  String.length (a +:+ b) = (String.length a + String.length b)%nat.
Proof.
  induction a as [|c a IH]; [done|].
  change (S (String.length (a +:+ b))
          = S (String.length a + String.length b))%nat. by f_equal.
Qed.

(** A byte prints as exactly two characters. *)
Lemma format_02X_length b :
  (0 ≤ b ≤ 255)%Z → String.length (Py.format_02X b) = 2%nat.
Proof.
  intros Hb.
  assert (Hall : forallb (fun n => String.length (Py.format_02X (Z.of_nat n))
                                   =? 2)%nat (seq 0 256) = true)
    by (vm_compute; reflexivity).
  rewrite forallb_forall in Hall.
  specialize (Hall (Z.to_nat b)). rewrite Z2Nat.id in Hall by lia.
  apply Nat.eqb_eq, Hall, in_seq. lia.
Qed.

Lemma frame_drawn_well_formed attack_hint s :
  well_formed_frame (frame_drawn attack_hint s).
Proof.
  unfold well_formed_frame, frame_drawn.
  cbn [Packet.dlc Packet.ecu Packet.id Packet.data].
  assert (Hbyte : ∀ i, (0 ≤ 0 + Z.of_N (draws s (i + drawn s)) mod (255 - 0 + 1)
                        ≤ 255)%Z).
  { intros i.
    pose proof (Z.mod_pos_bound (Z.of_N (draws s (i + drawn s))) (255 - 0 + 1)).
    lia. }
  split; [done|]. split; [|split; [|split]].
  - apply list_elem_of_In, nth_In.
    pose proof (N.mod_lt (draws s (drawn s)) (N.of_nat (length ECU_NAMES))).
    cbn [length ECU_NAMES] in *. lia.
  - eexists. split; [|reflexivity].
    pose proof (Z.mod_pos_bound (Z.of_N (draws s (1 + drawn s)))
                  (2047 - 256 + 1)). lia.
  - eexists (map _ (seq 2 8)). split; [by rewrite length_map|].
    split; [|by rewrite map_map].
    apply Forall_forall. intros b (i & -> & _)%list_elem_of_fmap. apply Hbyte.
  - cbn [seq map Py.join String.concat].
    rewrite !string_length_app, !format_02X_length by apply Hbyte. reflexivity.
Qed.

(** X2. Whatever the hint, [generate_can_packets] returns exactly 15
    frames, each with length code 8, the name of a known unit, an identifier
    that is [hex] of a number from 0x100 to 0x7FF, and a payload of eight
    bytes in two-digit upper-case hexadecimal separated by spaces, 23
    characters in all. *)
Theorem can_frames_well_formed (attack_hint : bool) (s : Sys) :
  length (generate_can_packets attack_hint s).1 = 15%nat
  ∧ Forall well_formed_frame (generate_can_packets attack_hint s).1.
Proof.
  unfold generate_can_packets. rewrite can_packet_loop_spec. cbn [fst app].
  split; [by rewrite length_map, length_seq|].
  apply Forall_forall. intros p (i & -> & _)%list_elem_of_fmap.
  apply frame_drawn_well_formed.
Qed.

Lemma Qltb_weaken (r lo hi : Q) :
  (lo <= hi)%Q → Py.Qltb r lo = true → Py.Qltb r hi = true.
Proof.
  unfold Py.Qltb. rewrite !negb_true_iff. intros Hle Hlo.
  destruct (Qle_bool hi r) eqn:Hhi; [|done].
  apply Qle_bool_iff in Hhi.
  assert (Hlr : Qle_bool lo r = true)
    by (apply Qle_bool_iff; by apply Qle_trans with hi).
  congruence.
Qed.

(** X3. On the same random source and clock, the frames generated with the
    attack hint differ from those generated without it at most in their
    anomaly flags, and every frame flagged without the hint is flagged with
    it: the hint only adds anomalies, and both runs leave the same world.
    The flag compares the draw with the float 0.35 or the float 0.03. *)
Theorem attack_hint_only_adds_anomalies (s : Sys) :
  Forall2 at_least_as_anomalous
    (generate_can_packets false s).1 (generate_can_packets true s).1
  ∧ (length (List.filter Packet.anomaly (generate_can_packets false s).1)
     ≤ length (List.filter Packet.anomaly (generate_can_packets true s).1))%nat
  ∧ (generate_can_packets false s).2 = (generate_can_packets true s).2.
Proof.
  unfold generate_can_packets. rewrite !can_packet_loop_spec. cbn [fst snd app].
  assert (H : Forall2 at_least_as_anomalous
                (map (fun i => frame_drawn false (advance (11 * i) i s))
                     (seq 0 15))
                (map (fun i => frame_drawn true (advance (11 * i) i s))
                     (seq 0 15))).
  { apply Forall2_fmap, Forall_Forall2_diag, Forall_forall. intros i _.
    unfold at_least_as_anomalous, frame_drawn.
    cbn [Packet.timestamp Packet.id Packet.ecu Packet.dlc Packet.data
         Packet.anomaly].
    repeat (split; [reflexivity|]). apply Qltb_weaken.
    vm_compute. discriminate. }
  split; [exact H|]. split; [|done].
  induction H as [|p q l k Hpq _ IH]; [done|]. cbn [List.filter].
  destruct Hpq as (_ & _ & _ & _ & _ & Hpq).
  destruct (Packet.anomaly p); [rewrite Hpq by done; cbn [length]; lia|].
  destruct (Packet.anomaly q); cbn [length]; lia.
Qed.

(** ** What the disk cannot change *)

Lemma blind_run_ticks n g : blind (run_ticks n g).
Proof.
  revert g. induction n as [|n IH]; intros g; cbn [run_ticks];
    [apply blind_ret|].
  apply blind_bind; [apply blind_generate_telemetry|]. intros [snapshot g1].
  apply blind_bind; [apply IH|]. intros [rest g2]. apply blind_ret.
Qed.

(** X4. A failing or succeeding log write never shows in what the ticks
    return: from two worlds with the same random source and clock, whatever
    their disks and logs, any number of ticks returns the same snapshots and
    leaves the same globals, and the same random source and clock. *)
Theorem log_never_affects_ticks (n : nat) (g : Globals) (s s' : Sys) :
  sources s = sources s' →
  (run_ticks n g s).1 = (run_ticks n g s').1
  ∧ sources (run_ticks n g s).2 = sources (run_ticks n g s').2.
Proof. apply blind_run_ticks. Qed.

(** X5. A tick attempts exactly one append to the log, of the snapshot it
    returns, and what was in the file before stays in front, as it was.
    When the write goes through, the file gains the whole line of that
    snapshot; when it fails, the failure is swallowed and the file gains
    either nothing or, if the write failed part-way, the first characters of
    that line. *)
Theorem tick_logs_its_snapshot (g : Globals) (s : Sys) :
  let snapshot := (generate_telemetry g s).1.1 in
  let s' := (generate_telemetry g s).2 in
  disk_append s' = disk_append s
  ∧ writes s' = S (writes s)
  ∧ LOG_FILE s' = LOG_FILE s ++ match disk_append s (writes s) with
                                | Written => [Whole snapshot]
                                | Refused => []
                                | Cut kept => [Truncated kept snapshot]
                                end.
Proof.
  pose proof (logs_once_generate_telemetry g s) as H. unfold disk in H.
  destruct (generate_telemetry g s) as [[snapshot g'] s'].
  cbn [fst snd] in *. apply pair_equal_spec in H as [H H3].
  apply pair_equal_spec in H as [H1 H2]. auto.
Qed.

(** ** The rules as a whole *)

(** The flag tells whether an alert was raised; there are at most three,
    all HIGH or CRITICAL. *)
Lemma rule_attack_iff_alerts snapshot prev_snapshot can_packets s :
  let r := (evaluate_rules snapshot prev_snapshot can_packets s).1 in
  r.1 = any_alert r.2
  ∧ (length r.2 ≤ 3)%nat
  ∧ Forall (fun a => Alert.level a ∈ ["HIGH"; "CRITICAL"]) r.2.
Proof.
  destruct (evaluate_rules_spec snapshot prev_snapshot can_packets s)
    as (ip1 & ip2 & ip3 & s' & ->).
  cbn [fst snd].
  destruct prev_snapshot as [prev|];
    [destruct (60 <? _)%Z|];
    destruct (8 <=? _)%nat, (String.eqb _ _ && _);
    cbn [app orb any_alert length];
    (split; [reflexivity|]); (split; [lia|]);
    repeat constructor; set_solver.
Qed.

(** X6. [evaluate_rules] lists its alerts in the fixed order CAN, physics,
    brake, each at most once, so never more than three; the flag it returns
    is true exactly when the list is not empty, and every alert is HIGH or
    CRITICAL. *)
Theorem alerts_follow_rule_order
    (snapshot : Snapshot.t) (prev_snapshot : option Snapshot.t)
    (can_packets : list Packet.t) (s : Sys) :
  let rule_attack := (evaluate_rules snapshot prev_snapshot can_packets s).1.1 in
  let alerts := (evaluate_rules snapshot prev_snapshot can_packets s).1.2 in
  map Alert.attack_type alerts
    `sublist_of` ["DoS/Fuzzing"; "Physical Implausibility"; "Safety Violation"]
  ∧ map Alert.source alerts
      `sublist_of` ["Telematics"; "Engine ECU"; "Brake ECU"]
  ∧ (length alerts ≤ 3)%nat
  ∧ (rule_attack = true ↔ alerts ≠ [])
  ∧ Forall (fun a => Alert.level a ∈ ["HIGH"; "CRITICAL"]) alerts.
Proof.
  cbv zeta.
  destruct (rule_attack_iff_alerts snapshot prev_snapshot can_packets s)
    as (Hflag & Hlen & Hlevels).
  cbv zeta in Hflag. rewrite Hflag.
  split; [|split; [|split; [exact Hlen|split; [|exact Hlevels]]]].
  - destruct (evaluate_rules_spec snapshot prev_snapshot can_packets s)
      as (ip1 & ip2 & ip3 & s' & ->).
    cbn [fst snd]. rewrite !map_app.
    apply (sublist_app _ ["DoS/Fuzzing"] _
                       ["Physical Implausibility"; "Safety Violation"]);
      [destruct (_ <=? _)%nat; cbn [map]; [done|by apply sublist_cons]|].
    apply (sublist_app _ ["Physical Implausibility"] _ ["Safety Violation"]).
    + destruct prev_snapshot as [prev|]; [destruct (_ <? _)%Z|]; cbn [map];
        [done|by apply sublist_cons..].
    + destruct (_ && _); cbn [map]; [done|by apply sublist_cons].
  - destruct (evaluate_rules_spec snapshot prev_snapshot can_packets s)
      as (ip1 & ip2 & ip3 & s' & ->).
    cbn [fst snd]. rewrite !map_app.
    apply (sublist_app _ ["Telematics"] _ ["Engine ECU"; "Brake ECU"]);
      [destruct (_ <=? _)%nat; cbn [map]; [done|by apply sublist_cons]|].
    apply (sublist_app _ ["Engine ECU"] _ ["Brake ECU"]).
    + destruct prev_snapshot as [prev|]; [destruct (_ <? _)%Z|]; cbn [map];
        [done|by apply sublist_cons..].
    + destruct (_ && _); cbn [map]; [done|by apply sublist_cons].
  - destruct (evaluate_rules _ _ _ _).1.2; cbn [any_alert]; split; done.
Qed.

(** ** The snapshot of a tick *)

(** The fresh health dictionary has exactly the units as keys, each with a
    health in [0.8, 1.0]. *)
Lemma fresh_health s health0 s' :
  health_comprehension ECU_NAMES ∅ s = (health0, s') →
  (∀ name, name ∈ ECU_NAMES →
     ∃ h, health0 !! name = Some h
          ∧ (Py.float 0.8 <= h)%Q ∧ (h <= Py.float 1.0)%Q
          ∧ two_places 80 100 h)
  ∧ (∀ name, name ∉ ECU_NAMES → health0 !! name = None).
Proof.
  intros E. split; intros name Hname.
  - pose proof (health_comprehension_spec ECU_NAMES ∅ s name) as H.
    rewrite E in H. by apply H.
  - pose proof (health_comprehension_spec ECU_NAMES ∅ s name) as H.
    rewrite E in H. cbn [fst] in H. destruct H as [_ H]. by rewrite H.
Qed.

(** The loop run when a rule fired gives each of the three names that names
    a cell a health in [0.3, 0.7]. *)
Lemma warning_loop_range cells health s k :
  k ∈ degraded_names → k ∈ map Cell.name cells →
  ∃ v, (warning_loop cells health s).1.2 !! k = Some v
       ∧ (Py.float 0.3 <= v)%Q ∧ (v <= Py.float 0.7)%Q
       ∧ two_places 30 70 v.
Proof.
  intros Hdeg. revert health s.
  induction cells as [|c rest IH]; intros health s Hk;
    [by apply elem_of_nil in Hk|].
  cbn [warning_loop]. unfold_M. fold degraded_names.
  destruct (decide (Cell.name c ∈ degraded_names)) as [Hc|Hc].
  - destruct (uniform_run (Py.float 0.3) (Py.float 0.7) s) as [s1 ->].
    set (health1 := <[Cell.name c:=_]> health).
    destruct (decide (k ∈ map Cell.name rest)) as [Hr|Hr].
    + specialize (IH health1 s1 Hr).
      destruct (warning_loop rest health1 s1) as [[rest' health'] s2].
      exact IH.
    + pose proof (warning_loop_spec rest health1 s1) as Hw.
      destruct (warning_loop rest health1 s1) as [[rest' health'] s2].
      cbn [fst snd] in *. destruct Hw as [_ Hw].
      rewrite Hw by (by right).
      apply elem_of_cons in Hk as [->|Hk]; [|done].
      subst health1. rewrite lookup_insert_eq. eexists. split; [done|].
      uniform_bounds 30%Z 70%Z.
  - assert (Hr : k ∈ map Cell.name rest).
    { apply elem_of_cons in Hk as [->|Hk]; done. }
    specialize (IH health s Hr).
    destruct (warning_loop rest health s) as [[rest' health'] s2].
    exact IH.
Qed.

(** The two loops of a tick together: what they leave of the fresh heatmap
    and health, by mode and by whether a rule fired. *)
Lemma tick_loops_spec (forced rule_fired : bool) health0 s7 heatmap1 health1
    s8 score s8' heatmap2 health2 s9 :
  let heatmap0 :=
    map (fun e => {| Cell.name := e; Cell.status := "ok" |}) ECU_NAMES in
  (∀ name, name ∈ ECU_NAMES →
     ∃ h, health0 !! name = Some h
          ∧ (Py.float 0.8 <= h)%Q ∧ (h <= Py.float 1.0)%Q
          ∧ two_places 80 100 h) →
  (∀ name, name ∉ ECU_NAMES → health0 !! name = None) →
  (if rule_fired
   then warning_loop heatmap0 health0 s7 = ((heatmap1, health1), s8)
   else (heatmap1, health1, s8) = (heatmap0, health0, s7)) →
  (if forced
   then Random.uniform (Py.float 0.85) (Py.float 1.0) s8 = (score, s8')
        ∧ compromised_loop heatmap1 health1 s8' = ((heatmap2, health2), s9)
   else (heatmap2, health2, s9) = (heatmap1, health1, s8)) →
  heatmap2
  = map (fun e => {| Cell.name := e;
                     Cell.status := tick_status forced rule_fired e |})
        ECU_NAMES
  ∧ (∀ name, name ∈ ECU_NAMES →
       ∃ h, health2 !! name = Some h
            ∧ ((tick_health_range forced rule_fired name).1 <= h)%Q
            ∧ (h <= (tick_health_range forced rule_fired name).2)%Q
            ∧ two_places (tick_health_places forced rule_fired name).1
                         (tick_health_places forced rule_fired name).2 h)
  ∧ (∀ name, name ∉ ECU_NAMES → health2 !! name = None).
Proof.
  intros heatmap0 Hin Hout Hwarn Hforce.
  (* after the loop of a fired rule *)
  assert (H1 : heatmap1
               = map (fun e => {| Cell.name := e;
                                  Cell.status := tick_status false rule_fired e |})
                     ECU_NAMES
               ∧ (∀ name, name ∈ ECU_NAMES →
                    ∃ h, health1 !! name = Some h
                         ∧ ((tick_health_range false rule_fired name).1 <= h)%Q
                         ∧ (h <= (tick_health_range false rule_fired name).2)%Q
                         ∧ two_places
                             (tick_health_places false rule_fired name).1
                             (tick_health_places false rule_fired name).2 h)
               ∧ (∀ name, name ∉ ECU_NAMES → health1 !! name = None)).
  { destruct rule_fired.
    - pose proof (warning_loop_spec heatmap0 health0 s7) as Hw.
      rewrite Hwarn in Hw. cbn [fst snd] in Hw. destruct Hw as [-> Hw].
      split; [reflexivity|]. split.
      + intros name Hname. unfold tick_health_range, tick_health_places.
        cbn [andb].
        destruct (bool_decide_reflect (name ∈ degraded_names)) as [Hd|Hd].
        * pose proof (warning_loop_range heatmap0 health0 s7 name Hd) as Hr.
          rewrite Hwarn in Hr. apply Hr. exact Hname.
        * rewrite Hw by (by left). by apply Hin.
      + intros name Hname. rewrite Hw; [by apply Hout|].
        right. exact Hname.
    - injection Hwarn as -> -> _. split; [reflexivity|].
      split; [|done]. intros name Hname. by apply Hin. }
  destruct H1 as (Hcells1 & Hin1 & Hout1).
  destruct forced.
  - destruct Hforce as [_ Hloop].
    pose proof (compromised_loop_spec heatmap1 health1 s8') as Hc.
    rewrite Hloop in Hc. cbn [fst snd] in Hc. destruct Hc as [-> Hc].
    assert (Hnames : map Cell.name heatmap1 = ECU_NAMES)
      by (rewrite Hcells1, map_map; apply map_id).
    split; [by rewrite Hcells1, map_map|]. split.
    + intros name Hname. apply Hc. by rewrite Hnames.
    + intros name Hname. destruct (Hc name) as [_ Hkeep].
      rewrite Hkeep; [by apply Hout1|by rewrite Hnames].
  - by injection Hforce as -> -> _.
Qed.

Ltac tick_trace g s :=
  destruct (generate_telemetry_trace g s)
    as (speed & s1 & r2 & s2 & health0 & s3 & r4 & s4 & hint & s5 & pkts & s5'
        & now & s6 & rule_attack & rule_alerts & s7 & heatmap1 & health1 & s8
        & score & s8' & heatmap2 & health2 & s9 & A' & s10
        & E1 & E2 & E3 & E4 & Ehint & Epkts & Enow & H);
  cbn zeta in H; destruct H as (Erules & Hwarn & Hforce & Eupd & Etick).

Lemma random_bounds s :
  (0 <= (Random.random s).1)%Q ∧ ((Random.random s).1 < 1)%Q.
Proof. apply unit_of_bounds. Qed.

(** X7. Every snapshot a tick returns has a speed from 0 to 140, a brake
    status that is "ON" or "OFF", exactly 15 well-formed frames, at most
    three alerts, the switch copied into [forced_attack], and a CAN anomaly
    score in [0.85, 1.0] when forced and in [0, 0.2] when not: between those
    floats as Python compares them, and a float with two decimal places. *)
Theorem tick_snapshot_invariants (g : Globals) (s : Sys) :
  let snapshot := (generate_telemetry g s).1.1 in
  (0 ≤ Snapshot.speed snapshot ≤ 140)%Z
  ∧ Snapshot.brake_status snapshot ∈ ["ON"; "OFF"]
  ∧ length (Snapshot.can_packets snapshot) = 15%nat
  ∧ Forall well_formed_frame (Snapshot.can_packets snapshot)
  ∧ (length (Snapshot.security_alerts snapshot) ≤ 3)%nat
  ∧ Snapshot.forced_attack snapshot = FORCE_ATTACK g
  ∧ (if Snapshot.forced_attack snapshot
     then (Py.float 0.85 <= Snapshot.can_anomaly_score snapshot)%Q
          ∧ (Snapshot.can_anomaly_score snapshot <= Py.float 1.0)%Q
          ∧ two_places 85 100 (Snapshot.can_anomaly_score snapshot)
     else (0 <= Snapshot.can_anomaly_score snapshot)%Q
          ∧ (Snapshot.can_anomaly_score snapshot <= Py.float 0.2)%Q
          ∧ two_places 0 20 (Snapshot.can_anomaly_score snapshot)).
Proof.
  tick_trace g s. rewrite Etick.
  cbn [fst snd Snapshot.speed Snapshot.brake_status Snapshot.can_packets
       Snapshot.security_alerts Snapshot.forced_attack
       Snapshot.can_anomaly_score].
  split; [|split; [|split; [|split; [|split; [|split; [reflexivity|]]]]]].
  - pose proof (randint_bounds 0 140 s) as Hb. rewrite E1 in Hb.
    apply Hb. lia.
  - clear. destruct (Py.Qltb r2 (Py.float 0.25)); rewrite !elem_of_cons; tauto.
  - destruct (generate_can_packets_run _ _ _ _ Epkts) as [-> _].
    by rewrite length_map, length_seq.
  - destruct (generate_can_packets_run _ _ _ _ Epkts) as [-> _].
    apply Forall_forall. intros p (i & -> & _)%list_elem_of_fmap.
    apply frame_drawn_well_formed.
  - match type of Erules with
    | evaluate_rules ?snapshot0 ?prev _ _ = _ =>
        pose proof (rule_attack_iff_alerts snapshot0 prev pkts s6) as Hr
    end.
    rewrite Erules in Hr. apply Hr.
  - destruct (FORCE_ATTACK g).
    + destruct Hforce as [Hscore _].
      destruct (uniform_run (Py.float 0.85) (Py.float 1.0) s8) as [s8'' Hu].
      rewrite Hu in Hscore. apply pair_equal_spec in Hscore as [<- _].
      uniform_bounds 85%Z 100%Z.
    + assert (Hr4 : r4 = Random.unit_of (draws s3 (drawn s3)))
        by (apply (f_equal fst) in E4; symmetry; exact E4).
      rewrite Hr4.
      apply (round2_scaled_bounds (Py.float 0.2) 0 (Py.float 0.2) 0 20).
      vm_compute. reflexivity.
Qed.

(** X8. The heatmap and the health of every tick follow from its own
    flags: the heatmap lists the six units in order, each "compromised" when
    the snapshot is forced, else "warning" for Engine ECU, Brake ECU and
    Telematics when it holds an alert, else "ok"; the health dictionary has
    exactly the six units as keys, each value in [0.2, 0.5], [0.3, 0.7] or
    [0.8, 1.0] accordingly: between those floats as Python compares them,
    and a float with two decimal places. *)
Theorem tick_heatmap_and_health (g : Globals) (s : Sys) :
  let snapshot := (generate_telemetry g s).1.1 in
  let forced := Snapshot.forced_attack snapshot in
  let rule_fired := any_alert (Snapshot.security_alerts snapshot) in
  Snapshot.heatmap snapshot
  = map (fun e => {| Cell.name := e;
                     Cell.status := tick_status forced rule_fired e |})
        ECU_NAMES
  ∧ (∀ name, name ∈ ECU_NAMES →
       ∃ h, Snapshot.ecu_health snapshot !! name = Some h
            ∧ ((tick_health_range forced rule_fired name).1 <= h)%Q
            ∧ (h <= (tick_health_range forced rule_fired name).2)%Q
            ∧ two_places (tick_health_places forced rule_fired name).1
                         (tick_health_places forced rule_fired name).2 h)
  ∧ (∀ name, name ∉ ECU_NAMES → Snapshot.ecu_health snapshot !! name = None).
Proof.
  tick_trace g s. rewrite Etick.
  cbn [fst snd Snapshot.heatmap Snapshot.ecu_health Snapshot.security_alerts
       Snapshot.forced_attack].
  match type of Erules with
  | evaluate_rules ?snapshot0 ?prev _ _ = _ =>
      pose proof (rule_attack_iff_alerts snapshot0 prev pkts s6) as Hr
  end.
  rewrite Erules in Hr. cbn [fst snd] in Hr. destruct Hr as [<- _].
  destruct (fresh_health _ _ _ E3) as [Hin Hout].
  exact (tick_loops_spec (FORCE_ATTACK g) rule_attack health0 s7 heatmap1
           health1 s8 score s8' heatmap2 health2 s9 Hin Hout Hwarn Hforce).
Qed.

(** ** Consecutive ticks *)

(** An Engine ECU alert is among the alerts exactly when there is a previous
    snapshot whose speed differs by more than 60. *)
Lemma engine_alert_iff snapshot prev_snapshot can_packets s :
  (∃ a, a ∈ (evaluate_rules snapshot prev_snapshot can_packets s).1.2
        ∧ Alert.source a = "Engine ECU")
  ↔ match prev_snapshot with
    | Some prev =>
        (60 < Z.abs (Snapshot.speed snapshot - Snapshot.speed prev))%Z
    | None => False
    end.
Proof.
  destruct (evaluate_rules_spec snapshot prev_snapshot can_packets s)
    as (ip1 & ip2 & ip3 & s' & ->).
  cbn [fst snd].
  assert (Hnot : ∀ (b : bool) (a0 a : Alert.t),
            Alert.source a0 ≠ "Engine ECU" →
            a ∈ (if b then [a0] else []) → Alert.source a ≠ "Engine ECU").
  { intros [] a0 a H0 Ha; [|by apply elem_of_nil in Ha].
    apply list_elem_of_singleton in Ha. by subst. }
  split.
  - intros (a & Ha & Hsrc).
    apply elem_of_app in Ha as [Ha|Ha];
      [apply Hnot in Ha; [done|cbn [Alert.source]; discriminate]|].
    apply elem_of_app in Ha as [Ha|Ha];
      [|apply Hnot in Ha; [done|cbn [Alert.source]; discriminate]].
    destruct prev_snapshot as [prev|]; [|by apply elem_of_nil in Ha].
    destruct (Z.ltb_spec 60 (Z.abs (Snapshot.speed snapshot
                                    - Snapshot.speed prev))); [done|].
    by apply elem_of_nil in Ha.
  - destruct prev_snapshot as [prev|]; [|done]. intros Hd.
    apply Z.ltb_lt in Hd. rewrite Hd. eexists.
    split; [apply elem_of_app; right; apply elem_of_app; left;
            apply list_elem_of_singleton; reflexivity|reflexivity].
Qed.

(** X9. The snapshot a tick returns becomes the previous snapshot of the
    next one, and the switch is left as it was: so of two consecutive ticks
    the second holds an Engine ECU alert exactly when its speed differs from
    the first one's by more than 60, and a tick with no previous snapshot
    holds none. *)
Theorem physics_rule_compares_consecutive_ticks (g : Globals) (s : Sys) :
  let first := generate_telemetry g s in
  let second := generate_telemetry first.1.2 first.2 in
  LAST_SNAPSHOT first.1.2 = Some first.1.1
  ∧ FORCE_ATTACK first.1.2 = FORCE_ATTACK g
  ∧ ((∃ a, a ∈ Snapshot.security_alerts second.1.1
           ∧ Alert.source a = "Engine ECU")
     ↔ (60 < Z.abs (Snapshot.speed second.1.1 - Snapshot.speed first.1.1))%Z)
  ∧ ∀ (forced : bool) (A : Analytics.t),
      ¬ ∃ a, a ∈ Snapshot.security_alerts
                   (generate_telemetry
                      {| FORCE_ATTACK := forced; ANALYTICS := A;
                         LAST_SNAPSHOT := None |} s).1.1
             ∧ Alert.source a = "Engine ECU".
Proof.
  assert (Hone : ∀ g s,
    let tick := generate_telemetry g s in
    LAST_SNAPSHOT tick.1.2 = Some tick.1.1
    ∧ FORCE_ATTACK tick.1.2 = FORCE_ATTACK g
    ∧ ((∃ a, a ∈ Snapshot.security_alerts tick.1.1
             ∧ Alert.source a = "Engine ECU")
       ↔ match LAST_SNAPSHOT g with
         | Some prev =>
             (60 < Z.abs (Snapshot.speed tick.1.1 - Snapshot.speed prev))%Z
         | None => False
         end)).
  { clear. intros g s. tick_trace g s. rewrite Etick.
    cbn [fst snd LAST_SNAPSHOT FORCE_ATTACK Snapshot.security_alerts
         Snapshot.speed].
    split; [reflexivity|]. split; [reflexivity|].
    match type of Erules with
    | evaluate_rules ?snapshot0 ?prev _ _ = _ =>
        pose proof (engine_alert_iff snapshot0 prev pkts s6) as He
    end.
    rewrite Erules in He. exact He. }
  cbv zeta. destruct (Hone g s) as (Hlast & Hforce & _).
  split; [exact Hlast|]. split; [exact Hforce|]. split.
  - destruct (Hone (generate_telemetry g s).1.2 (generate_telemetry g s).2)
      as (_ & _ & Hphys).
    cbv zeta in Hphys. rewrite Hlast in Hphys. exact Hphys.
  - intros forced A.
    destruct (Hone {| FORCE_ATTACK := forced; ANALYTICS := A;
                      LAST_SNAPSHOT := None |} s) as (_ & _ & Hphys).
    cbv zeta in Hphys. cbn [LAST_SNAPSHOT] in Hphys.
    intros Hex. apply Hphys in Hex. exact Hex.
Qed.

(** ** The clock *)

Lemma clocked_generate_can_packets hint : clocked 15 (generate_can_packets hint).
Proof.
  intros s. exists 165%nat.
  destruct (generate_can_packets hint s) as [pkts s'] eqn:E.
  destruct (generate_can_packets_run _ _ _ _ E) as [_ ->].
  unfold sources, advance. cbn [snd draws drawn utc reads].
  by rewrite (Nat.add_comm 165), (Nat.add_comm 15).
Qed.

(** The clock through a tick: untouched up to the frames, read 15 times for
    them, once for the snapshot, and not again until the aggregator. *)
Lemma tick_clock g s :
  ∃ hint s5 rule_alerts aa s9,
    Snapshot.can_packets (generate_telemetry g s).1.1
    = (generate_can_packets hint s5).1
    ∧ utc s5 = utc s ∧ reads s5 = reads s
    ∧ Snapshot.timestamp (generate_telemetry g s).1.1
      = strftime_Ymd_HMS (utc s (reads s + 15))
    ∧ Snapshot.security_alerts (generate_telemetry g s).1.1 = rule_alerts
    ∧ Snapshot.attack_active (generate_telemetry g s).1.1 = aa
    ∧ ANALYTICS (generate_telemetry g s).1.2
      = (update_analytics rule_alerts aa (ANALYTICS g) s9).1
    ∧ utc s9 = utc s ∧ reads s9 = (reads s + 16)%nat
    ∧ utc (generate_telemetry g s).2 = utc s
    ∧ reads (generate_telemetry g s).2 = (reads s + 17)%nat.
Proof.
  tick_trace g s. rewrite Etick.
  cbn [fst snd Snapshot.can_packets Snapshot.timestamp ANALYTICS
       Snapshot.security_alerts Snapshot.attack_active].
  destruct (clocked_run 0 _ _ _ _ (clocked_randint 0 140) E1) as [U1 R1].
  destruct (clocked_run 0 _ _ _ _ clocked_random E2) as [U2 R2].
  destruct (clocked_run 0 _ _ _ _ (clocked_health_comprehension _ _) E3)
    as [U3 R3].
  destruct (clocked_run 0 _ _ _ _ clocked_random E4) as [U4 R4].
  assert (U5 : utc s5 = utc s4 ∧ reads s5 = (reads s4 + 0)%nat).
  { destruct (FORCE_ATTACK g).
    - injection Ehint as _ ->. split; [reflexivity|lia].
    - destruct Ehint as (r5 & E5 & _).
      exact (clocked_run 0 _ _ _ _ clocked_random E5). }
  destruct U5 as [U5 R5].
  destruct (clocked_run 15 _ _ _ _ (clocked_generate_can_packets hint) Epkts)
    as [U5' R5'].
  destruct (clocked_run 1 _ _ _ _ clocked_utcnow Enow) as [U6 R6].
  destruct (clocked_run 0 _ _ _ _ (clocked_evaluate_rules _ _ _) Erules)
    as [U7 R7].
  assert (U8 : utc s8 = utc s7 ∧ reads s8 = (reads s7 + 0)%nat).
  { destruct rule_attack.
    - exact (clocked_run 0 _ _ _ _ (clocked_warning_loop _ _) Hwarn).
    - injection Hwarn as _ _ ->. split; [reflexivity|lia]. }
  destruct U8 as [U8 R8].
  assert (U9 : utc s9 = utc s8 ∧ reads s9 = (reads s8 + 0)%nat).
  { destruct (FORCE_ATTACK g).
    - destruct Hforce as [Eu El].
      destruct (clocked_run 0 _ _ _ _ (clocked_uniform _ _) Eu) as [Ua Ra].
      destruct (clocked_run 0 _ _ _ _ (clocked_compromised_loop _ _) El)
        as [Ub Rb].
      split; [congruence|lia].
    - injection Hforce as _ _ ->. split; [reflexivity|lia]. }
  destruct U9 as [U9 R9].
  destruct (clocked_run 1 _ _ _ _ (clocked_update_analytics _ _ _) Eupd)
    as [U10 R10].
  assert (Unow : now = utc s (reads s + 15)).
  { unfold utcnow in Enow. injection Enow as <- _.
    rewrite U5', U5, U4, U3, U2, U1. f_equal. lia. }
  exists hint, s5, rule_alerts, (rule_attack || FORCE_ATTACK g), s9.
  rewrite Epkts, Eupd. cbn [fst snd].
  split; [reflexivity|]. split; [congruence|]. split; [lia|].
  split; [rewrite Unow; reflexivity|]. split; [reflexivity|]. split; [reflexivity|].
  split; [reflexivity|]. split; [congruence|]. split; [lia|].
  unfold log_telemetry. cbn [snd utc reads]. split; [congruence|lia].
Qed.

Lemma filter_all {A} (f : A → bool) (l : list A) :
  Forall (fun a => f a = true) l → List.filter f l = l.
Proof.
  induction 1 as [|a l Ha _ IH]; [done|]. cbn [List.filter].
  by rewrite Ha, IH.
Qed.

(** X10. A tick leaves, as the newest entry of the timeline, its own
    summary: stamped with the clock reading taken by the aggregator (the
    17th of the tick), the number of alerts of its snapshot as both the total
    and the critical count (every rule alert is HIGH or CRITICAL), and the
    snapshot's verdict. *)
Theorem tick_timeline_entry (g : Globals) (s : Sys) :
  let snapshot := (generate_telemetry g s).1.1 in
  let A' := ANALYTICS (generate_telemetry g s).1.2 in
  last (Analytics.events_timeline A')
  = Some {| Event.timestamp := strftime_HMS (utc s (reads s + 16));
            Event.total_alerts := length (Snapshot.security_alerts snapshot);
            Event.critical_alerts :=
              length (Snapshot.security_alerts snapshot);
            Event.attack_active := Snapshot.attack_active snapshot |}.
Proof.
  cbv zeta.
  destruct (tick_clock g s)
    as (hint & s5 & rule_alerts & aa & s9 & _ & _ & _ & _ & Halerts & Haa
        & -> & U9 & R9 & _).
  destruct (generate_telemetry_alerts g s) as (snapshot0 & pkts & s6 & Hrules).
  rewrite Haa. rewrite Halerts in *. clear Halerts Haa.
  assert (Hlevels : Forall (fun a => bool_decide
                                       (Alert.level a ∈ ["HIGH"; "CRITICAL"])
                                     = true) rule_alerts).
  { rewrite Hrules. eapply Forall_impl;
      [apply (rule_attack_iff_alerts snapshot0 (LAST_SNAPSHOT g) pkts s6)|].
    intros a Ha. by apply bool_decide_eq_true_2. }
  destruct (update_analytics_spec rule_alerts aa (ANALYTICS g) s9) as (-> & _).
  unfold tick_event. cbn [fst snd]. rewrite (filter_all _ _ Hlevels), U9, R9.
  set (e := {| Event.timestamp := _ |}).
  destruct (200 <? _)%nat eqn:Hfull; [|apply last_snoc].
  apply Nat.ltb_lt in Hfull. rewrite length_app in Hfull. cbn [length] in Hfull.
  rewrite drop_app_le by lia. apply last_snoc.
Qed.

(** X11. A tick reads the clock exactly 17 times: the frames are stamped, in
    order, with the first 15 readings, the snapshot with the 16th, and the
    17th is the aggregator's; the clock itself is not changed. *)
Theorem tick_reads_clock_17_times (g : Globals) (s : Sys) :
  let snapshot := (generate_telemetry g s).1.1 in
  let s' := (generate_telemetry g s).2 in
  map Packet.timestamp (Snapshot.can_packets snapshot)
  = map (fun i => strftime_HMS (utc s (reads s + i))) (seq 0 15)
  ∧ Snapshot.timestamp snapshot = strftime_Ymd_HMS (utc s (reads s + 15))
  ∧ utc s' = utc s
  ∧ reads s' = (reads s + 17)%nat.
Proof.
  cbv zeta.
  destruct (tick_clock g s)
    as (hint & s5 & rule_alerts & aa & s9 & -> & U5 & R5 & -> & _ & _ & _
        & _ & _ & -> & ->).
  split; [|done].
  destruct (generate_can_packets hint s5) as [pkts s5'] eqn:E.
  destruct (generate_can_packets_run _ _ _ _ E) as [-> _]. cbn [fst].
  rewrite map_map. apply map_ext. intros i.
  unfold frame_drawn, advance. cbn [Packet.timestamp utc reads].
  rewrite U5, R5. do 2 f_equal. lia.
Qed.

(** ** The counters, key by key *)

(** The three counters [update_analytics] leaves, as three separate loops
    over the alerts. *)
Lemma update_analytics_counters alerts attack_active A s :
  let A' := (update_analytics alerts attack_active A s).1 in
  Analytics.attack_counts_by_ecu A'
  = fold_left (fun c a => if bool_decide (Alert.source a ∈ ECU_NAMES)
                          then Counter.incr (Alert.source a) c else c)
              alerts (Analytics.attack_counts_by_ecu A)
  ∧ Analytics.attack_counts_by_type A'
    = fold_left (fun c a => Counter.incr (Alert.attack_type a) c)
                alerts (Analytics.attack_counts_by_type A)
  ∧ Analytics.attack_counts_by_attacker A'
    = fold_left (fun c a => Counter.incr (Alert.attacker_ip a) c)
                alerts (Analytics.attack_counts_by_attacker A).
Proof.
  unfold update_analytics. unfold_M. unfold utcnow.
  rewrite fold_count_alert. by cbn [fst snd].
Qed.

(** A counter fed the keys of the alerts that pass [p] keeps its entry, or
    its absence, at every key none of them carries. *)
Lemma fold_incr_lookup_other (p : Alert.t → bool) (key : Alert.t → string)
    alerts (c : gmap string nat) k :
  (∀ a, a ∈ alerts → p a = true → key a ≠ k) →
  fold_left (fun c a => if p a then Counter.incr (key a) c else c) alerts c
  !! k = c !! k.
Proof.
  revert c. induction alerts as [|a alerts IH]; intros c Hk; [done|].
  cbn [fold_left]. rewrite IH.
  - destruct (p a) eqn:Hp; [|done]. unfold Counter.incr.
    apply lookup_insert_ne, Hk; [apply elem_of_cons; by left|done].
  - intros b Hb. apply Hk, elem_of_cons. by right.
Qed.

Lemma occurrences_pos key alerts a :
  a ∈ alerts → (0 < occurrences key alerts (key a))%nat.
Proof.
  unfold occurrences. induction 1 as [a l|a b l _ IH]; cbn [List.filter].
  - rewrite String.eqb_refl. cbn [length]. lia.
  - destruct (String.eqb _ _); cbn [length]; lia.
Qed.

(** X12. The by-ECU ranking never gains or changes a key that is no ECU
    name: an alert attributed to anything else is passed over there, while
    every alert, whatever its source, raises the count of its attack type
    and of its attacker. *)
Theorem by_ecu_ranking_only_holds_units
    (alerts : list Alert.t) (attack_active : bool) (A : Analytics.t) (s : Sys) :
  let A' := (update_analytics alerts attack_active A s).1 in
  (∀ k, k ∉ ECU_NAMES →
        Analytics.attack_counts_by_ecu A' !! k
        = Analytics.attack_counts_by_ecu A !! k)
  ∧ (∀ k, Counter.get (Analytics.attack_counts_by_ecu A') k
          = (Counter.get (Analytics.attack_counts_by_ecu A) k
             + occurrences Alert.source (ecu_alerts alerts) k)%nat)
  ∧ (∀ a, a ∈ alerts →
          (Counter.get (Analytics.attack_counts_by_type A)
                       (Alert.attack_type a)
           < Counter.get (Analytics.attack_counts_by_type A')
                         (Alert.attack_type a))%nat
          ∧ (Counter.get (Analytics.attack_counts_by_attacker A)
                         (Alert.attacker_ip a)
             < Counter.get (Analytics.attack_counts_by_attacker A')
                           (Alert.attacker_ip a))%nat).
Proof.
  cbv zeta.
  destruct (update_analytics_counters alerts attack_active A s)
    as (Hecu & _ & _).
  destruct (update_analytics_spec alerts attack_active A s)
    as (_ & Gecu & Gtype & Gip & _).
  split; [|split].
  - intros k Hk. rewrite Hecu.
    apply (fold_incr_lookup_other
             (fun a => bool_decide (Alert.source a ∈ ECU_NAMES)) Alert.source).
    intros a _ Ha Heq. cbv beta in *. subst k.
    apply Hk. by apply bool_decide_eq_true_1 in Ha.
  - intros k. by rewrite Gecu, occurrences_ecu_alerts.
  - intros a Ha. rewrite Gtype, Gip.
    pose proof (occurrences_pos Alert.attack_type alerts a Ha).
    pose proof (occurrences_pos Alert.attacker_ip alerts a Ha). lia.
Qed.

(** X13. [update_analytics] changes a counter only at keys some alert of
    the tick carries: at every other key each of the three counters keeps its
    entry, or its absence; with no alerts at all the three counters are left
    exactly as they were, while the timeline still gains the tick's entry. *)
Theorem counters_change_only_at_alert_keys
    (alerts : list Alert.t) (attack_active : bool) (A : Analytics.t) (s : Sys) :
  let A' := (update_analytics alerts attack_active A s).1 in
  let A0 := (update_analytics [] attack_active A s).1 in
  (∀ k, k ∉ map Alert.source alerts →
        Analytics.attack_counts_by_ecu A' !! k
        = Analytics.attack_counts_by_ecu A !! k)
  ∧ (∀ k, k ∉ map Alert.attack_type alerts →
          Analytics.attack_counts_by_type A' !! k
          = Analytics.attack_counts_by_type A !! k)
  ∧ (∀ k, k ∉ map Alert.attacker_ip alerts →
          Analytics.attack_counts_by_attacker A' !! k
          = Analytics.attack_counts_by_attacker A !! k)
  ∧ Analytics.attack_counts_by_ecu A0 = Analytics.attack_counts_by_ecu A
  ∧ Analytics.attack_counts_by_type A0 = Analytics.attack_counts_by_type A
  ∧ Analytics.attack_counts_by_attacker A0
    = Analytics.attack_counts_by_attacker A
  ∧ last (Analytics.events_timeline A0)
    = Some {| Event.timestamp := strftime_HMS (utc s (reads s));
              Event.total_alerts := 0;
              Event.critical_alerts := 0;
              Event.attack_active := attack_active |}.
Proof.
  cbv zeta.
  destruct (update_analytics_counters alerts attack_active A s)
    as (-> & -> & ->).
  assert (Hother : ∀ (key : Alert.t → string) k a,
            k ∉ map key alerts → a ∈ alerts → key a ≠ k).
  { intros key k a Hk Ha <-. apply Hk, list_elem_of_fmap. by exists a. }
  split; [|split; [|split]].
  - intros k Hk.
    apply (fold_incr_lookup_other
             (fun a => bool_decide (Alert.source a ∈ ECU_NAMES)) Alert.source).
    intros a Ha _. by apply (Hother Alert.source).
  - intros k Hk.
    apply (fold_incr_lookup_other (fun _ => true) Alert.attack_type).
    intros a Ha _. by apply (Hother Alert.attack_type).
  - intros k Hk.
    apply (fold_incr_lookup_other (fun _ => true) Alert.attacker_ip).
    intros a Ha _. by apply (Hother Alert.attacker_ip).
  - destruct (update_analytics_counters [] attack_active A s) as (-> & -> & ->).
    repeat (split; [reflexivity|]).
    destruct (update_analytics_spec [] attack_active A s) as (-> & _).
    destruct (200 <? _)%nat eqn:Hfull; [|apply last_snoc].
    apply Nat.ltb_lt in Hfull. rewrite length_app in Hfull. cbn [length] in Hfull.
    rewrite drop_app_le by lia. apply last_snoc.
Qed.

(** ** The alerts of a call *)

Lemma yields_ret {A} (P : A → Prop) (a : A) : P a → yields P (mret a).
Proof. by intros H s. Qed.

Lemma yields_bind {A B} (Q : A → Prop) (P : B → Prop) (m : M A) (k : A → M B) :
  yields Q m → (∀ a, Q a → yields P (k a)) → yields P (m ≫= k).
Proof.
  intros Hm Hk s. unfold mbind, M_bind. specialize (Hm s).
  destruct (m s) as [a s1]. by apply Hk.
Qed.

Lemma yields_random_ip : yields is_ip random_ip.
Proof. intros s. by destruct (random_ip_run s) as (ip & Hip & ->). Qed.

(** Every alert of [evaluate_rules] carries an address drawn by
    [random_ip]. *)
Lemma evaluate_rules_ips snapshot prev_snapshot can_packets :
  yields (fun r => Forall (fun a => is_ip (Alert.attacker_ip a)) r.2)
         (evaluate_rules snapshot prev_snapshot can_packets).
Proof.
  unfold evaluate_rules. cbv zeta.
  set (P := fun r : bool * list Alert.t =>
              Forall (fun a => is_ip (Alert.attacker_ip a)) r.2).
  assert (Hadd : ∀ (alerts : list Alert.t) (mk : string → Alert.t),
            (∀ ip, Alert.attacker_ip (mk ip) = ip) →
            Forall (fun a => is_ip (Alert.attacker_ip a)) alerts →
            yields P (random_ip ≫= λ ip, mret (true, alerts ++ [mk ip]))).
  { intros alerts mk Hmk Hal.
    apply (yields_bind is_ip); [apply yields_random_ip|].
    intros ip Hip. apply yields_ret. unfold P. cbn [snd].
    apply Forall_app. split; [done|]. constructor; [by rewrite Hmk|done]. }
  apply (yields_bind P).
  { destruct (_ <=? _)%nat; [|by apply yields_ret; constructor].
    by apply (Hadd [] (fun ip => Alert.mk _ _ _ _ ip)). }
  intros [ra1 al1] H1. apply (yields_bind P).
  { destruct prev_snapshot as [prev|]; [|by apply yields_ret].
    destruct (_ <? _)%Z; [|by apply yields_ret].
    by apply (Hadd al1 (fun ip => Alert.mk _ _ _ _ ip)). }
  intros [ra2 al2] H2. apply (yields_bind P).
  { destruct (_ && _); [|by apply yields_ret].
    by apply (Hadd al2 (fun ip => Alert.mk _ _ _ _ ip)). }
  intros [ra3 al3] H3. by apply yields_ret.
Qed.

(** X14. Every alert carries as [attacker_ip] a dotted quad of octets from
    1 to 254: those [evaluate_rules] returns, and so those of the snapshot
    of every tick. *)
Theorem alerts_carry_dotted_quads :
  (∀ (snapshot : Snapshot.t) (prev_snapshot : option Snapshot.t)
     (can_packets : list Packet.t) (s : Sys),
     Forall (fun a => is_ip (Alert.attacker_ip a))
            (evaluate_rules snapshot prev_snapshot can_packets s).1.2)
  ∧ (∀ (g : Globals) (s : Sys),
       Forall (fun a => is_ip (Alert.attacker_ip a))
              (Snapshot.security_alerts (generate_telemetry g s).1.1)).
Proof.
  split.
  - intros snapshot prev_snapshot can_packets s.
    apply (evaluate_rules_ips snapshot prev_snapshot can_packets s).
  - intros g s.
    destruct (generate_telemetry_alerts g s) as (snapshot0 & pkts & s6 & ->).
    apply (evaluate_rules_ips snapshot0 (LAST_SNAPSHOT g) pkts s6).
Qed.

Lemma filter_length_map {A} (f : A → bool) (l : list A) :
  length (List.filter f l) = length (List.filter id (map f l)).
Proof.
  induction l as [|a l IH]; [done|]. cbn [map List.filter]. unfold id at 1.
  destruct (f a); cbn [length]; by rewrite IH.
Qed.

(** X15. [evaluate_rules] looks at nothing but the speed and the brake
    status of the snapshot, the speed of the previous snapshot, and the
    anomaly flags of the frames: calls that agree on these return the same
    verdict and alerts and leave the same world. *)
Theorem rules_read_speed_brake_and_flags_only
    (snapshot snapshot' : Snapshot.t) (prev prev' : option Snapshot.t)
    (can_packets can_packets' : list Packet.t) (s : Sys) :
  Snapshot.speed snapshot = Snapshot.speed snapshot' →
  Snapshot.brake_status snapshot = Snapshot.brake_status snapshot' →
  Snapshot.speed <$> prev = Snapshot.speed <$> prev' →
  map Packet.anomaly can_packets = map Packet.anomaly can_packets' →
  evaluate_rules snapshot prev can_packets s
  = evaluate_rules snapshot' prev' can_packets' s.
Proof.
  intros Hspeed Hbrake Hprev Hflags. unfold evaluate_rules.
  rewrite (filter_length_map _ can_packets), Hflags, <- filter_length_map.
  rewrite Hspeed, Hbrake.
  destruct prev as [p|], prev' as [p'|]; try discriminate Hprev;
    [|reflexivity].
  injection Hprev as Hp. by rewrite Hp.
Qed.

(** ** Runs of ticks *)

Lemma run_ticks_S n g s :
  run_ticks (S n) g s
  = let '(snapshot, g1, s1) := generate_telemetry g s in
    let '(rest, g2, s2) := run_ticks n g1 s1 in
    (snapshot :: rest, g2, s2).
Proof.
  cbn [run_ticks]. unfold_M.
  destruct (generate_telemetry g s) as [[snapshot g1] s1].
  by destruct (run_ticks n g1 s1) as [[rest g2] s2].
Qed.

(** What one tick does to the globals and copies into its snapshot. *)
Lemma tick_globals g s :
  let snapshot := (generate_telemetry g s).1.1 in
  let g' := (generate_telemetry g s).1.2 in
  FORCE_ATTACK g' = FORCE_ATTACK g
  ∧ LAST_SNAPSHOT g' = Some snapshot
  ∧ Snapshot.forced_attack snapshot = FORCE_ATTACK g
  ∧ (FORCE_ATTACK g = true → Snapshot.attack_active snapshot = true)
  ∧ ((length (Analytics.events_timeline (ANALYTICS g)) ≤ 200)%nat →
     length (Analytics.events_timeline (ANALYTICS g'))
     = (length (Analytics.events_timeline (ANALYTICS g)) + 1) `min` 200).
Proof.
  destruct (generate_telemetry_spec g s)
    as (speed & s1 & r2 & s2 & health0 & s3 & r4 & s4 & pkts & now & s6
        & rule_attack & rule_alerts & s7 & heatmap1 & health1 & s8 & score
        & s8' & heatmap2 & health2 & s9 & s10 & _ & _ & _ & _ & H).
  cbn zeta in H. destruct H as (_ & _ & _ & ->).
  cbn [fst snd FORCE_ATTACK LAST_SNAPSHOT ANALYTICS Snapshot.forced_attack
       Snapshot.attack_active].
  split; [reflexivity|]. split; [reflexivity|]. split; [reflexivity|].
  split; [intros ->; apply orb_true_r|].
  intros Hlen.
  destruct (update_analytics_spec rule_alerts (rule_attack || FORCE_ATTACK g)
              (ANALYTICS g) s9) as (-> & _).
  rewrite length_app. cbn [length].
  destruct (Nat.ltb_spec 200
              (length (Analytics.events_timeline (ANALYTICS g)) + 1)).
  - rewrite length_drop, length_app. cbn [length]. lia.
  - rewrite length_app. cbn [length]. lia.
Qed.

(** X16. Ticks never touch the switch: after any number of ticks it is as
    it was, every snapshot returned carries it in [forced_attack], and is an
    attack when it is on; the previous snapshot is then the last one
    returned.  So what [force_attack] sets from an object body governs every
    later tick. *)
Theorem switch_governs_every_later_tick :
  (∀ (n : nat) (g : Globals) (s : Sys),
     let run := (run_ticks n g s).1 in
     length run.1 = n
     ∧ FORCE_ATTACK run.2 = FORCE_ATTACK g
     ∧ LAST_SNAPSHOT run.2
       = match last run.1 with
         | Some snapshot => Some snapshot
         | None => LAST_SNAPSHOT g
         end
     ∧ Forall (fun snapshot =>
                 Snapshot.forced_attack snapshot = FORCE_ATTACK g
                 ∧ (FORCE_ATTACK g = true →
                    Snapshot.attack_active snapshot = true)) run.1)
  ∧ (∀ (items : list (string * JSON)) (g : Globals) (n : nat) (s : Sys),
       let on := eq_str (dict_get items "mode") "on" in
       match force_attack (JDict items) g with
       | Returned _ g1 =>
           Forall (fun snapshot =>
                     Snapshot.forced_attack snapshot = on
                     ∧ (on = true → Snapshot.attack_active snapshot = true))
                  (run_ticks n g1 s).1.1
           ∧ FORCE_ATTACK (run_ticks n g1 s).1.2 = on
       | Raised _ => False
       end).
Proof.
  assert (Hrun : ∀ n g s,
    let run := (run_ticks n g s).1 in
    length run.1 = n
    ∧ FORCE_ATTACK run.2 = FORCE_ATTACK g
    ∧ LAST_SNAPSHOT run.2
      = match last run.1 with
        | Some snapshot => Some snapshot
        | None => LAST_SNAPSHOT g
        end
    ∧ Forall (fun snapshot =>
                Snapshot.forced_attack snapshot = FORCE_ATTACK g
                ∧ (FORCE_ATTACK g = true →
                   Snapshot.attack_active snapshot = true)) run.1).
  { induction n as [|n IH]; intros g s; cbv zeta.
    - cbn. repeat split. constructor.
    - rewrite run_ticks_S.
      destruct (tick_globals g s) as (Hf & Hl & Hfa & Haa & _).
      destruct (generate_telemetry g s) as [[snapshot g1] s1].
      cbn [fst snd] in Hf, Hl, Hfa, Haa.
      specialize (IH g1 s1). cbv zeta in IH.
      destruct (run_ticks n g1 s1) as [[rest g2] s2]. cbn [fst snd] in *.
      destruct IH as (IHlen & IHf & IHl & IHall).
      split; [cbn [length]; congruence|]. split; [congruence|]. split.
      + rewrite IHl. destruct rest as [|x rest]; [exact Hl|].
        rewrite last_cons_cons.
        destruct (last (x :: rest)) eqn:E; [reflexivity|].
        apply last_None in E. discriminate E.
      + constructor; [by split|]. by rewrite <- Hf. }
  split; [exact Hrun|].
  intros items g n s. cbn [force_attack].
  destruct (Hrun n {| FORCE_ATTACK := eq_str (dict_get items "mode") "on";
                      ANALYTICS := ANALYTICS g;
                      LAST_SNAPSHOT := LAST_SNAPSHOT g |} s)
    as (_ & Hf & _ & Hall).
  by split.
Qed.

(** X17. Starting from a timeline within its capacity, after [n] ticks the
    timeline holds the old entries plus [n], capped at 200. *)
Theorem timeline_length_after_ticks (n : nat) (g : Globals) (s : Sys) :
  (length (Analytics.events_timeline (ANALYTICS g)) ≤ 200)%nat →
  length (Analytics.events_timeline (ANALYTICS (run_ticks n g s).1.2))
  = (length (Analytics.events_timeline (ANALYTICS g)) + n) `min` 200.
Proof.
  revert g s. induction n as [|n IH]; intros g s Hlen.
  - cbn [run_ticks]. unfold mret, M_ret. cbn [fst snd]. lia.
  - rewrite run_ticks_S.
    destruct (tick_globals g s) as (_ & _ & _ & _ & Ht).
    specialize (Ht Hlen).
    destruct (generate_telemetry g s) as [[snapshot g1] s1].
    cbn [fst snd] in Ht.
    specialize (IH g1 s1). rewrite Ht in IH.
    destruct (run_ticks n g1 s1) as [[rest g2] s2]. cbn [fst snd] in *.
    rewrite IH by lia. lia.
Qed.

(** ** The further properties at sample inputs *)

Lemma log_never_affects_ticks_witness :
  sources sample_sys = sources sample_sys_disk_full
  ∧ (run_ticks 2 Globals0 sample_sys).1
    = (run_ticks 2 Globals0 sample_sys_disk_full).1
  ∧ sources (run_ticks 2 Globals0 sample_sys).2
    = sources (run_ticks 2 Globals0 sample_sys_disk_full).2.
Proof.
  split; [reflexivity|].
  apply (log_never_affects_ticks 2 Globals0 sample_sys sample_sys_disk_full).
  reflexivity.
Defined.

Lemma rules_read_speed_brake_and_flags_only_witness :
  evaluate_rules (sample_snapshot 140 "ON") (Some (sample_snapshot 30 "OFF"))
    (sample_packets 9) sample_sys
  = evaluate_rules (sample_snapshot_busy 140 "ON")
      (Some (sample_snapshot_busy 30 "ON")) (sample_packets_other 9)
      sample_sys.
Proof.
  apply (rules_read_speed_brake_and_flags_only
           (sample_snapshot 140 "ON") (sample_snapshot_busy 140 "ON")
           (Some (sample_snapshot 30 "OFF"))
           (Some (sample_snapshot_busy 30 "ON"))
           (sample_packets 9) (sample_packets_other 9) sample_sys);
    reflexivity.
Defined.

Lemma timeline_length_after_ticks_witness :
  length (Analytics.events_timeline
            (ANALYTICS (run_ticks 3 Globals0 sample_sys).1.2))
  = (length (Analytics.events_timeline (ANALYTICS Globals0)) + 3) `min` 200.
Proof.
  apply (timeline_length_after_ticks 3 Globals0 sample_sys). simpl. lia.
Defined.

(** An address, a frame, the flags with and without the hint, and the log
    on a full disk, in the sample world. *)
Example random_ip_sample : (random_ip sample_sys).1 = "128.191.254.63".
Proof. vm_compute. reflexivity. Qed.

Example first_frame_sample :
  head (generate_can_packets false sample_sys).1
  = Some {| Packet.timestamp := "03:04:00";
            Packet.id := "0x17c";
            Packet.ecu := "Brake ECU";
            Packet.dlc := 8;
            Packet.data := "A9 D6 03 30 5D 8A B7 E4";
            Packet.anomaly := false |}.
Proof. vm_compute. reflexivity. Qed.

Example hint_flags_sample :
  map Packet.anomaly (generate_can_packets false sample_sys).1
  = [false; false; false; false; false; false; false; false; false; false;
     false; false; false; true; false]
  ∧ map Packet.anomaly (generate_can_packets true sample_sys).1
    = [false; false; true; true; false; false; false; false; true; true;
       false; false; false; true; true].
Proof. split; vm_compute; reflexivity. Qed.

Example log_on_full_disk_sample :
  LOG_FILE (generate_telemetry Globals0 sample_sys_disk_full).2 = []
  ∧ writes (generate_telemetry Globals0 sample_sys_disk_full).2 = 8%nat
  ∧ length (LOG_FILE (run_ticks 2 Globals0 sample_sys).2) = 2%nat.
Proof. repeat split; vm_compute; reflexivity. Qed.

(** ** The floats of the model are the floats of the machine *)

(** The literals of app.py are read as the machine reads them, and the
    decimals with two places [round(x, 2)] returns are read back as the
    machine divides by 100. *)
Example literals_as_the_machine_reads_them :
  forallb (fun '(f, q) => Hardware.agrees f (Py.float q)) Hardware.literals
  = true
  ∧ forallb (fun n => Hardware.agrees (Hardware.hundredth (Z.of_nat n))
                        (Py.float (Z.of_nat n # 100)))
            (seq 0 101)
    = true.
Proof. split; vm_compute; reflexivity. Qed.

(** The four [random.uniform] expressions and the base anomaly take the
    same value in the model and on the machine, at every probe draw. *)
Example expressions_as_the_machine_computes_them :
  forallb (fun r => forallb (fun '(f, q) => Hardware.agrees f q)
                      (combine (Hardware.expressions r) (expressions r)))
          probe_draws
  = true.
Proof. vm_compute. reflexivity. Qed.

(** What Python returns when [random()] is 1/8 and 1/2. *)
Example rounded_floats_sample :
  Py.round2 (Random.uniform_of (Py.float 0.8) (Py.float 1.0) 1125899906842624)
  = Py.float 0.83
  ∧ Py.round2 (Binary64.mul (Random.unit_of 1125899906842624) (Py.float 0.2))
    = Py.float 0.03
  ∧ Py.round2 (Random.uniform_of (Py.float 0.85) (Py.float 1.0)
                 4503599627370496)
    = Py.float 0.93.
Proof. repeat split; vm_compute; reflexivity. Qed.

(** The thresholds are the floats, not the decimals: a draw equal to the
    float 0.35 is not below it, so no frame is flagged, with or without the
    hint; the draw just under it flags a frame with the hint only. *)
Example threshold_draw_sample :
  Random.unit_of 3152519739159347 = Py.float 0.35
  ∧ map Packet.anomaly (generate_can_packets true sample_sys_at_threshold).1
    = repeat false 15
  ∧ map Packet.anomaly (generate_can_packets false sample_sys_at_threshold).1
    = repeat false 15
  ∧ Py.Qltb (Random.unit_of 3152519739159346) (Py.float 0.35) = true
  ∧ Py.Qltb (Random.unit_of 3152519739159346) (Py.float 0.03) = false.
Proof. repeat split; vm_compute; reflexivity. Qed.

(** A write that fails part-way leaves a truncated record, and the next
    tick appends after it. *)
Example log_on_failing_disk_sample :
  let first := (generate_telemetry Globals0 sample_sys_disk_cut).1.1 in
  let second :=
    (generate_telemetry
       (generate_telemetry Globals0 sample_sys_disk_cut).1.2
       (generate_telemetry Globals0 sample_sys_disk_cut).2).1.1 in
  LOG_FILE (run_ticks 2 Globals0 sample_sys_disk_cut).2
  = [Truncated 10 first; Whole second].
Proof. vm_compute. reflexivity. Qed.

(** The floats of the first two ticks of the sample run: the scores and the
    health of the six units, in the order of [ECU_NAMES]. *)
Example sample_run_floats :
  let first := (generate_telemetry Globals0 sample_sys).1.1 in
  let second :=
    (generate_telemetry after_one_tick.1 after_one_tick.2).1.1 in
  Snapshot.can_anomaly_score first = Py.float 0.13
  ∧ map (fun e => Snapshot.ecu_health first !! e) ECU_NAMES
    = map (fun q => Some (Py.float q)) [0.86; 0.97; 0.88; 1.0; 0.91; 0.82]%Q
  ∧ Snapshot.can_anomaly_score second = Py.float 0.17
  ∧ map (fun e => Snapshot.ecu_health second !! e) ECU_NAMES
    = map (fun q => Some (Py.float q)) [0.61; 0.44; 0.92; 0.83; 0.66; 0.86]%Q.
Proof. repeat split; vm_compute; reflexivity. Qed.
